(** * A shallow embedding of the Gantt chart engine

    The development follows the JavaScript sources of the chart: the
    calendar helpers ([date_utils]), the task normaliser ([setup_tasks]),
    the dependency graph ([setup_dependencies], [get_all_dependent_tasks]),
    the bar geometry ([Bar.update_bar_position], [get_snap_position], the
    pointer-move handler of [bind_bar_events]) and the arrow construction
    ([make_arrows]).

    Conventions.
    - A calendar field or a constructor argument is an integer or NaN:
      [option Z], [None] standing for NaN.
    - A [Date] object is its time value (milliseconds since the epoch) or
      the invalid date.  Dates are naive wall-clock values: the local time
      zone offset of the platform is taken to be zero.
    - Pixel quantities are JavaScript numbers; they are modelled by exact
      rationals extended with the two infinities and NaN.  Every scale of
      the view-mode table makes the divisions of the source exact.
    - [undefined] and [null] fields are [None].
    - A thrown [TypeError] is [None] in the result of a fallible function. *)

From Stdlib Require Import ZArith QArith Qcanon Qround Lia Lqa Bool Ascii String.
From stdpp Require Import base option list strings gmap fin_sets.

Local Open Scope Z_scope.

(** ** Strings of the platform *)

Module JsString.

(** [s.split(sep)] for a separator that is one character (or a character
    class matching one character): never the empty list. *)
Fixpoint split (sep : ascii -> bool) (s : string) : list string :=
  match s with
  | EmptyString => [EmptyString]
  | String c s' =>
      if sep c then EmptyString :: split sep s'
      else match split sep s' with
           | w :: ws => String c w :: ws
           | [] => [String c EmptyString]
           end
  end.

Definition is_char (c : ascii) : ascii -> bool := Ascii.eqb c.

Definition is_digit (c : ascii) : bool :=
  let n := Z.of_nat (nat_of_ascii c) in (48 <=? n) && (n <=? 57).

Definition digit_value (c : ascii) : Z := Z.of_nat (nat_of_ascii c) - 48.

Definition digit_char (d : Z) : ascii := ascii_of_nat (Z.to_nat (d + 48)).

(** White space and line terminators skipped by [parseInt] and [trim]
    (the ASCII ones). *)
Definition is_space (c : ascii) : bool :=
  let n := nat_of_ascii c in
  (n =? 32)%nat || (n =? 9)%nat || (n =? 10)%nat || (n =? 11)%nat
  || (n =? 12)%nat || (n =? 13)%nat.

Fixpoint trim_start (s : string) : string :=
  match s with
  | String c s' => if is_space c then trim_start s' else s
  | EmptyString => EmptyString
  end.

Definition trim (s : string) : string :=
  String.rev (trim_start (String.rev (trim_start s))).

(** The longest prefix of decimal digits, read as a number, with the
    count of digits read. *)
Fixpoint read_digits (s : string) (acc : Z) (n : nat) : Z * nat :=
  match s with
  | String c s' =>
      if is_digit c then read_digits s' (10 * acc + digit_value c) (S n)
      else (acc, n)
  | EmptyString => (acc, n)
  end.

(** [parseInt(s, 10)]: leading white space, an optional sign, then the
    longest run of digits; NaN when there is none. *)
Definition parseInt (s : string) : option Z :=
  let s1 := trim_start s in
  let '(sign, s2) :=
    match s1 with
    | String "-" r => (-1, r)
    | String "+" r => (1, r)
    | _ => (1, s1)
    end in
  match read_digits s2 0 0 with
  | (_, O) => None
  | (v, S _) => Some (sign * v)
  end.

(** [Number(s)] on the strings a time part can be: the empty string is
    zero, an optionally signed run of digits is its value, anything else
    is NaN.  (Hexadecimal, exponent and [Infinity] literals are not part
    of this model.) *)
Definition to_number (s : string) : option Z :=
  let s1 := trim s in
  match s1 with
  | EmptyString => Some 0
  | _ =>
      let '(sign, s2) :=
        match s1 with
        | String "-" r => (-1, r)
        | String "+" r => (1, r)
        | _ => (1, s1)
        end in
      match read_digits s2 0 0 with
      | (v, S k) => if (S k =? String.length s2)%nat then Some (sign * v) else None
      | (_, O) => None
      end
  end.

(** [parseFloat('0.' + s) * 1000], truncated as the [Date] constructor
    truncates its arguments: the digits that open [s] are the fraction.
    The product is computed exactly here; it agrees with the
    floating-point product on every fraction of up to four digits.
    (An exponent after the digits is not part of this model.) *)
Definition fraction_to_ms (s : string) : option Z :=
  let '(v, k) := read_digits s 0 0 in
  Some ((v * 1000) / 10 ^ Z.of_nat k).

Fixpoint digits_of (fuel : nat) (n : Z) (acc : string) : string :=
  match fuel with
  | O => acc
  | S f =>
      let acc' := String (digit_char (n mod 10)) acc in
      if n <? 10 then acc' else digits_of f (n / 10) acc'
  end.

(** [n + ''] for an integer or NaN. *)
Definition of_number (n : option Z) : string :=
  match n with
  | None => "NaN"
  | Some z =>
      if z <? 0 then String "-" (digits_of (S (Z.to_nat (Z.log2 (- z)))) (- z) EmptyString)
      else digits_of (S (Z.to_nat (Z.log2 z))) z EmptyString
  end.

Fixpoint repeat_string (s : string) (n : nat) : string :=
  match n with
  | O => EmptyString
  | S k => s +:+ repeat_string s k
  end.

(** The [padStart] polyfill of the bundle.  (An empty [padString] makes
    the platform's [repeat] raise; no caller passes one.) *)
Definition padStart (str : string) (targetLength : nat) (padString : string) : string :=
  if (targetLength <? String.length str)%nat then str
  else
    let targetLength' := (targetLength - String.length str)%nat in
    let padString' :=
      if (String.length padString <? targetLength')%nat
      then padString +:+ repeat_string padString (targetLength' / String.length padString)
      else padString in
    substring 0 targetLength' padString' +:+ str.

(** *** [includes] and [replace] on strings *)

(** [s.includes(key)] *)
Fixpoint str_includes (key s : string) : bool :=
  String.prefix key s
  || match s with
     | String _ s' => str_includes key s'
     | EmptyString => false
     end.

(** [s.slice(n)] *)
Fixpoint drop_chars (n : nat) (s : string) : string :=
  match n, s with
  | S k, String _ s' => drop_chars k s'
  | _, _ => s
  end.

(** [s.replace(key, rep)] with a string for [key]: the first occurrence
    of [key] gives way to [rep].  (No [rep] of the source holds a
    replacement pattern: [$0] is none, and [$1] to [$9] name groups that a
    string [key] does not have, so they stand for themselves.) *)
Fixpoint replace (key rep s : string) : string :=
  if String.prefix key s then rep +:+ drop_chars (String.length key) s
  else match s with
       | String c s' => String c (replace key rep s')
       | EmptyString => EmptyString
       end.

End JsString.

(** ** Calendar arithmetic: the platform [Date] and [date_utils] *)

Module DateUtils.
Import JsString.

Inductive Scale := YEAR | MONTH | DAY | HOUR | MINUTE | SECOND | MILLISECOND.

Definition Scale_eqb (a b : Scale) : bool :=
  match a, b with
  | YEAR, YEAR | MONTH, MONTH | DAY, DAY | HOUR, HOUR
  | MINUTE, MINUTE | SECOND, SECOND | MILLISECOND, MILLISECOND => true
  | _, _ => false
  end.

(** *** The platform's time-value arithmetic *)

Definition msPerSecond : Z := 1000.
Definition msPerMinute : Z := 60000.
Definition msPerHour : Z := 3600000.
Definition msPerDay : Z := 86400000.

Definition Day (t : Z) : Z := t / msPerDay.
Definition TimeWithinDay (t : Z) : Z := t mod msPerDay.

Definition DaysInYear (y : Z) : Z :=
  if (y mod 4 =? 0) && (negb (y mod 100 =? 0) || (y mod 400 =? 0)) then 366 else 365.

Definition DayFromYear (y : Z) : Z :=
  365 * (y - 1970) + (y - 1969) / 4 - (y - 1901) / 100 + (y - 1601) / 400.

(** The largest year whose first day is not after day [d]: an estimate
    from the mean length of a year, corrected by one where needed. *)
Definition YearFromDay (d : Z) : Z :=
  let y := 1970 + (400 * d) / 146097 in
  if d <? DayFromYear y then y - 1
  else if DayFromYear (y + 1) <=? d then y + 1
  else y.

Definition YearFromTime (t : Z) : Z := YearFromDay (Day t).
Definition InLeapYear (t : Z) : Z :=
  if DaysInYear (YearFromTime t) =? 366 then 1 else 0.
Definition DayWithinYear (t : Z) : Z := Day t - DayFromYear (YearFromTime t).

Definition MonthFromTime (t : Z) : Z :=
  let d := DayWithinYear t in
  let l := InLeapYear t in
  if d <? 31 then 0
  else if d <? 59 + l then 1
  else if d <? 90 + l then 2
  else if d <? 120 + l then 3
  else if d <? 151 + l then 4
  else if d <? 181 + l then 5
  else if d <? 212 + l then 6
  else if d <? 243 + l then 7
  else if d <? 273 + l then 8
  else if d <? 304 + l then 9
  else if d <? 334 + l then 10
  else 11.

(** Days of the year before the first day of month [m] (0 to 11). *)
Definition month_start (l : Z) (m : Z) : Z :=
  if m =? 0 then 0
  else if m =? 1 then 31
  else if m =? 2 then 59 + l
  else if m =? 3 then 90 + l
  else if m =? 4 then 120 + l
  else if m =? 5 then 151 + l
  else if m =? 6 then 181 + l
  else if m =? 7 then 212 + l
  else if m =? 8 then 243 + l
  else if m =? 9 then 273 + l
  else if m =? 10 then 304 + l
  else 334 + l.

Definition DateFromTime (t : Z) : Z :=
  DayWithinYear t - month_start (InLeapYear t) (MonthFromTime t) + 1.

Definition HourFromTime (t : Z) : Z := (t / msPerHour) mod 24.
Definition MinFromTime (t : Z) : Z := (t / msPerMinute) mod 60.
Definition SecFromTime (t : Z) : Z := (t / msPerSecond) mod 60.
Definition msFromTime (t : Z) : Z := t mod msPerSecond.

Definition MakeTime (hour min sec ms : Z) : Z :=
  hour * msPerHour + min * msPerMinute + sec * msPerSecond + ms.

Definition MakeDay (year month date : Z) : Z :=
  let ym := year + month / 12 in
  let mn := month mod 12 in
  DayFromYear ym + month_start (if DaysInYear ym =? 366 then 1 else 0) mn + date - 1.

Definition MakeDate (day time : Z) : Z := day * msPerDay + time.

Inductive Date := TimeValue (t : Z) | InvalidDate.

Definition TimeClip (t : Z) : Date :=
  if Z.abs t <=? 8640000000000000 then TimeValue t else InvalidDate.

(** [new Date(year, month, ...rest)]: missing arguments default to the
    first day and to midnight, arguments past the seventh are ignored, a
    NaN argument gives the invalid date, and a year from 0 to 99 means
    1900 + year.  (The forms with fewer than two arguments read the clock
    or a time value; only [today] uses one, through its [now] argument.) *)
Definition new_Date (vals : list (option Z)) : Date :=
  match vals with
  | y :: m :: rest =>
      match y, m, nth 0 rest (Some 1), nth 1 rest (Some 0), nth 2 rest (Some 0),
            nth 3 rest (Some 0), nth 4 rest (Some 0) with
      | Some y, Some m, Some dt, Some h, Some mi, Some s, Some ms =>
          let yr := if (0 <=? y) && (y <=? 99) then 1900 + y else y in
          TimeClip (MakeDate (MakeDay yr m dt) (MakeTime h mi s ms))
      | _, _, _, _, _, _, _ => InvalidDate
      end
  | _ => InvalidDate
  end.

Definition field (f : Z -> Z) (d : Date) : option Z :=
  match d with
  | TimeValue t => Some (f t)
  | InvalidDate => None
  end.

Definition getFullYear := field YearFromTime.
Definition getMonth := field MonthFromTime.
Definition getDate := field DateFromTime.
Definition getHours := field HourFromTime.
Definition getMinutes := field MinFromTime.
Definition getSeconds := field SecFromTime.
Definition getMilliseconds := field msFromTime.

(** [a + b] and [a - b] on numbers that may be NaN. *)
Definition plus (a b : option Z) : option Z :=
  match a, b with
  | Some x, Some y => Some (x + y)
  | _, _ => None
  end.

Definition minus (a b : option Z) : option Z :=
  match a, b with
  | Some x, Some y => Some (x - y)
  | _, _ => None
  end.

(** *** date_utils *)

Definition get_date_values (date : Date) : list (option Z) :=
  [ getFullYear date; getMonth date; getDate date; getHours date;
    getMinutes date; getSeconds date; getMilliseconds date ].

(** A raw [start] or [end] of a task: absent ([undefined], [null]), a
    string, or a [Date] object. *)
Inductive raw_date :=
| RawMissing
| RawString (s : string)
| RawDate (d : Date).

(** The array assignment [date_parts[1] = date_parts[1] - 1]. *)
Definition month_zero_indexed (date_parts : list (option Z)) : list (option Z) :=
  match date_parts with
  | y :: m :: rest => y :: minus m (Some 1) :: rest
  | [y] => [y; None]
  | [] => []
  end.

Definition parse_string (date : string) : Date :=
  let parts := split (is_char " ") date in
  let date_parts := parseInt <$> split (is_char "-") (nth 0 parts EmptyString) in
  let time_parts :=
    match parts !! 1%nat with
    | Some p => if String.eqb p EmptyString then [] else split (fun c => is_char "." c || is_char ":" c) p
    | None => []
    end in
  let date_parts := month_zero_indexed date_parts in
  let vals :=
    match time_parts with
    | [] => date_parts
    | _ =>
        if (length time_parts =? 4)%nat
        then date_parts ++ (to_number <$> take 3 time_parts)
               ++ [fraction_to_ms (nth 3 time_parts EmptyString)]
        else date_parts ++ (to_number <$> time_parts)
    end in
  new_Date vals.

(** [parse(date)]: a [Date] is returned as it is, a string is read,
    anything else gives [undefined]. *)
Definition parse (date : raw_date) : option Date :=
  match date with
  | RawDate d => Some d
  | RawString s => Some (parse_string s)
  | RawMissing => None
  end.

(** [to_string(date, with_time)]; [None] is the [TypeError] raised on a
    value that is not a [Date]. *)
Definition to_string (date : option Date) (with_time : bool) : option string :=
  match date with
  | None => None
  | Some date =>
      let vals :=
        imap (fun i val =>
                let val := if (i =? 1)%nat then plus val (Some 1) else val in
                if (i =? 6)%nat then padStart (of_number val) 3 "0"
                else padStart (of_number val) 2 "0")
             (get_date_values date) in
      let v i := nth i vals EmptyString in
      let date_string := v 0%nat +:+ "-" +:+ v 1%nat +:+ "-" +:+ v 2%nat in
      let time_string := v 3%nat +:+ ":" +:+ v 4%nat +:+ ":" +:+ v 5%nat +:+ "." +:+ v 6%nat in
      Some (date_string +:+ (if with_time then " " +:+ time_string else EmptyString))
  end.

(** [date_a - date_b]: NaN when either side is not a valid date. *)
Definition date_minus (date_a date_b : option Date) : option Z :=
  match date_a, date_b with
  | Some (TimeValue a), Some (TimeValue b) => Some (a - b)
  | _, _ => None
  end.

(** [diff(date_a, date_b, scale)]: the floor of the elapsed time in units
    of [scale], a month being 30 days and a year 12 such months.  (The
    source divides step by step in floating point; the floor is the same
    as that of the exact quotient for spans of less than ten thousand
    years.) *)
Definition diff (date_a date_b : option Date) (scale : Scale) : option Z :=
  match date_minus date_a date_b with
  | None => None
  | Some milliseconds =>
      Some (milliseconds /
            match scale with
            | MILLISECOND => 1
            | SECOND => 1000
            | MINUTE => 1000 * 60
            | HOUR => 1000 * 60 * 60
            | DAY => 1000 * 60 * 60 * 24
            | MONTH => 1000 * 60 * 60 * 24 * 30
            | YEAR => 1000 * 60 * 60 * 24 * 30 * 12
            end)
  end.

(** [today()], from the current instant [now] of the clock. *)
Definition today (now : Date) : Date :=
  new_Date (take 3 (get_date_values now)).

Definition add (date : Date) (qty : Z) (scale : Scale) : Date :=
  let q (s : Scale) := Some (if Scale_eqb scale s then qty else 0) in
  new_Date
    [ plus (getFullYear date) (q YEAR);
      plus (getMonth date) (q MONTH);
      plus (getDate date) (q DAY);
      plus (getHours date) (q HOUR);
      plus (getMinutes date) (q MINUTE);
      plus (getSeconds date) (q SECOND);
      plus (getMilliseconds date) (q MILLISECOND) ].

(** [get_days_in_month(date)]; [None] is [undefined], for an invalid
    date. *)
Definition get_days_in_month (date : Date) : option Z :=
  let no_of_days := [31; 28; 31; 30; 31; 30; 31; 31; 30; 31; 30; 31] in
  match getMonth date, getFullYear date with
  | Some month, Some year =>
      if negb (month =? 1) then no_of_days !! Z.to_nat month
      else if ((year mod 4 =? 0) && negb (year mod 100 =? 0)) || (year mod 400 =? 0)
           then Some 29
           else Some 28
  | _, _ => None
  end.

(** [vals.slice(3).every((d) => d === 0)] *)
Definition time_of_day_is_zero (vals : list (option Z)) : bool :=
  forallb (fun d => match d with Some 0 => true | _ => false end) (drop 3 vals).

(** [a > b] on two dates (a comparison with an invalid date is false). *)
Definition date_gt (a b : Date) : bool :=
  match a, b with
  | TimeValue x, TimeValue y => y <? x
  | _, _ => false
  end.

(** *** [start_of], [clone] and [format] *)

(** The [scores] table of [start_of]. *)
Definition scores (s : Scale) : Z :=
  match s with
  | YEAR => 6 | MONTH => 5 | DAY => 4 | HOUR => 3 | MINUTE => 2 | SECOND => 1
  | MILLISECOND => 0
  end.

(** [start_of(date, scale)] *)
Definition start_of (date : Date) (scale : Scale) : Date :=
  let should_reset (_scale : Scale) := scores _scale <=? scores scale in
  new_Date
    [ getFullYear date;
      if should_reset YEAR then Some 0 else getMonth date;
      if should_reset MONTH then Some 1 else getDate date;
      if should_reset DAY then Some 0 else getHours date;
      if should_reset HOUR then Some 0 else getMinutes date;
      if should_reset MINUTE then Some 0 else getSeconds date;
      if should_reset SECOND then Some 0 else getMilliseconds date ].

(** [clone(date)] *)
Definition clone (date : Date) : Date := new_Date (get_date_values date).

(** [month_names.en] *)
Definition month_names_en : list string :=
  [ "January"; "February"; "March"; "April"; "May"; "June"; "July"; "August";
    "September"; "October"; "November"; "December" ]%string.

(** [keys.sort((a, b) => b.length - a.length)]: longer keys first, keys of
    one length in the order they had. *)
Fixpoint insert_key (k : string * string) (l : list (string * string))
  : list (string * string) :=
  match l with
  | [] => [k]
  | k' :: rest =>
      if (String.length k'.1 <=? String.length k.1)%nat then k :: l
      else k' :: insert_key k rest
  end.

(** The sort, by insertion from the right, which keeps that order. *)
Definition sort_keys (l : list (string * string)) : list (string * string) :=
  foldr insert_key [] l.

(** [format(date, format_string, lang)], [names] being the month names of
    the language.  A value that is [undefined] is written as the platform
    writes it. *)
Definition format (date : Date) (format_string : string) (names : list string) : string :=
  let values := (fun d => padStart (of_number d) 2 "0") <$> get_date_values date in
  let v i := nth i values EmptyString in
  let month_name :=
    match to_number (v 1%nat) with
    | Some i => if i <? 0 then "undefined"%string
                else default "undefined"%string (names !! Z.to_nat i)
    | None => "undefined"%string
    end in
  let format_map :=
    [ ("YYYY", v 0%nat);
      ("MM", padStart (of_number (plus (to_number (v 1%nat)) (Some 1))) 2 "0");
      ("DD", v 2%nat);
      ("HH", v 3%nat);
      ("mm", v 4%nat);
      ("ss", v 5%nat);
      ("SSS", v 6%nat);
      ("D", v 2%nat);
      ("MMMM", month_name);
      ("MMM", month_name) ]%string in
  let '(str, formatted_values) :=
    foldl (fun '(str, formatted_values) '(key, value) =>
             if str_includes key str
             then (replace key ("$" +:+ of_number (Some (Z.of_nat (length formatted_values)))) str,
                   formatted_values ++ [value])
             else (str, formatted_values))
          (format_string, []) (sort_keys format_map) in
  foldl (fun str '(i, value) => replace ("$" +:+ of_number (Some (Z.of_nat i))) value str)
        str (imap (fun i value => (i, value)) formatted_values).

End DateUtils.

(** ** Tasks and their normalisation *)

Module Tasks.
Import JsString DateUtils.

(** The [dependencies] field of a task as the caller may give it. *)
Inductive deps :=
| DepsMissing
| DepsString (s : string)
| DepsArray (l : list string).

(** A task object.  An absent field is [None]; for [visible], [None] is
    [undefined] only. *)
Record Task := mkTask {
  id : option string;
  name : string;
  start : raw_date;
  end_ : raw_date;
  _start : option Date;
  _end : option Date;
  _index : option nat;
  visible : option bool;
  invalid : bool;
  dependencies : deps;
  type : option string;
}.

Definition set_end_ (v : raw_date) (t : Task) : Task :=
  mkTask (id t) (name t) (start t) v (_start t) (_end t) (_index t)
         (visible t) (invalid t) (dependencies t) (type t).
Definition set__start (v : option Date) (t : Task) : Task :=
  mkTask (id t) (name t) (start t) (end_ t) v (_end t) (_index t)
         (visible t) (invalid t) (dependencies t) (type t).
Definition set__end (v : option Date) (t : Task) : Task :=
  mkTask (id t) (name t) (start t) (end_ t) (_start t) v (_index t)
         (visible t) (invalid t) (dependencies t) (type t).
Definition set__index (v : option nat) (t : Task) : Task :=
  mkTask (id t) (name t) (start t) (end_ t) (_start t) (_end t) v
         (visible t) (invalid t) (dependencies t) (type t).
Definition set_invalid (v : bool) (t : Task) : Task :=
  mkTask (id t) (name t) (start t) (end_ t) (_start t) (_end t) (_index t)
         (visible t) v (dependencies t) (type t).
Definition set_dependencies (v : deps) (t : Task) : Task :=
  mkTask (id t) (name t) (start t) (end_ t) (_start t) (_end t) (_index t)
         (visible t) (invalid t) v (type t).
Definition set_id (v : option string) (t : Task) : Task :=
  mkTask v (name t) (start t) (end_ t) (_start t) (_end t) (_index t)
         (visible t) (invalid t) (dependencies t) (type t).

(** Truthiness of the values of the model. *)
Definition truthy_string (s : string) : bool := negb (String.eqb s EmptyString).

Definition truthy_raw (d : raw_date) : bool :=
  match d with
  | RawMissing => false
  | RawString s => truthy_string s
  | RawDate _ => true
  end.

Definition truthy_id (i : option string) : bool :=
  match i with
  | Some s => truthy_string s
  | None => false
  end.

(** [task.visible || task.visible === undefined] *)
Definition is_visible (t : Task) : bool :=
  match visible t with
  | Some b => b
  | None => true
  end.

(** [n > 10] on a number that may be NaN. *)
Definition exceeds (n : option Z) (bound : Z) : bool :=
  match n with
  | Some v => bound <? v
  | None => false
  end.

(** [generate_id(task)], [random] being the text that
    [Math.random().toString(36).slice(2, 12)] yields for this call. *)
Definition generate_id (random : string) (task : Task) : string :=
  name task +:+ "_" +:+ random.

(** The callback of [this.visible_tasks.map] in [setup_tasks], for the
    task of row [i], in its two halves.  First the dates, the index and
    the invalid flag; [now] is the instant of the clock, and [None] is the
    [TypeError] of a date method called on [undefined]. *)
Definition setup_task_dates (now : Date) (i : nat) (task : Task) : option Task :=
  let task := set__start (parse (start task)) task in
  let task := set__end (parse (end_ task)) task in
  let task :=
    if exceeds (diff (_end task) (_start task) YEAR) 10
    then set_end_ RawMissing task else task in
  (* cache index *)
  let task := set__index (Some i) task in
  (* invalid dates *)
  let task :=
    if negb (truthy_raw (start task)) && negb (truthy_raw (end_ task)) then
      let today := today now in
      set__end (Some (add today 2 DAY)) (set__start (Some today) task)
    else task in
  task ←
    (if negb (truthy_raw (start task)) && truthy_raw (end_ task) then
       e ← _end task; Some (set__start (Some (add e (-2) DAY)) task)
     else Some task);
  task ←
    (if truthy_raw (start task) && negb (truthy_raw (end_ task)) then
       s ← _start task; Some (set__end (Some (add s 2 DAY)) task)
     else Some task);
  (* if hours is not set, assume the last day is full day *)
  e ← _end task;
  let task_end_values := get_date_values e in
  let task :=
    if time_of_day_is_zero task_end_values
    then set__end (Some (add e 24 HOUR)) task else task in
  (* invalid flag *)
  let task :=
    if negb (truthy_raw (start task)) || negb (truthy_raw (end_ task))
    then set_invalid true task else task in
  Some task.

(** Then the dependencies and the id. *)
Definition setup_task_ids (random : string) (task : Task) : Task :=
  (* dependencies *)
  let task :=
    match dependencies task with
    | DepsArray _ => task
    | DepsMissing => set_dependencies (DepsArray []) task
    | DepsString s =>
        let deps :=
          if truthy_string s
          then filter (fun d => truthy_string d = true) (trim <$> split (is_char ",") s)
          else [] in
        set_dependencies (DepsArray deps) task
    end in
  (* uids *)
  let task :=
    if negb (truthy_id (id task))
    then set_id (Some (generate_id random task)) task else task in
  task.

Definition setup_task (now : Date) (random : string) (i : nat) (task : Task) : option Task :=
  task ← setup_task_dates now i task;
  Some (setup_task_ids random task).

(** [setup_tasks(tasks)], as far as the tasks go: every visible task is
    normalised in place, [i] counting the visible tasks met so far;
    [random i] is the suffix drawn if row [i] needs an id. *)
Fixpoint setup_tasks_from (now : Date) (random : nat -> string) (i : nat)
         (tasks : list Task) : option (list Task) :=
  match tasks with
  | [] => Some []
  | task :: rest =>
      if is_visible task then
        task' ← setup_task now (random i) i task;
        rest' ← setup_tasks_from now random (S i) rest;
        Some (task' :: rest')
      else
        rest' ← setup_tasks_from now random i rest;
        Some (task :: rest')
  end.

Definition setup_tasks (now : Date) (random : nat -> string) (tasks : list Task)
  : option (list Task) :=
  setup_tasks_from now random 0 tasks.

Definition visible_tasks (tasks : list Task) : list Task :=
  filter (fun t => is_visible t = true) tasks.

(** [get_task(id)]: the first task whose id is [id]. *)
Definition get_task (tasks : list Task) (i : string) : option Task :=
  find (fun t => match id t with Some j => String.eqb j i | None => false end) tasks.

End Tasks.

(** ** The dependency graph *)

Module Graph.
Import Tasks.

(** What [for (let d of t.dependencies)] visits: the elements of an
    array, the characters of a string (a task that was never normalised),
    and a [TypeError] on [undefined]. *)
Definition deps_iter (d : deps) : option (list string) :=
  match d with
  | DepsArray l => Some l
  | DepsString s => Some ((fun c => String c EmptyString) <$> list_ascii_of_string s)
  | DepsMissing => None
  end.

(** The property key an array element is converted to. *)
Definition property_key (v : option string) : string :=
  match v with
  | Some s => s
  | None => "undefined"
  end.

(** The forward map: the ids (possibly [undefined]) that depend on a key.
    (Keys are assumed not to name a member of [Object.prototype].) *)
Definition register (t : Task) (m : gmap string (list (option string))) (d : string)
  : gmap string (list (option string)) :=
  <[d := default [] (m !! d) ++ [id t]]> m.

Fixpoint setup_dependencies_from (m : gmap string (list (option string)))
         (tasks : list Task) : option (gmap string (list (option string))) :=
  match tasks with
  | [] => Some m
  | t :: rest =>
      ds ← deps_iter (dependencies t);
      setup_dependencies_from (foldl (register t) m ds) rest
  end.

Definition setup_dependencies (tasks : list Task)
  : option (gmap string (list (option string))) :=
  setup_dependencies_from ∅ tasks.

(** The ancestor map: for the id of a task, its dependencies, each followed
    by what the map holds for that dependency at the time. *)
Definition add_ancestor (t : Task) (m : gmap string (list string)) (d : string)
  : gmap string (list string) :=
  let key := property_key (id t) in
  let m := <[key := default [] (m !! key) ++ [d]]> m in
  match m !! d with
  | Some above => <[key := default [] (m !! key) ++ above]> m
  | None => m
  end.

Fixpoint setup_ancestors_from (m : gmap string (list string)) (tasks : list Task)
  : option (gmap string (list string)) :=
  match tasks with
  | [] => Some m
  | t :: rest =>
      ds ← deps_iter (dependencies t);
      setup_ancestors_from (foldl (add_ancestor t) m ds) rest
  end.

Definition setup_ancestors (tasks : list Task) : option (gmap string (list string)) :=
  setup_ancestors_from ∅ tasks.

(** [acc.concat(this.dependency_map[curr])]: an array is spliced in, a
    missing entry appends [undefined]. *)
Definition concat_entry (m : gmap string (list (option string)))
           (acc : list (option string)) (curr : option string) : list (option string) :=
  match m !! property_key curr with
  | Some l => acc ++ l
  | None => acc ++ [None]
  end.

Definition includes (l : list (option string)) (d : option string) : bool :=
  bool_decide (d ∈ l).

(** One turn of the [while] loop of [get_all_dependent_tasks], on the
    pair of [out] and [to_process]. *)
Definition expand (m : gmap string (list (option string)))
           (st : list (option string) * list (option string))
  : list (option string) * list (option string) :=
  let '(out, to_process) := st in
  let deps := foldl (concat_entry m) [] to_process in
  (out ++ deps, filter (fun d => includes to_process d = false) deps).

(** [out.filter(Boolean)]: what is left are non-empty strings. *)
Definition filter_Boolean (out : list (option string)) : list string :=
  omap (fun d => match d with
                 | Some s => if truthy_string s then Some s else None
                 | None => None
                 end) out.

Fixpoint dependents_loop (fuel : nat) (m : gmap string (list (option string)))
         (out to_process : list (option string)) : option (list string) :=
  match to_process with
  | [] => Some (filter_Boolean out)
  | _ :: _ =>
      match fuel with
      | O => None
      | S fuel' =>
          let '(out', to_process') := expand m (out, to_process) in
          dependents_loop fuel' m out' to_process'
      end
  end.

(** [get_all_dependent_tasks(task_id)]; [None] when the loop has not
    left after [fuel] turns. *)
Definition get_all_dependent_tasks (fuel : nat) (m : gmap string (list (option string)))
           (task_id : string) : option (list string) :=
  dependents_loop fuel m [] [Some task_id].

End Graph.

(** ** JavaScript numbers for pixel quantities *)

Module Num.

Inductive num := Fin (q : Qc) | PInf | NInf | NaN.

Definition px (z : Z) : num := Fin (Q2Qc (inject_Z z)).

Definition add (a b : num) : num :=
  match a, b with
  | NaN, _ | _, NaN => NaN
  | Fin x, Fin y => Fin (x + y)
  | PInf, NInf | NInf, PInf => NaN
  | PInf, _ | _, PInf => PInf
  | NInf, _ | _, NInf => NInf
  end.

Definition neg (a : num) : num :=
  match a with
  | Fin x => Fin (- x)
  | PInf => NInf
  | NInf => PInf
  | NaN => NaN
  end.

Definition sub (a b : num) : num := add a (neg b).

Definition Qc_ltb (x y : Qc) : bool := negb (Qle_bool y x).

Definition lt (a b : num) : bool :=
  match a, b with
  | NaN, _ | _, NaN => false
  | Fin x, Fin y => Qc_ltb x y
  | NInf, NInf | PInf, _ | _, NInf => false
  | NInf, _ | _, PInf => true
  end.

Definition gt (a b : num) : bool := lt b a.

(** [a >= b] (false on NaN) *)
Definition ge (a b : num) : bool :=
  match a, b with
  | NaN, _ | _, NaN => false
  | _, _ => negb (lt a b)
  end.

Definition is_zero (x : Qc) : bool := Qeq_bool x 0.

(** Truthiness of a number: neither zero nor NaN. *)
Definition truthy (a : num) : bool :=
  match a with
  | Fin x => negb (is_zero x)
  | PInf | NInf => true
  | NaN => false
  end.

Definition isNaN (a : num) : bool :=
  match a with
  | NaN => true
  | _ => false
  end.

(** The integer part of a rational, towards zero. *)
Definition trunc (x : Qc) : Z := Z.quot (Qnum x) (Zpos (Qden x)).

(** [a / b] *)
Definition div (a b : num) : num :=
  match a, b with
  | NaN, _ | _, NaN => NaN
  | Fin x, Fin y =>
      if is_zero y then
        if is_zero x then NaN else if Qc_ltb x 0 then NInf else PInf
      else Fin (x / y)
  | Fin _, _ => Fin 0
  | PInf, Fin y => if Qc_ltb y 0 then NInf else PInf
  | NInf, Fin y => if Qc_ltb y 0 then PInf else NInf
  | _, _ => NaN
  end.

(** [a % b]: the remainder has the sign of the dividend. *)
Definition rem (a b : num) : num :=
  match a, b with
  | Fin x, Fin y =>
      if is_zero y then NaN
      else Fin (x - y * Q2Qc (inject_Z (trunc (x / y))))
  | Fin x, (PInf | NInf) => Fin x
  | _, _ => NaN
  end.

End Num.

(** ** Bars, snapping and the pointer-move handler *)

Module Geometry.
Import Tasks Graph Num.

Record Options := mkOptions {
  view_mode : string;
  column_width : num;
  step : Z;
  header_height : num;
  bar_height : num;
  padding : num;
  sortable : bool;
}.

(** [update_view_scale(view_mode)]: the table of the six scales; another
    mode leaves [step] and [column_width] as they are. *)
Definition update_view_scale (o : Options) (mode : string) : Options :=
  let set s w := mkOptions mode w s (header_height o) (bar_height o) (padding o) (sortable o) in
  if String.eqb mode "Day" then set 24 (px 38)
  else if String.eqb mode "Half Day" then set (24 / 2) (px 38)
  else if String.eqb mode "Quarter Day" then set (24 / 4) (px 38)
  else if String.eqb mode "Week" then set (24 * 7) (px 140)
  else if String.eqb mode "Month" then set (24 * 30) (px 120)
  else if String.eqb mode "Year" then set (24 * 365) (px 120)
  else set (step o) (column_width o).

Definition view_is (o : Options) (mode : string) : bool :=
  String.eqb (view_mode o) mode.

Definition get_snap_position (o : Options) (dx : num) : num :=
  let odx := dx in
  if view_is o "Week" then
    let rem := rem dx (div (column_width o) (px 7)) in
    add (sub odx rem)
        (if lt rem (div (column_width o) (px 14)) then px 0
         else div (column_width o) (px 7))
  else if view_is o "Month" then
    let rem := rem dx (div (column_width o) (px 30)) in
    add (sub odx rem)
        (if lt rem (div (column_width o) (px 60)) then px 0
         else div (column_width o) (px 30))
  else
    let rem := rem dx (column_width o) in
    add (sub odx rem)
        (if lt rem (div (column_width o) (px 2)) then px 0
         else column_width o).

(** A bar: the id and type of its task, the [x], [y] and [width]
    attributes of its rectangle, and the values the handlers keep on the
    rectangle during a gesture. *)
Record Bar := mkBar {
  task_id : string;
  task_type : option string;
  x : num;
  y : num;
  width : num;
  ox : num;
  oy : num;
  owidth : num;
  finaldx : num;
  finaldy : num;
}.

Definition set_x (v : num) (b : Bar) : Bar :=
  mkBar (task_id b) (task_type b) v (y b) (width b) (ox b) (oy b) (owidth b) (finaldx b) (finaldy b).
Definition set_y (v : num) (b : Bar) : Bar :=
  mkBar (task_id b) (task_type b) (x b) v (width b) (ox b) (oy b) (owidth b) (finaldx b) (finaldy b).
Definition set_width (v : num) (b : Bar) : Bar :=
  mkBar (task_id b) (task_type b) (x b) (y b) v (ox b) (oy b) (owidth b) (finaldx b) (finaldy b).
Definition set_finaldx (v : num) (b : Bar) : Bar :=
  mkBar (task_id b) (task_type b) (x b) (y b) (width b) (ox b) (oy b) (owidth b) v (finaldy b).

(** [update_attr(element, attr, value)]: the new value of the attribute. *)
Definition update_attr (old value : num) : num :=
  if negb (isNaN value) then value else old.

(** [update_bar_position({ x = null, width = null, y = null })]; an
    absent or [null] member is [None].  (The label, handles, progress bar
    and arrows that are redrawn afterwards are not part of the model.) *)
Definition update_bar_position (o : Options) (bar : Bar) (x' width' y' : option num) : Bar :=
  let bar :=
    match x' with
    | Some v => if truthy v then set_x (update_attr (x bar) v) bar else bar
    | None => bar
    end in
  let bar :=
    match width' with
    | Some v =>
        if truthy v && ge v (column_width o)
        then set_width (update_attr (width bar) v) bar else bar
    | None => bar
    end in
  let bar :=
    match y' with
    | Some v => if truthy v then set_y (update_attr (y bar) v) bar else bar
    | None => bar
    end in
  bar.

(** [get_bar(id)] as the position of the bar among [visible_bars]: the
    handlers keep references to the bars, so the model keeps positions. *)
Fixpoint get_bar (visible_bars : list Bar) (i : string) : option nat :=
  match visible_bars with
  | [] => None
  | b :: rest => if String.eqb (task_id b) i then Some O else S <$> get_bar rest i
  end.

(** One turn of the [for] loop of [get_all_parent_tasks], on [out] (the
    bars found, by position), [to_process] and [processedTasks]. *)
Definition visit (visible_bars : list Bar) (st : list nat * list string * gset string)
           (dep : string) : list nat * list string * gset string :=
  let '(out, to_process, processedTasks) := st in
  if bool_decide (dep ∈ processedTasks) then st
  else
    let out :=
      match get_bar visible_bars dep with
      | Some taskObject => out ++ [taskObject]
      | None => out
      end in
    (out, to_process ++ [dep], {[dep]} ∪ processedTasks).

(** One turn of its [while] loop. *)
Definition climb (ancestor_map : gmap string (list string)) (visible_bars : list Bar)
           (st : list nat * list string * gset string)
  : list nat * list string * gset string :=
  let '(out, to_process, processedTasks) := st in
  let deps := foldl (fun acc curr => acc ++ default [] (ancestor_map !! curr)) [] to_process in
  let '(out, to_process, processedTasks) :=
    foldl (visit visible_bars) (out, to_process, processedTasks) deps in
  (out, tail to_process, processedTasks).

Fixpoint parents_loop (fuel : nat) (ancestor_map : gmap string (list string))
         (visible_bars : list Bar) (st : list nat * list string * gset string)
  : option (list nat) :=
  match st with
  | (out, [], _) => Some out
  | (_, _ :: _, _) =>
      match fuel with
      | O => None
      | S fuel' => parents_loop fuel' ancestor_map visible_bars (climb ancestor_map visible_bars st)
      end
  end.

(** [get_all_parent_tasks(task_id)]: the bars of the ancestors, by
    position; [None] when the loop has not left after [fuel] turns. *)
Definition get_all_parent_tasks (fuel : nat) (ancestor_map : gmap string (list string))
           (visible_bars : list Bar) (task_id : string) : option (list nat) :=
  parents_loop fuel ancestor_map visible_bars ([], [task_id], ∅).

(** What a gesture remembers from [mousedown]. *)
Record Gesture := mkGesture {
  is_dragging : bool;
  is_resizing_left : bool;
  is_resizing_right : bool;
  x_on_start : num;
  y_on_start : num;
  parent_bar_id : string;
  bars : list nat;
  parent_bars : list nat;
  bar_being_dragged : nat;
  min_y : num;
  max_y : num;
}.

(** First part of the [mousemove] handler: the bar under the pointer. *)
Definition update_dragged (o : Options) (g : Gesture) (dx dy : num) (b : Bar) : Bar :=
  let b := set_finaldx (get_snap_position o dx) b in
  if is_resizing_left g then
    update_bar_position o b (Some (add (ox b) (finaldx b)))
                        (Some (sub (owidth b) (finaldx b))) None
  else if is_resizing_right g then
    update_bar_position o b None (Some (add (owidth b) (finaldx b))) None
  else if is_dragging g then
    let y := add (oy b) dy in
    let y := if lt y (min_y g) then min_y g else if gt y (max_y g) then max_y g else y in
    update_bar_position o b (Some (add (ox b) (finaldx b))) None
                        (if sortable o then Some y else None)
  else b.

Definition is_envelope (b : Bar) : bool :=
  match task_type b with
  | Some t => String.eqb t "project" || String.eqb t "tag"
  | None => false
  end.

(** The scan of the descendants' bars in the source module: [min_x] and
    [max_x], or the [TypeError] of reading a bar that is not shown. *)
Definition envelope (visible_bars : list Bar) (ids : list string) : option (num * num) :=
  foldl (fun acc bar_id =>
           '(min_x, max_x) ← acc;
           i ← get_bar visible_bars bar_id;
           bar ← visible_bars !! i;
           let min_x := if lt (x bar) min_x then x bar else min_x in
           let max_x := if gt (add (width bar) (x bar)) max_x
                        then add (width bar) (x bar) else max_x in
           Some (min_x, max_x))
        (Some (PInf, NInf)) ids.

(** The same scan in the bundle, which passes over a missing bar. *)
Definition envelope_bundle (visible_bars : list Bar) (ids : list string) : num * num :=
  foldl (fun '(min_x, max_x) bar_id =>
           match get_bar visible_bars bar_id ≫= (visible_bars !!.) with
           | Some bar =>
               let min_x := if lt (x bar) min_x then x bar else min_x in
               let max_x := if gt (add (width bar) (x bar)) max_x
                            then add (width bar) (x bar) else max_x in
               (min_x, max_x)
           | None => (min_x, max_x)
           end)
        (PInf, NInf) ids.

(** Second part of the handler, for one ancestor bar: the callback of
    [parent_bars.forEach] in the source module.  [None]: the call does not
    return (a [TypeError], or the descendants query is out of [fuel]).
    (The dates of the ancestor's task, recomputed by [date_changed], are
    not part of the model.) *)
Definition update_ancestor (fuel : nat) (o : Options)
           (dependency_map : gmap string (list (option string)))
           (visible_bars : list Bar) (a : nat) : option (list Bar) :=
  ancestor_bar ← visible_bars !! a;
  if is_envelope ancestor_bar then
    ids ← get_all_dependent_tasks fuel dependency_map (task_id ancestor_bar);
    '(min_x, max_x) ← envelope visible_bars ids;
    let ancestor_bar :=
      if gt min_x (ox ancestor_bar) then
        update_bar_position o ancestor_bar (Some min_x) (Some (sub max_x min_x)) None
      else
        update_bar_position o ancestor_bar None (Some (sub max_x (ox ancestor_bar))) None in
    Some (<[a := ancestor_bar]> visible_bars)
  else Some visible_bars.

(** The callback as the bundle has it. *)
Definition update_ancestor_bundle (fuel : nat) (o : Options)
           (dependency_map : gmap string (list (option string)))
           (visible_bars : list Bar) (a : nat) : option (list Bar) :=
  ancestor_bar ← visible_bars !! a;
  if is_envelope ancestor_bar then
    ids ← get_all_dependent_tasks fuel dependency_map (task_id ancestor_bar);
    let '(min_x, max_x) := envelope_bundle visible_bars ids in
    let ancestor_bar :=
      if gt min_x (ox ancestor_bar) then
        update_bar_position o ancestor_bar (Some min_x) (Some (sub max_x min_x)) None
      else if lt min_x (ox ancestor_bar) then
        update_bar_position o ancestor_bar (Some min_x) (Some (sub max_x min_x)) None
      else
        update_bar_position o ancestor_bar None (Some (sub max_x (ox ancestor_bar))) None in
    Some (<[a := ancestor_bar]> visible_bars)
  else Some visible_bars.

(** Third part of the handler: the other bars of the gesture. *)
Definition update_child (o : Options) (g : Gesture) (dx : num) (b : Bar) : Bar :=
  if String.eqb (task_id b) (parent_bar_id g) then b
  else
    let b := set_finaldx (get_snap_position o dx) b in
    if is_resizing_left g then
      update_bar_position o b (Some (add (ox b) (finaldx b))) None None
    else if is_dragging g then
      update_bar_position o b (Some (add (ox b) (finaldx b))) None None
    else b.

(** The [mousemove] handler while a gesture is in progress, for pointer
    offsets [dx] and [dy] from the start of the gesture, with the ancestor
    callback [on_ancestor] of the source module or of the bundle.  (The
    reordering of rows that ends the handler only moves bars vertically
    and is not part of the model.) *)
Definition mousemove_with
           (on_ancestor : list Bar -> nat -> option (list Bar))
           (o : Options) (g : Gesture) (dx dy : num) (visible_bars : list Bar)
  : option (list Bar) :=
  dragged ← visible_bars !! bar_being_dragged g;
  let visible_bars :=
    <[bar_being_dragged g := update_dragged o g dx dy dragged]> visible_bars in
  visible_bars ←
    foldl (fun acc a => vb ← acc; on_ancestor vb a) (Some visible_bars) (parent_bars g);
  Some (foldl (fun vb i => alter (update_child o g dx) i vb) visible_bars (bars g)).

Definition mousemove (fuel : nat) (o : Options)
           (dependency_map : gmap string (list (option string))) :=
  mousemove_with (update_ancestor fuel o dependency_map) o.

Definition mousemove_bundle (fuel : nat) (o : Options)
           (dependency_map : gmap string (list (option string))) :=
  mousemove_with (update_ancestor_bundle fuel o dependency_map) o.

(** *** The press on a bar and the progress handle *)

(** What [mousedown] stores on the rectangle of a bar of the gesture. *)
Definition remember_position (b : Bar) : Bar :=
  mkBar (task_id b) (task_type b) (x b) (y b) (width b) (x b) (y b) (width b)
        (Num.px 0) (Num.px 0).

(** The rectangle of the progress of a bar: its [width] attribute and the
    values [bind_bar_progress] keeps on it during a gesture. *)
Record ProgressBar := mkProgressBar {
  p_width : Num.num;
  p_owidth : Num.num;
  p_min_dx : Num.num;
  p_max_dx : Num.num;
  p_finaldx : Num.num;
}.

(** [$.attr(element, attr, value)] with a number for [value]: a falsy
    value makes the call read the attribute, which stays as it is. *)
Definition attr (old value : Num.num) : Num.num :=
  if Num.truthy value then value else old.

(** The [mousedown] handler of the progress handle, on a bar that is
    [bar_width] wide. *)
Definition progress_mousedown (bar_width : Num.num) (p : ProgressBar) : ProgressBar :=
  mkProgressBar (p_width p) (p_width p) (Num.neg (p_width p))
                (Num.sub bar_width (p_width p)) (Num.px 0).

(** Its [mousemove] handler, for the pointer offset [dx]. *)
Definition progress_mousemove (p : ProgressBar) (dx : Num.num) : ProgressBar :=
  let dx := if Num.gt dx (p_max_dx p) then p_max_dx p else dx in
  let dx := if Num.lt dx (p_min_dx p) then p_min_dx p else dx in
  mkProgressBar (attr (p_width p) (Num.add (p_owidth p) dx))
                (p_owidth p) (p_min_dx p) (p_max_dx p) dx.

End Geometry.

(** ** Dependency arrows *)

Module Arrows.
Import Tasks Geometry.

(** An arrow, as far as its end points go.  (Its path and its drawing are
    not part of the model.) *)
Record Arrow := mkArrow {
  from_task : Bar;
  to_task : Bar;
}.

(** [new Arrow(gantt, from_task, to_task)]: the constructor reads both
    bars, which raises a [TypeError] on [undefined]. *)
Definition new_Arrow (from_task to_task : option Bar) : option Arrow :=
  f ← from_task; t ← to_task; Some (mkArrow f t).

(** [visible_bars[task._index]] *)
Definition bar_of (visible_bars : list Bar) (t : Task) : option Bar :=
  i ← _index t; visible_bars !! i.

(** [task.dependencies.map(...)] needs an array. *)
Definition deps_array (d : deps) : option (list string) :=
  match d with
  | DepsArray l => Some l
  | _ => None
  end.

(** The arrows of one task: the [map] over its dependencies followed by
    [filter(Boolean)]. *)
Fixpoint arrows_of (tasks : list Task) (visible_bars : list Bar) (task : Task)
         (ids : list string) : option (list Arrow) :=
  match ids with
  | [] => Some []
  | task_id :: rest =>
      match get_task tasks task_id with
      | None => arrows_of tasks visible_bars task rest
      | Some dependency =>
          arrow ← new_Arrow (bar_of visible_bars dependency) (bar_of visible_bars task);
          arrows ← arrows_of tasks visible_bars task rest;
          Some (arrow :: arrows)
      end
  end.

Definition task_arrows (tasks : list Task) (visible_bars : list Bar) (task : Task)
  : option (list Arrow) :=
  ids ← deps_array (dependencies task);
  arrows_of tasks visible_bars task ids.

(** [make_arrows()]: [this.arrows] at the end, or [None] for a
    [TypeError]. *)
Definition make_arrows (tasks visible_tasks : list Task) (visible_bars : list Bar)
  : option (list Arrow) :=
  foldl (fun acc task =>
           all ← acc;
           arrows ← task_arrows tasks visible_bars task;
           Some (all ++ arrows))
        (Some []) visible_tasks.

(** *** The path of an arrow *)

(** The test of the [while] loop of [Arrow.calculate_path]. *)
Definition condition (padding : Num.num) (from_task to_task : Bar) (start_x : Num.num) : bool :=
  Num.lt (x to_task) (Num.add start_x padding)
  && Num.gt start_x (Num.add (x from_task) padding).

(** The loop itself, on [start_x]. *)
Fixpoint start_x_loop (fuel : nat) (padding : Num.num) (from_task to_task : Bar)
         (start_x : Num.num) : option Num.num :=
  if condition padding from_task to_task start_x then
    match fuel with
    | O => None
    | S fuel' =>
        start_x_loop fuel' padding from_task to_task (Num.sub start_x (Num.px 10))
    end
  else Some start_x.

(** The [start_x] that [calculate_path] gives the path; [None] when the
    loop has not left after [fuel] turns. *)
Definition calculate_start_x (fuel : nat) (o : Options) (a : Arrow) : option Num.num :=
  start_x_loop fuel (padding o) (from_task a) (to_task a)
               (Num.add (x (from_task a)) (Num.div (width (from_task a)) (Num.px 2))).

End Arrows.

(** ** The dates of the axis *)

Module Axis.
Import JsString DateUtils Tasks Geometry.

(** [a < b] on two values that may be dates: false unless both are valid
    dates. *)
Definition date_lt (a b : option Date) : bool :=
  match a, b with
  | Some (TimeValue x), Some (TimeValue y) => x <? y
  | _, _ => false
  end.

(** The loop of [setup_gantt_dates] over the tasks: the earliest start
    and the latest end, [None] being [null] or [undefined]. *)
Definition gantt_bounds (tasks : list Task) : option Date * option Date :=
  foldl (fun '(gantt_start, gantt_end) task =>
           (if negb (bool_decide (is_Some gantt_start)) || date_lt (_start task) gantt_start
            then _start task else gantt_start,
            if negb (bool_decide (is_Some gantt_end)) || date_lt gantt_end (_end task)
            then _end task else gantt_end))
        (None, None) tasks.

(** [setup_gantt_dates()]: [gantt_start] and [gantt_end]; [None] is the
    [TypeError] of [start_of] on [null] or [undefined].  [date_of_string]
    is the platform's [new Date(string)]. *)
Definition setup_gantt_dates (date_of_string : string -> Date) (o : Options)
           (tasks : list Task) : option (Date * Date) :=
  let '(gantt_start, gantt_end) := gantt_bounds tasks in
  gantt_start ← gantt_start;
  gantt_end ← gantt_end;
  let gantt_start := start_of gantt_start DAY in
  let gantt_end := start_of gantt_end DAY in
  (* add date padding on both sides *)
  if view_is o "Year" then
    Some (date_of_string (format (add gantt_start (-6) YEAR) "YYYY" month_names_en),
          add gantt_end 6 YEAR)
  else if view_is o "Month" then
    Some (add gantt_start (-8) MONTH, add gantt_end 8 MONTH)
  else
    Some (add gantt_start (-2) MONTH, add gantt_end 2 MONTH).

(** The [while] loop of [setup_date_values], on [cur_date] and [dates]. *)
Fixpoint date_values_loop (fuel : nat) (o : Options) (gantt_start gantt_end : Date)
         (cur_date : option Date) (dates : list Date) : option (list Date) :=
  if negb (bool_decide (is_Some cur_date)) || date_lt cur_date (Some gantt_end) then
    match fuel with
    | O => None
    | S fuel' =>
        let cur_date :=
          match cur_date with
          | None => clone gantt_start
          | Some cur_date =>
              if view_is o "Year" then add cur_date 1 YEAR
              else if view_is o "Month" then add cur_date 1 MONTH
              else add cur_date (step o) HOUR
          end in
        date_values_loop fuel' o gantt_start gantt_end (Some cur_date) (dates ++ [cur_date])
    end
  else Some dates.

(** [setup_date_values()]: [this.dates]; [None] when the loop has not
    left after [fuel] turns. *)
Definition setup_date_values (fuel : nat) (o : Options) (gantt_start gantt_end : Date)
  : option (list Date) :=
  date_values_loop fuel o gantt_start gantt_end None [].

(** [a <= b] on two values that may be dates. *)
Definition date_le (a b : option Date) : bool :=
  match a, b with
  | Some (TimeValue x), Some (TimeValue y) => x <=? y
  | _, _ => false
  end.

(** [get_oldest_starting_date()]; [None] is the [TypeError] of [reduce] on
    an empty array, [Some None] a start that is [undefined]. *)
Definition get_oldest_starting_date (tasks : list Task) : option (option Date) :=
  match _start <$> tasks with
  | [] => None
  | first :: rest =>
      Some (foldl (fun prev_date cur_date =>
                     if date_le cur_date prev_date then cur_date else prev_date)
                  first rest)
  end.

End Axis.

Import JsString DateUtils Tasks Graph Geometry Arrows.
Import Axis.

(** * Notions used in the statements *)

(** The step that ends the date handling of [setup_tasks]: an end whose
    time of day is zero is moved 24 hours on. *)
Definition end_of_day (d : Date) : Date :=
  if time_of_day_is_zero (get_date_values d) then add d 24 HOUR else d.

(** Time values from the third day of the year 100 to three days before the
    largest time value of the platform: the constructor neither reads their
    year as 1900 + year nor clips what [setup_tasks] derives from them. *)
Definition in_calendar_range (t : Z) : Prop :=
  msPerDay * (DayFromYear 100 + 2) <= t <= 8640000000000000 - 3 * msPerDay.

(** What is compared of a normalised task: its dates and its id. *)
Definition normal_form (t : Task) : option Date * option Date * option string :=
  (_start t, _end t, id t).

(** What [setup_task] leaves alone, and what it guarantees of the id. *)
Definition frame (i : nat) (t t' : Task) : Prop :=
  start t' = start t /\ visible t' = visible t /\ name t' = name t
  /\ _index t' = Some i
  /\ truthy_id (id t') = true
  /\ (truthy_id (id t) = true -> id t' = id t).

(** The dates of a normalised task, by the cases of the source. *)
Definition dates_of (now : Date) (t t' : Task) : Prop :=
  (exists s, exceeds (diff (parse (end_ t)) (parse (start t)) YEAR) 10 = true
     /\ truthy_raw (start t) = true /\ parse (start t) = Some s
     /\ end_ t' = RawMissing
     /\ _start t' = Some s /\ _end t' = Some (end_of_day (add s 2 DAY)))
  \/ (exceeds (diff (parse (end_ t)) (parse (start t)) YEAR) 10 = false
      /\ end_ t' = end_ t
      /\ ((truthy_raw (start t) = false /\ truthy_raw (end_ t) = false
           /\ _start t' = Some (today now)
           /\ _end t' = Some (end_of_day (add (today now) 2 DAY)))
          \/ (truthy_raw (start t) = false /\ truthy_raw (end_ t) = true
              /\ exists e, parse (end_ t) = Some e
                 /\ _start t' = Some (add e (-2) DAY) /\ _end t' = Some (end_of_day e))
          \/ (truthy_raw (start t) = true /\ truthy_raw (end_ t) = false
              /\ exists s, parse (start t) = Some s
                 /\ _start t' = Some s /\ _end t' = Some (end_of_day (add s 2 DAY)))
          \/ (truthy_raw (start t) = true /\ truthy_raw (end_ t) = true
              /\ exists s e, parse (start t) = Some s /\ parse (end_ t) = Some e
                 /\ _start t' = Some s /\ _end t' = Some (end_of_day e)))).

(** A raw date that, when given, is read as a time value in range. *)
Definition ordinary_raw (d : raw_date) : Prop :=
  truthy_raw d = true -> exists t, parse d = Some (TimeValue t) /\ in_calendar_range t.

(** Equality of pixel numbers and of bars is decidable. *)
#[global] Instance num_eq_dec : EqDecision Num.num.
Proof. solve_decision. Defined.

#[global] Instance Bar_eq_dec : EqDecision Bar.
Proof. solve_decision. Defined.

(** ** Inputs of the examples *)

Definition raw_task (i : option string) (n : string) (s e : raw_date) (d : deps) : Task :=
  mkTask i n s e None None None None false d None.

(** A bar at rest at [x0] with width [w0] in the first row. *)
Definition bar_at (i : string) (ty : option string) (x0 w0 : Z) : Bar :=
  mkBar i ty (Num.px x0) (Num.px 68) (Num.px w0)
        (Num.px x0) (Num.px 68) (Num.px w0) (Num.px 0) (Num.px 0).

(** Two tasks that depend on each other, and one that depends on itself. *)
Definition cyclic_tasks : list Task :=
  [ raw_task (Some "A"%string) "A" RawMissing RawMissing (DepsArray ["B"%string]);
    raw_task (Some "B"%string) "B" RawMissing RawMissing (DepsArray ["A"%string]) ].

Definition cyclic_map : gmap string (list (option string)) :=
  <["A"%string := [Some "B"%string]]> (<["B"%string := [Some "A"%string]]> ∅).

Definition cyclic_ancestors : gmap string (list string) :=
  <["B"%string := ["A"%string; "B"%string]]> (<["A"%string := ["B"%string]]> ∅).

Definition cyclic_bars : list Bar := [ bar_at "A" None 76 76; bar_at "B" None 190 76 ].

Definition selfish_tasks : list Task :=
  [ raw_task (Some "A"%string) "A" RawMissing RawMissing (DepsArray ["A"%string]) ].

Definition selfish_map : gmap string (list (option string)) :=
  <["A"%string := [Some "A"%string]]> ∅.

(** A task with a start and no end, one with an end and no start, and one
    whose end is before its start. *)
Definition start_only_task : Task :=
  raw_task (Some "a"%string) "A" (RawString "2024-01-10") RawMissing DepsMissing.

Definition end_only_task : Task :=
  raw_task (Some "b"%string) "B" RawMissing (RawString "2024-01-10") DepsMissing.

Definition backwards_task : Task :=
  raw_task (Some "c"%string) "C" (RawString "2024-01-12") (RawString "2024-01-10") DepsMissing.

(** A task without dates and without an id. *)
Definition nameless_task : Task :=
  raw_task None "D" RawMissing RawMissing (DepsString "a, b").

Definition other_suffix : nat -> string := fun _ => "p7m2c4v8yy"%string.

Definition some_suffix : nat -> string := fun _ => "k3x9q0w1zz"%string.

(** Noon of 2024-01-15. *)
Definition some_instant : Z := 1705320000000.

(** The Day scale of the table, with the default sizes.  ([sortable]
    defaults to the string ['false'], which is truthy.) *)
Definition day_options : Options :=
  mkOptions "Day" (Num.px 38) 24 (Num.px 50) (Num.px 20) (Num.px 18) true.

(** A project [P] on which [A] and [B] depend. *)
Definition project_tasks : list Task :=
  [ raw_task (Some "P"%string) "P" RawMissing RawMissing (DepsArray []);
    raw_task (Some "A"%string) "A" RawMissing RawMissing (DepsArray ["P"%string]);
    raw_task (Some "B"%string) "B" RawMissing RawMissing (DepsArray ["P"%string]) ].

Definition project_map : gmap string (list (option string)) :=
  <["P"%string := [Some "A"%string; Some "B"%string]]> ∅.

(** The project drawn from [38] to [190], [A] from [0] to [76], and [B]
    from [152] to [228], about to be dragged. *)
Definition project_bars : list Bar :=
  [ bar_at "P" (Some "project"%string) 38 152;
    bar_at "A" None 0 76;
    bar_at "B" None 152 76 ].

(** The same picture 760 pixels to the right, and [B] at rest, [A] drawn
    one column later and about to be dragged. *)
Definition shifted_bars : list Bar :=
  [ bar_at "P" (Some "project"%string) 798 152;
    bar_at "A" None 798 76;
    bar_at "B" None 874 76 ].

(** A drag of the bar at position [i], whose task has id [id], below the
    project. *)
Definition drag_of (i : nat) (id : string) : Gesture :=
  mkGesture true false false (Num.px 500) (Num.px 70) id [i] [0%nat] i
            (Num.px 50) (Num.px 164).

(** A resize by the left handle of the only bar. *)
Definition resize_left : Gesture :=
  mkGesture false true false (Num.px 500) (Num.px 70) "A" [0%nat] [] 0%nat
            (Num.px 50) (Num.px 88).

(** What is compared of a bar: where it starts and how wide it is. *)
Definition extent (b : Bar) : Num.num * Num.num := (x b, width b).

(** The quantum of a view mode: a seventh of a column in the Week view, a
    thirtieth in the Month view, a column otherwise. *)
Definition quantum (o : Options) : Num.num :=
  if view_is o "Week" then Num.div (column_width o) (Num.px 7)
  else if view_is o "Month" then Num.div (column_width o) (Num.px 30)
  else column_width o.

(** The arrows a task is to get: one for each of its dependencies that
    resolves to a task, in order, from the bar of that task to its own. *)
Definition resolved_arrows (tasks : list Task) (visible_bars : list Bar) (task : Task)
  : list Arrow :=
  match deps_array (dependencies task), bar_of visible_bars task with
  | Some ids, Some to =>
      omap (fun i => dependency ← get_task tasks i;
                     from ← bar_of visible_bars dependency;
                     Some (mkArrow from to)) ids
  | _, _ => []
  end.

(** A chart in which every visible task has its dependencies as an array
    and its bar, and every task a dependency resolves to has its bar. *)
Definition drawn (tasks visible_tasks : list Task) (visible_bars : list Bar) : Prop :=
  forall task, task ∈ visible_tasks ->
    exists ids to,
      dependencies task = DepsArray ids
      /\ bar_of visible_bars task = Some to
      /\ forall i dependency, i ∈ ids -> get_task tasks i = Some dependency ->
                              is_Some (bar_of visible_bars dependency).

(** Two drawn tasks, the second depending on an id that no task has and on
    the first. *)
Definition drawn_A : Task :=
  mkTask (Some "A"%string) "A" RawMissing RawMissing None None (Some 0%nat) None false
         (DepsArray []) None.

Definition drawn_B : Task :=
  mkTask (Some "B"%string) "B" RawMissing RawMissing None None (Some 1%nat) None false
         (DepsArray ["ghost"%string; "A"%string]) None.

Definition drawn_tasks : list Task := [drawn_A; drawn_B].

Definition drawn_bars : list Bar := [ bar_at "A" None 76 76; bar_at "B" None 190 76 ].

(** The days of month [month] (1 to 12) of year [year] in the Gregorian
    calendar. *)
Definition leap_year (year : Z) : bool :=
  ((year mod 4 =? 0) && negb (year mod 100 =? 0)) || (year mod 400 =? 0).

Definition days_in (year month : Z) : Z :=
  if month =? 2 then (if leap_year year then 29 else 28)
  else if (month =? 4) || (month =? 6) || (month =? 9) || (month =? 11) then 30
  else 31.

Definition number_of_2 (a b : ascii) : Z := 10 * digit_value a + digit_value b.

Definition number_of_4 (a b c d : ascii) : Z :=
  10 * (10 * (10 * digit_value a + digit_value b) + digit_value c) + digit_value d.

(** A zero-padded [YYYY-MM-DD] that names a day of the Gregorian calendar. *)
Definition is_iso_date (s : string) : bool :=
  match s with
  | String y1 (String y2 (String y3 (String y4 (String s1
      (String m1 (String m2 (String s2 (String d1 (String d2 EmptyString))))))))) =>
      is_digit y1 && is_digit y2 && is_digit y3 && is_digit y4
      && Ascii.eqb s1 "-"
      && is_digit m1 && is_digit m2
      && Ascii.eqb s2 "-"
      && is_digit d1 && is_digit d2
      && (1 <=? number_of_2 m1 m2) && (number_of_2 m1 m2 <=? 12)
      && (1 <=? number_of_2 d1 d2)
      && (number_of_2 d1 d2 <=? days_in (number_of_4 y1 y2 y3 y4) (number_of_2 m1 m2))
  | _ => false
  end.

(** The year such a string names. *)
Definition iso_year (s : string) : Z :=
  match s with
  | String y1 (String y2 (String y3 (String y4 _))) => number_of_4 y1 y2 y3 y4
  | _ => 0
  end.

(** Every id the ancestor map holds in some entry, and the measure that
    [get_all_parent_tasks] lowers at every turn: twice the listed ids not
    yet met, plus the length of [to_process]. *)
Definition listed (ancestor_map : gmap string (list string)) : gset string :=
  ⋃ ((fun kl => list_to_set (kl.2)) <$> map_to_list ancestor_map).

Definition measure (ancestor_map : gmap string (list string))
           (st : list nat * list string * gset string) : nat :=
  2 * size (listed ancestor_map ∖ st.2) + length (st.1.2).

(** ** Notions of the further properties *)

(** Time values from the year 100 on, in the range of the platform: the
    constructor reads their years as they are. *)
Definition constructible (t : Z) : Prop :=
  msPerDay * DayFromYear 100 <= t <= 8640000000000000.

(** The scales of a fixed length: all but the month and the year. *)
Definition fixed_scale (s : Scale) : bool :=
  match s with
  | YEAR | MONTH => false
  | _ => true
  end.

(** The milliseconds of a scale as [diff] counts them, with a month of
    30 days and a year of 12 such months. *)
Definition scale_ms (s : Scale) : Z :=
  match s with
  | MILLISECOND => 1
  | SECOND => msPerSecond
  | MINUTE => msPerMinute
  | HOUR => msPerHour
  | DAY => msPerDay
  | MONTH => 30 * msPerDay
  | YEAR => 360 * msPerDay
  end.

(** The number that three digits write. *)
Definition number_of_3 (a b c : ascii) : Z :=
  10 * (10 * digit_value a + digit_value b) + digit_value c.

(** The array [setup_tasks] makes of a [dependencies] field. *)
Definition listed_dependencies (d : deps) : list string :=
  match d with
  | DepsArray l => l
  | DepsMissing => []
  | DepsString s =>
      filter (fun d => truthy_string d = true) (trim <$> split (is_char ",") s)
  end.

(** The [invalid] flag after [setup_tasks]. *)
Definition flagged (t : Task) : bool :=
  invalid t || negb (truthy_raw (start t)) || negb (truthy_raw (end_ t))
  || exceeds (diff (parse (end_ t)) (parse (start t)) YEAR) 10.

(** [v] is listed under [u] in the forward map: [v] depends directly on [u]. *)
Definition depends_on (m : gmap string (list (option string))) (u v : string) : Prop :=
  exists l, m !! u = Some l /\ Some v ∈ l.

(** What holds of [out] and [to_process] at every turn. *)
Definition closing (m : gmap string (list (option string))) (task_id : string)
           (out to_process : list (option string)) : Prop :=
  (forall v, Some v ∈ out -> tc (depends_on m) task_id v)
  /\ (forall v, Some v ∈ to_process -> rtc (depends_on m) task_id v)
  /\ (forall v, tc (depends_on m) task_id v ->
        Some v ∈ out \/ exists w, Some w ∈ to_process /\ tc (depends_on m) w v).

(** Turn [k] holds ends of chains of [k] steps, and nothing after the
    longest chain has been passed by two turns. *)
Definition layered (m : gmap string (list (option string))) (task_id : string)
           (k : nat) (to_process : list (option string)) : Prop :=
  (forall v, Some v ∈ to_process -> nsteps (depends_on m) k task_id v)
  /\ (size (dom m) + 2 <= k -> to_process = [])%nat.

(** The ids of the tasks that list [d] among their dependencies, once for
    every time they list it, in the order of the tasks. *)
Definition dependents_of (tasks : list Task) (d : string) : list (option string) :=
  concat ((fun t => (fun _ => id t) <$> filter (fun d' => d' = d)
                      (default [] (deps_iter (dependencies t)))) <$> tasks).

(** [x] is a dependency of the task whose id reads [k]. *)
Definition lists (tasks : list Task) (k x : string) : Prop :=
  exists t ds, t ∈ tasks /\ property_key (id t) = k
               /\ deps_iter (dependencies t) = Some ds /\ x ∈ ds.

(** [v] is listed under [u] in the ancestor map. *)
Definition above (ancestor_map : gmap string (list string)) (u v : string) : Prop :=
  exists l, ancestor_map !! u = Some l /\ v ∈ l.

(** What holds of the three variables at every turn. *)
Definition climbing (ancestor_map : gmap string (list string)) (visible_bars : list Bar)
           (task_id : string) (st : list nat * list string * gset string) : Prop :=
  let '(out, to_process, processedTasks) := st in
  (forall d, d ∈ to_process -> rtc (above ancestor_map) task_id d)
  /\ (forall d, d ∈ processedTasks -> tc (above ancestor_map) task_id d)
  /\ (exists L, NoDup L /\ (forall d, d ∈ L <-> d ∈ processedTasks)
                /\ out = omap (get_bar visible_bars) L)
  /\ (forall v, tc (above ancestor_map) task_id v ->
        v ∈ processedTasks \/ exists w, w ∈ to_process /\ tc (above ancestor_map) w v)
  /\ (forall d, d ∈ processedTasks ->
        d ∈ to_process \/ forall v, above ancestor_map d v -> v ∈ processedTasks).

(** The expression the three branches of [get_snap_position] share, on
    the quantum [q] and its half [h]. *)
Definition snap_to (q h dx : Num.num) : Num.num :=
  Num.add (Num.sub dx (Num.rem dx q))
          (if Num.lt (Num.rem dx q) h then Num.px 0 else q).

(** A bar whose rectangle has finite numbers for [x] and [width]. *)
Definition finite_bar (b : Bar) : Prop :=
  exists a w : Qc, x b = Num.Fin a /\ width b = Num.Fin w.

(** The bar that [get_bar] finds for an id. *)
Definition bar_with (visible_bars : list Bar) (i : string) : option Bar :=
  get_bar visible_bars i ≫= (visible_bars !!.).

(** The right edge of a bar, as the scan computes it. *)
Definition end_x (b : Bar) : Num.num := Num.add (width b) (x b).

(** One step of either scan, on a bar. *)
Definition widen (acc : Num.num * Num.num) (bar : Bar) : Num.num * Num.num :=
  (if Num.lt (x bar) acc.1 then x bar else acc.1,
   if Num.gt (end_x bar) acc.2 then end_x bar else acc.2).

(** The scan of the source module, step by step. *)
Definition encloses (visible_bars : list Bar) (ids : list string)
           (acc : Num.num * Num.num) : Prop :=
  (ids = [] /\ acc = (Num.PInf, Num.NInf)
   \/ exists i i' b b' (mn mx : Qc),
        i ∈ ids /\ i' ∈ ids
        /\ bar_with visible_bars i = Some b /\ bar_with visible_bars i' = Some b'
        /\ x b = Num.Fin mn /\ end_x b' = Num.Fin mx /\ acc = (Num.Fin mn, Num.Fin mx))
  /\ forall i b, i ∈ ids -> bar_with visible_bars i = Some b ->
       Num.lt (x b) acc.1 = false /\ Num.gt (end_x b) acc.2 = false.

(** The two passes of [format] on the values of a date. *)
Definition passes (format_string : string) (format_map : list (string * string)) : string :=
  let '(str, formatted_values) :=
    foldl (fun '(str, formatted_values) '(key, value) =>
             if str_includes key str
             then (replace key ("$" +:+ of_number (Some (Z.of_nat (length formatted_values)))) str,
                   formatted_values ++ [value])
             else (str, formatted_values))
          (format_string, []) format_map in
  foldl (fun str '(i, value) => replace ("$" +:+ of_number (Some (Z.of_nat i))) value str)
        str (imap (fun i value => (i, value)) formatted_values).

(** Time values from the year 1010 to the year 9989: six years before
    and after them, a year is written with four digits. *)
Definition in_axis_range (t : Z) : Prop :=
  msPerDay * DayFromYear 1010 <= t < msPerDay * DayFromYear 9990.

(** The least and the greatest distance of two ticks of the axis, in
    milliseconds. *)
Definition stride (o : Options) : Z * Z :=
  if view_is o "Year" then (365 * msPerDay, 366 * msPerDay)
  else if view_is o "Month" then (28 * msPerDay, 31 * msPerDay)
  else (step o * msPerHour, step o * msPerHour).

(** A task whose normalised dates are time values in the range of the axis. *)
Definition dated (task : Task) : Prop :=
  exists s e, _start task = Some (TimeValue s) /\ _end task = Some (TimeValue e)
              /\ in_axis_range s /\ in_axis_range e.

(** The platform's constructor on a string that is a year only: the
    midnight that opens the year. *)
Definition year_only (s : string) : Date :=
  match to_number s with
  | Some y => TimeValue (DayFromYear y * msPerDay)
  | None => InvalidDate
  end.

(** Ticks in which each one before the last is before [gantt_end] and
    from [lo] to [hi] before the next one, and the last is not before
    [gantt_end]. *)
Fixpoint ticking (gantt_end lo hi a : Z) (ts : list Z) : Prop :=
  match ts with
  | [] => gantt_end <= a
  | b :: ts' => a < gantt_end /\ lo <= b - a <= hi /\ ticking gantt_end lo hi b ts'
  end.

(** ** Further inputs of the examples *)

(** The ancestor map of the project. *)
Definition project_ancestors : gmap string (list string) :=
  <["B"%string := ["P"%string]]> (<["A"%string := ["P"%string]]> ∅).

(** A task from 2024-01-10 to the end of 2024-01-12, normalised. *)
Definition scheduled_task : Task :=
  mkTask (Some "A"%string) "A" (RawString "2024-01-10") (RawString "2024-01-12")
         (Some (TimeValue 1704844800000)) (Some (TimeValue 1705104000000))
         (Some 0%nat) None false (DepsArray []) None.

(** The rectangle of a progress of 38 pixels, at rest. *)
Definition half_done : ProgressBar :=
  mkProgressBar (Num.px 38) (Num.px 38) (Num.px 0) (Num.px 0) (Num.px 0).

(** * Checks of the embedding on concrete inputs *)

Example parse_example :
  parse_string "2024-01-10" = TimeValue 1704844800000.
Proof. vm_compute. reflexivity. Qed.

Example to_string_example :
  to_string (Some (TimeValue 1704844800000)) true = Some "2024-01-10 00:00:00.000"%string.
Proof. vm_compute. reflexivity. Qed.

Example parse_time_example :
  to_string (Some (parse_string "2024-02-29 08:30:15.250")) true
  = Some "2024-02-29 08:30:15.250"%string.
Proof. vm_compute. reflexivity. Qed.

Example setup_example :
  fmap (M:=list) (fun t => (_start t, _end t)) <$> (setup_tasks (TimeValue 0) some_suffix [start_only_task])
  = Some [(Some (TimeValue 1704844800000), Some (TimeValue 1705104000000))].
Proof. vm_compute. reflexivity. Qed.

(** * Calendar lemmas *)

Section Calendar.

Lemma YearFromDay_spec d :
  DayFromYear (YearFromDay d) <= d < DayFromYear (YearFromDay d + 1).
Proof.
  unfold YearFromDay.
  set (y := 1970 + 400 * d / 146097).
  destruct (Z.ltb_spec d (DayFromYear y)) as [Hlt | Hge].
  - unfold DayFromYear in *; subst y.
    Z.to_euclidean_division_equations; lia.
  - destruct (Z.leb_spec (DayFromYear (y + 1)) d) as [Hle | Hgt]; [| lia].
    unfold DayFromYear in *; subst y.
    Z.to_euclidean_division_equations; lia.
Qed.

Lemma YearFromDay_unique d y :
  DayFromYear y <= d < DayFromYear (y + 1) -> YearFromDay d = y.
Proof.
  intros H. pose proof (YearFromDay_spec d) as S.
  unfold DayFromYear in *.
  Z.to_euclidean_division_equations; lia.
Qed.

Lemma DayFromYear_succ y : DayFromYear (y + 1) = DayFromYear y + DaysInYear y.
Proof.
  unfold DayFromYear, DaysInYear.
  destruct (Z.eqb_spec (y mod 4) 0), (Z.eqb_spec (y mod 100) 0),
    (Z.eqb_spec (y mod 400) 0); simpl;
    Z.to_euclidean_division_equations; lia.
Qed.

Lemma DayFromYear_mono y y' : y <= y' -> DayFromYear y <= DayFromYear y'.
Proof.
  intros H. unfold DayFromYear. Z.to_euclidean_division_equations; lia.
Qed.

Lemma DaysInYear_cases y : DaysInYear y = 365 \/ DaysInYear y = 366.
Proof. unfold DaysInYear. destruct (_ && _); auto. Qed.

Lemma DayWithinYear_bounds t :
  0 <= DayWithinYear t < DaysInYear (YearFromTime t).
Proof.
  unfold DayWithinYear, YearFromTime.
  pose proof (YearFromDay_spec (Day t)) as S.
  rewrite DayFromYear_succ in S. lia.
Qed.

Lemma MonthFromTime_range t : 0 <= MonthFromTime t <= 11.
Proof.
  unfold MonthFromTime.
  repeat match goal with |- context [if ?c then _ else _] => destruct c end; lia.
Qed.

(** The date of a time value is a day of its month. *)
Lemma month_start_DateFromTime t :
  month_start (InLeapYear t) (MonthFromTime t) + DateFromTime t - 1 = DayWithinYear t.
Proof. unfold DateFromTime. lia. Qed.

(** From the fields of a time value back to its day number. *)
Lemma MakeDay_fields t k :
  MakeDay (YearFromTime t) (MonthFromTime t) (DateFromTime t + k) = Day t + k.
Proof.
  pose proof (MonthFromTime_range t) as Hm.
  unfold MakeDay.
  rewrite (Z.div_small (MonthFromTime t) 12), (Z.mod_small (MonthFromTime t) 12) by lia.
  rewrite Z.add_0_r.
  pose proof (month_start_DateFromTime t) as H.
  unfold InLeapYear in H. unfold DayWithinYear in H. lia.
Qed.

Lemma MakeTime_fields t k :
  MakeTime (HourFromTime t + k) (MinFromTime t) (SecFromTime t) (msFromTime t)
  = TimeWithinDay t + k * msPerHour.
Proof.
  unfold MakeTime, HourFromTime, MinFromTime, SecFromTime, msFromTime, TimeWithinDay,
    msPerHour, msPerMinute, msPerSecond, msPerDay.
  Z.to_euclidean_division_equations; lia.
Qed.

Lemma Day_TimeWithinDay t : Day t * msPerDay + TimeWithinDay t = t.
Proof.
  unfold Day, TimeWithinDay, msPerDay. Z.to_euclidean_division_equations; lia.
Qed.

(** Outside the years 0 to 99, [add] on days and hours is addition on
    time values, up to the clip of the constructor. *)
Lemma add_DAY t q :
  ~ (0 <= YearFromTime t <= 99) ->
  add (TimeValue t) q DAY = TimeClip (t + q * msPerDay).
Proof.
  intros Hy. unfold add, new_Date; simpl.
  replace ((0 <=? YearFromTime t + 0) && (YearFromTime t + 0 <=? 99)) with false
    by (symmetry; apply andb_false_iff; lia).
  f_equal. unfold MakeDate.
  rewrite Z.add_0_r, (Z.add_0_r (MonthFromTime t)), MakeDay_fields.
  pose proof (MakeTime_fields t 0) as Ht.
  rewrite !Z.add_0_r in *. rewrite Ht.
  pose proof (Day_TimeWithinDay t). lia.
Qed.

Lemma add_HOUR t q :
  ~ (0 <= YearFromTime t <= 99) ->
  add (TimeValue t) q HOUR = TimeClip (t + q * msPerHour).
Proof.
  intros Hy. unfold add, new_Date; simpl.
  replace ((0 <=? YearFromTime t + 0) && (YearFromTime t + 0 <=? 99)) with false
    by (symmetry; apply andb_false_iff; lia).
  f_equal. unfold MakeDate.
  rewrite Z.add_0_r, (Z.add_0_r (MonthFromTime t)).
  pose proof (MakeDay_fields t 0) as Hd. rewrite Z.add_0_r in Hd.
  rewrite Z.add_0_r, Hd, (Z.add_0_r (MinFromTime t)), (Z.add_0_r (SecFromTime t)),
    (Z.add_0_r (msFromTime t)), MakeTime_fields.
  pose proof (Day_TimeWithinDay t). lia.
Qed.

Lemma time_of_day_is_zero_spec t :
  time_of_day_is_zero (get_date_values (TimeValue t)) = (t mod msPerDay =? 0).
Proof.
  unfold time_of_day_is_zero, get_date_values; simpl.
  unfold HourFromTime, MinFromTime, SecFromTime, msFromTime,
    msPerHour, msPerMinute, msPerSecond, msPerDay.
  destruct (Z.eqb_spec (t mod 86400000) 0) as [H0 | H0].
  - assert (H1 : (t / 3600000) mod 24 = 0) by (Z.to_euclidean_division_equations; lia).
    assert (H2 : (t / 60000) mod 60 = 0) by (Z.to_euclidean_division_equations; lia).
    assert (H3 : (t / 1000) mod 60 = 0) by (Z.to_euclidean_division_equations; lia).
    assert (H4 : t mod 1000 = 0) by (Z.to_euclidean_division_equations; lia).
    rewrite H1, H2, H3, H4. reflexivity.
  - destruct (Z.eq_dec ((t / 3600000) mod 24) 0) as [H1 | H1];
      [rewrite H1 | destruct ((t / 3600000) mod 24); try contradiction; reflexivity].
    destruct (Z.eq_dec ((t / 60000) mod 60) 0) as [H2 | H2];
      [rewrite H2 | destruct ((t / 60000) mod 60); try contradiction; reflexivity].
    destruct (Z.eq_dec ((t / 1000) mod 60) 0) as [H3 | H3];
      [rewrite H3 | destruct ((t / 1000) mod 60); try contradiction; reflexivity].
    destruct (Z.eq_dec (t mod 1000) 0) as [H4 | H4];
      [| destruct (t mod 1000); try contradiction; reflexivity].
    exfalso. apply H0. Z.to_euclidean_division_equations; lia.
Qed.

End Calendar.

(** * Lemmas on the normalisation of one task *)

Section Normalisation.

Lemma in_calendar_range_year t k :
  in_calendar_range t -> -2 <= k <= 3 ->
  ~ (0 <= YearFromTime (t + k * msPerDay) <= 99).
Proof.
  unfold in_calendar_range, YearFromTime. intros Hr Hk Hy.
  set (d := Day (t + k * msPerDay)) in *.
  assert (Hd : DayFromYear 100 <= d).
  { subst d. unfold Day, msPerDay in *.
    change (DayFromYear 100) with (-683003) in *.
    Z.to_euclidean_division_equations; lia. }
  pose proof (YearFromDay_spec d) as [_ Hs].
  pose proof (DayFromYear_mono (YearFromDay d + 1) 100). lia.
Qed.

Lemma in_calendar_range_clip t k :
  in_calendar_range t -> -2 <= k <= 3 ->
  TimeClip (t + k * msPerDay) = TimeValue (t + k * msPerDay).
Proof.
  unfold in_calendar_range, TimeClip. intros Hr Hk.
  change (DayFromYear 100) with (-683003) in *. unfold msPerDay in *.
  destruct (Z.leb_spec (Z.abs (t + k * 86400000)) 8640000000000000); [reflexivity | lia].
Qed.

Lemma add_DAY_in_range t q :
  in_calendar_range t -> -2 <= q <= 3 ->
  add (TimeValue t) q DAY = TimeValue (t + q * msPerDay).
Proof.
  intros Hr Hq. rewrite add_DAY.
  - apply in_calendar_range_clip; assumption.
  - pose proof (in_calendar_range_year t 0 Hr ltac:(lia)) as H.
    rewrite Z.mul_0_l, Z.add_0_r in H. exact H.
Qed.

(** On a time value [t] with [t + k] days in range, the last step of the
    date handling adds a day exactly at midnight. *)
Lemma end_of_day_in_range t k :
  in_calendar_range t -> -2 <= k <= 2 ->
  end_of_day (TimeValue (t + k * msPerDay))
  = TimeValue (t + k * msPerDay + (if t mod msPerDay =? 0 then msPerDay else 0)).
Proof.
  intros Hr Hk. unfold end_of_day.
  rewrite time_of_day_is_zero_spec.
  replace ((t + k * msPerDay) mod msPerDay) with (t mod msPerDay)
    by (symmetry; apply Z_mod_plus_full).
  destruct (t mod msPerDay =? 0).
  - rewrite add_HOUR by (apply in_calendar_range_year; [assumption | lia]).
    replace (t + k * msPerDay + 24 * msPerHour) with (t + (k + 1) * msPerDay)
      by (unfold msPerDay, msPerHour; lia).
    rewrite in_calendar_range_clip by (assumption || lia).
    f_equal. lia.
  - f_equal. lia.
Qed.

Lemma parse_string_empty : parse_string EmptyString = InvalidDate.
Proof. reflexivity. Qed.

Lemma truthy_generate_id random t : truthy_string (generate_id random t) = true.
Proof.
  unfold generate_id, truthy_string.
  destruct (name t); reflexivity.
Qed.

(** A span is only found to exceed the bound between two valid dates, and
    then both ends are non-empty strings or [Date]s. *)
Lemma parse_time_value_truthy d t : parse d = Some (TimeValue t) -> truthy_raw d = true.
Proof.
  destruct d as [| s |]; simpl; try discriminate; try reflexivity.
  unfold truthy_string. destruct s; [| reflexivity].
  rewrite parse_string_empty. discriminate.
Qed.

Lemma exceeds_diff_inv a b n :
  exceeds (diff (parse a) (parse b) YEAR) n = true ->
  exists ta tb, parse a = Some (TimeValue ta) /\ parse b = Some (TimeValue tb)
                /\ truthy_raw b = true.
Proof.
  unfold exceeds, diff, date_minus.
  destruct (parse a) as [[ta |] |] eqn:Ea; try discriminate.
  destruct (parse b) as [[tb |] |] eqn:Eb; try discriminate.
  intros _. exists ta, tb. repeat split.
  eapply parse_time_value_truthy; eassumption.
Qed.

Lemma exceeds_truthy_end a b n :
  exceeds (diff (parse a) (parse b) YEAR) n = true -> truthy_raw a = true.
Proof.
  unfold exceeds, diff, date_minus.
  destruct (parse a) as [[ta |] |] eqn:Ea; try discriminate.
  intros _. eapply parse_time_value_truthy; eassumption.
Qed.

Lemma truthy_raw_parse d : truthy_raw d = true -> exists v, parse d = Some v.
Proof. destruct d; simpl; try discriminate; eauto. Qed.

#[local] Arguments add : simpl never.
#[local] Arguments today : simpl never.
#[local] Arguments parse : simpl never.
#[local] Arguments diff : simpl never.
#[local] Arguments exceeds : simpl never.
#[local] Arguments get_date_values : simpl never.
#[local] Arguments time_of_day_is_zero : simpl never.
#[local] Arguments generate_id : simpl never.
#[local] Arguments truthy_raw : simpl nomatch.
#[local] Arguments truthy_id : simpl nomatch.
#[local] Arguments truthy_string : simpl never.

Ltac use_tests :=
  repeat (progress (cbn;
    repeat match goal with
      | H : exceeds _ _ = _ |- _ => rewrite H
      | H : truthy_raw _ = _ |- _ => rewrite H
      | H : time_of_day_is_zero _ = _ |- _ => rewrite H
      | H : parse _ = _ |- _ => rewrite H
      end)).

(** The second half of the callback leaves the dates alone and leaves a
    task with an id. *)
Lemma setup_task_ids_frame random u :
  let t' := setup_task_ids random u in
  start t' = start u /\ end_ t' = end_ u /\ _start t' = _start u /\ _end t' = _end u
  /\ visible t' = visible u /\ name t' = name u /\ _index t' = _index u
  /\ truthy_id (id t') = true
  /\ (truthy_id (id u) = true -> id t' = id u).
Proof.
  unfold setup_task_ids.
  destruct (dependencies u); cbn;
    destruct (truthy_id (id u)) eqn:Hi; cbn;
    repeat split; auto using truthy_generate_id; discriminate.
Qed.

Ltac dates_done :=
  eexists; split; [reflexivity |]; cbn; split; [repeat split |].

(** The first half raises nothing on the tasks of the model; its result
    by the cases of the source. *)
Lemma setup_task_dates_cases now i t :
  exists u, setup_task_dates now i t = Some u
    /\ (start u = start t /\ visible u = visible t /\ name u = name t
        /\ _index u = Some i /\ id u = id t)
    /\ dates_of now t u.
Proof.
  unfold setup_task_dates, dates_of, end_of_day. cbn.
  destruct (exceeds (diff (parse (end_ t)) (parse (start t)) YEAR) 10) eqn:Ex.
  - destruct (exceeds_diff_inv _ _ _ Ex) as (te & ts & He & Hs & Ht).
    destruct (time_of_day_is_zero (get_date_values (add (TimeValue ts) 2 DAY))) eqn:Hz;
      use_tests; dates_done;
      left; exists (TimeValue ts); rewrite ?Hz; repeat split; auto.
  - destruct (truthy_raw (start t)) eqn:Hs, (truthy_raw (end_ t)) eqn:He.
    + destruct (truthy_raw_parse _ Hs) as [s Ps], (truthy_raw_parse _ He) as [e Pe].
      destruct (time_of_day_is_zero (get_date_values e)) eqn:Hz;
        use_tests; dates_done;
        right; repeat split; auto; right; right; right; repeat split; auto;
        exists s, e; rewrite ?Hz; repeat split; auto.
    + destruct (truthy_raw_parse _ Hs) as [s Ps].
      destruct (time_of_day_is_zero (get_date_values (add s 2 DAY))) eqn:Hz;
        use_tests; dates_done;
        right; repeat split; auto; right; right; left; repeat split; auto;
        exists s; rewrite ?Hz; repeat split; auto.
    + destruct (truthy_raw_parse _ He) as [e Pe].
      destruct (time_of_day_is_zero (get_date_values e)) eqn:Hz;
        use_tests; dates_done;
        right; repeat split; auto; right; left; repeat split; auto;
        exists e; rewrite ?Hz; repeat split; auto.
    + destruct (time_of_day_is_zero (get_date_values (add (today now) 2 DAY))) eqn:Hz;
        use_tests; dates_done;
        right; repeat split; auto; left; rewrite ?Hz; repeat split; auto.
Qed.

(** [setup_task] raises nothing on the tasks of the model, and its result
    is described by [frame] and [dates_of]. *)
Lemma setup_task_cases now random i t :
  exists t', setup_task now random i t = Some t' /\ frame i t t' /\ dates_of now t t'.
Proof.
  destruct (setup_task_dates_cases now i t) as (u & Hu & (F1 & F2 & F3 & F4 & F5) & D).
  pose proof (setup_task_ids_frame random u) as (G1 & G2 & G3 & G4 & G5 & G6 & G7 & G8 & G9).
  exists (setup_task_ids random u). unfold setup_task. rewrite Hu. cbn.
  split; [reflexivity |]. split.
  - unfold frame. rewrite G1, G5, G6, G7. rewrite <- F5. repeat split; auto.
  - unfold dates_of in *. rewrite G2, G3, G4. exact D.
Qed.

Lemma setup_task_visible now random i t t' :
  setup_task now random i t = Some t' -> is_visible t' = is_visible t.
Proof.
  intros H. destruct (setup_task_cases now random i t) as (u & Hu & F & _).
  rewrite Hu in H. injection H as <-.
  unfold is_visible. destruct F as (_ & -> & _). reflexivity.
Qed.

(** Normalising a normalised task again changes neither its dates nor
    its id, whatever suffix is drawn. *)
Lemma setup_task_again now random random' i t t1 :
  setup_task now random i t = Some t1 ->
  exists t2, setup_task now random' i t1 = Some t2 /\ normal_form t2 = normal_form t1.
Proof.
  intros H1.
  destruct (setup_task_cases now random i t) as (u & Hu & F & D).
  rewrite Hu in H1. injection H1 as ->.
  destruct (setup_task_cases now random' i t1) as (t2 & H2 & F2 & D2).
  exists t2. split; [exact H2 |].
  destruct F as (Fs & _ & _ & _ & Fid & _).
  destruct F2 as (_ & _ & _ & _ & _ & Fid2).
  unfold normal_form. rewrite (Fid2 Fid).
  assert (_start t2 = _start t1 /\ _end t2 = _end t1) as [-> ->]; [| reflexivity].
  unfold dates_of in D, D2. rewrite Fs in D2.
  destruct D as [(s & Ex & Ts & Ps & Em & S1 & E1) | (Ex & Ee & D)].
  - rewrite Em in D2. cbn in D2.
    destruct D2 as [(? & ? & _) | (_ & _ & D2)]; [discriminate |].
    rewrite Ts in D2.
    destruct D2 as [(? & _) | [(? & _) | [(_ & _ & s' & Ps' & S2 & E2) | (_ & ? & _)]]];
      try discriminate.
    rewrite Ps in Ps'. injection Ps' as <-. split; congruence.
  - rewrite Ee in D2. rewrite Ex in D2.
    destruct D2 as [(? & ? & _) | (_ & _ & D2)]; [discriminate |].
    destruct D as [(Ts & Te & S1 & E1) | [(Ts & Te & e & Pe & S1 & E1)
                 | [(Ts & Te & s & Ps & S1 & E1) | (Ts & Te & s & e & Ps & Pe & S1 & E1)]]];
      rewrite Ts, Te in D2;
      destruct D2 as [(? & ? & S2 & E2) | [(? & ? & e' & Pe' & S2 & E2)
                 | [(? & ? & s' & Ps' & S2 & E2) | (? & ? & s' & e' & Ps' & Pe' & S2 & E2)]]];
      try discriminate; split; congruence.
Qed.

Lemma setup_tasks_from_total now random tasks :
  forall i, exists tasks', setup_tasks_from now random i tasks = Some tasks'.
Proof.
  induction tasks as [| t rest IH]; intros i; cbn; [eauto |].
  destruct (is_visible t).
  - destruct (setup_task_cases now (random i) i t) as (t' & -> & _).
    destruct (IH (S i)) as (rest' & ->). cbn. eauto.
  - destruct (IH i) as (rest' & ->). cbn. eauto.
Qed.

(** The task at a position of the result is the task at that position of
    the argument, normalised for some row when it is visible. *)
Lemma setup_tasks_from_lookup now random tasks :
  forall i tasks' k t,
    setup_tasks_from now random i tasks = Some tasks' ->
    tasks !! k = Some t ->
    exists t', tasks' !! k = Some t'
      /\ if is_visible t then exists j, setup_task now (random j) j t = Some t'
         else t' = t.
Proof.
  induction tasks as [| t0 rest IH]; intros i tasks' k t H Hk; [discriminate |].
  cbn in H. destruct (is_visible t0) eqn:V.
  - destruct (setup_task now (random i) i t0) as [t0' |] eqn:E0; [| discriminate].
    cbn in H.
    destruct (setup_tasks_from now random (S i) rest) as [rest' |] eqn:Er; [| discriminate].
    injection H as <-.
    destruct k as [| k]; cbn in Hk |- *.
    + injection Hk as <-. exists t0'. rewrite V. eauto.
    + eapply IH; eauto.
  - destruct (setup_tasks_from now random i rest) as [rest' |] eqn:Er; [| discriminate].
    injection H as <-.
    destruct k as [| k]; cbn in Hk |- *.
    + injection Hk as <-. exists t0. rewrite V. eauto.
    + eapply IH; eauto.
Qed.

Lemma setup_tasks_from_again now random random' tasks :
  forall i once,
    setup_tasks_from now random i tasks = Some once ->
    exists twice, setup_tasks_from now random' i once = Some twice
                  /\ normal_form <$> twice = normal_form <$> once.
Proof.
  induction tasks as [| t rest IH]; intros i once H; cbn in H.
  - injection H as <-. exists []. split; reflexivity.
  - destruct (is_visible t) eqn:V.
    + destruct (setup_task now (random i) i t) as [t1 |] eqn:E1; [| discriminate].
      cbn in H.
      destruct (setup_tasks_from now random (S i) rest) as [rest1 |] eqn:Er; [| discriminate].
      injection H as <-.
      destruct (setup_task_again _ _ (random' i) _ _ _ E1) as (t2 & E2 & N2).
      destruct (IH _ _ Er) as (rest2 & Er2 & Nr).
      exists (t2 :: rest2). cbn.
      rewrite (setup_task_visible _ _ _ _ _ E1), V, E2. cbn. rewrite Er2. cbn.
      split; [reflexivity |]. cbn. f_equal; [exact N2 | exact Nr].
    + destruct (setup_tasks_from now random i rest) as [rest1 |] eqn:Er; [| discriminate].
      injection H as <-.
      destruct (IH _ _ Er) as (rest2 & Er2 & Nr).
      exists (t :: rest2). cbn. rewrite V, Er2. cbn.
      split; [reflexivity |]. cbn. f_equal. exact Nr.
Qed.

(** The clock enters the normalisation through the day it gives. *)
Lemma setup_tasks_from_same_day now now' random tasks :
  today now = today now' ->
  forall i, setup_tasks_from now random i tasks = setup_tasks_from now' random i tasks.
Proof.
  intros E. induction tasks as [| t rest IH]; intros i; cbn [setup_tasks_from]; [reflexivity |].
  assert (Et : forall r, setup_task now r i t = setup_task now' r i t).
  { intros r. unfold setup_task, setup_task_dates. rewrite E. reflexivity. }
  rewrite Et, !IH. reflexivity.
Qed.

Lemma today_in_range tn :
  in_calendar_range tn ->
  exists t0, today (TimeValue tn) = TimeValue t0 /\ in_calendar_range t0
             /\ t0 mod msPerDay = 0.
Proof.
  intros Hr. exists (Day tn * msPerDay).
  assert (Hy : ~ (0 <= YearFromTime tn <= 99)).
  { pose proof (in_calendar_range_year tn 0 Hr ltac:(lia)) as H.
    rewrite Z.mul_0_l, Z.add_0_r in H. exact H. }
  assert (Hin : in_calendar_range (Day tn * msPerDay)).
  { unfold in_calendar_range, Day, msPerDay in *.
    change (DayFromYear 100) with (-683003) in *.
    Z.to_euclidean_division_equations; lia. }
  split; [| split; [exact Hin | apply Z_mod_mult]].
  unfold today.
  change (new_Date [Some (YearFromTime tn); Some (MonthFromTime tn);
                    Some (DateFromTime tn)] = TimeValue (Day tn * msPerDay)).
  unfold new_Date. cbn [nth].
  replace ((0 <=? YearFromTime tn) && (YearFromTime tn <=? 99)) with false
    by (symmetry; apply andb_false_iff; lia).
  pose proof (MakeDay_fields tn 0) as Hd. rewrite Z.add_0_r in Hd. rewrite Hd.
  unfold MakeDate, MakeTime. rewrite !Z.mul_0_l, !Z.add_0_r.
  pose proof (in_calendar_range_clip _ 0 Hin ltac:(lia)) as Hc.
  rewrite Z.mul_0_l, Z.add_0_r in Hc. exact Hc.
Qed.

End Normalisation.

(** * The properties of the specification *)

(** ** Task normalisation *)


Ltac ordered_dates :=
  split; [eassumption |]; split; [eassumption |]; split; [eassumption |]; split.








(** ** The dependency graph *)

Section Cycle.

Lemma expand_cyclic_A out :
  expand cyclic_map (out, [Some "A"%string]) = (out ++ [Some "B"%string], [Some "B"%string]).
Proof. unfold expand. f_equal. Qed.

Lemma expand_cyclic_B out :
  expand cyclic_map (out, [Some "B"%string]) = (out ++ [Some "A"%string], [Some "A"%string]).
Proof. unfold expand. f_equal. Qed.

(** On the two-task cycle the loop never empties [to_process]. *)
Lemma dependents_loop_cyclic fuel :
  forall out,
    dependents_loop fuel cyclic_map out [Some "A"%string] = None
    /\ dependents_loop fuel cyclic_map out [Some "B"%string] = None.
Proof.
  induction fuel as [| fuel IH]; intros out; [split; reflexivity |].
  split; cbn [dependents_loop].
  - rewrite expand_cyclic_A. apply IH.
  - rewrite expand_cyclic_B. apply IH.
Qed.

End Cycle.

Section Parents.

Local Open Scope nat_scope.

Variable ancestor_map : gmap string (list string).
Variable visible_bars : list Bar.

Lemma listed_entry k l x : ancestor_map !! k = Some l -> x ∈ l -> x ∈ listed ancestor_map.
Proof.
  intros Hk Hx. unfold listed. apply elem_of_union_list.
  exists (list_to_set l). split; [| apply elem_of_list_to_set; exact Hx].
  apply list_elem_of_fmap. exists (k, l). split; [reflexivity |].
  apply elem_of_map_to_list. exact Hk.
Qed.

Lemma deps_listed (to_process : list string) :
  forall acc, (forall x, x ∈ acc -> x ∈ listed ancestor_map) ->
    forall x, x ∈ foldl (fun acc curr => acc ++ default [] (ancestor_map !! curr)) acc to_process ->
              x ∈ listed ancestor_map.
Proof.
  induction to_process as [| c rest IH]; intros acc Hacc x Hx; cbn in Hx; [auto |].
  apply (IH _) in Hx; [exact Hx |].
  intros y Hy. apply elem_of_app in Hy. destruct Hy as [Hy | Hy]; [auto |].
  destruct (ancestor_map !! c) as [l |] eqn:E; cbn in Hy.
  - eapply listed_entry; eassumption.
  - inversion Hy.
Qed.

Lemma visit_measure st dep :
  dep ∈ listed ancestor_map -> measure ancestor_map (visit visible_bars st dep) <= measure ancestor_map st.
Proof.
  intros Hd. destruct st as [[out tp] pr]. unfold visit, measure.
  destruct (bool_decide (dep ∈ pr)) eqn:E; cbn; [lia |].
  apply bool_decide_eq_false in E.
  assert (Hsz : size (listed ancestor_map ∖ pr) = S (size (listed ancestor_map ∖ ({[dep]} ∪ pr)))).
  { assert (Hs : listed ancestor_map ∖ pr = {[dep]} ∪ (listed ancestor_map ∖ ({[dep]} ∪ pr))).
    { apply set_eq. intros z.
      rewrite elem_of_union, !elem_of_difference, elem_of_union, elem_of_singleton.
      destruct (decide (z = dep)) as [-> | Hne]; tauto. }
    rewrite Hs, size_union, size_singleton; [reflexivity |].
    apply disjoint_singleton_l.
    rewrite elem_of_difference, elem_of_union, elem_of_singleton. tauto. }
  rewrite Hsz, length_app. cbn. lia.
Qed.

Lemma visits_measure deps :
  forall st, (forall x, x ∈ deps -> x ∈ listed ancestor_map) ->
             measure ancestor_map (foldl (visit visible_bars) st deps) <= measure ancestor_map st.
Proof.
  induction deps as [| d rest IH]; intros st H; cbn; [lia |].
  etransitivity; [apply IH; intros x Hx; apply H; right; exact Hx |].
  apply visit_measure. apply H. left.
Qed.

Lemma climb_measure out c tp pr :
  measure ancestor_map (climb ancestor_map visible_bars (out, c :: tp, pr)) < measure ancestor_map (out, c :: tp, pr).
Proof.
  unfold climb.
  set (deps := foldl _ [] (c :: tp)).
  assert (Hdeps : forall x, x ∈ deps -> x ∈ listed ancestor_map).
  { intros x Hx. eapply deps_listed; [| exact Hx]. intros y Hy. inversion Hy. }
  pose proof (visits_measure deps (out, c :: tp, pr) Hdeps) as Hm.
  destruct (foldl (visit visible_bars) (out, c :: tp, pr) deps) as [[out' tp'] pr'] eqn:E.
  assert (Hlen : length tp' >= 1).
  { assert (G : forall ds st, length (st.1.2) >= 1 ->
                 length ((foldl (visit visible_bars) st ds).1.2) >= 1).
    { induction ds as [| d ds IH]; intros st Hst; cbn; [exact Hst |].
      apply IH. destruct st as [[o t] p]. unfold visit.
      destruct (bool_decide (d ∈ p)); cbn in *; [exact Hst |].
      rewrite length_app. lia. }
    specialize (G deps (out, c :: tp, pr)). rewrite E in G. cbn in G. apply G. lia. }
  unfold measure in *. cbn in *. destruct tp' as [| c' tp'']; cbn in *; lia.
Qed.

(** [get_all_parent_tasks] returns on every ancestor map. *)
Lemma parents_loop_returns fuel :
  forall st, measure ancestor_map st <= fuel ->
             exists out, parents_loop fuel ancestor_map visible_bars st = Some out.
Proof.
  induction fuel as [| fuel IH]; intros [[out tp] pr] Hm.
  - destruct tp as [| c tp]; [cbn; eauto |]. unfold measure in Hm. cbn in Hm. lia.
  - destruct tp as [| c tp]; [cbn; eauto |].
    cbn [parents_loop]. apply IH.
    pose proof (climb_measure out c tp pr). lia.
Qed.

End Parents.

(** C1 (the code at the failing input).  On two tasks that depend on each
    other, [get_all_dependent_tasks] has not returned after any number of
    turns of its loop; on a task that depends on itself it returns, with the
    task's own id in the result.  [get_all_parent_tasks], which keeps the
    set of the ids it has met, returns on every ancestor map, and after
    three turns on that of the two tasks. *)
Theorem get_all_dependent_tasks_on_cycles :
  setup_dependencies cyclic_tasks = Some cyclic_map
  /\ (forall fuel, get_all_dependent_tasks fuel cyclic_map "A" = None)
  /\ setup_dependencies selfish_tasks = Some selfish_map
  /\ get_all_dependent_tasks 1 selfish_map "A" = Some ["A"%string]
  /\ setup_ancestors cyclic_tasks = Some cyclic_ancestors
  /\ get_all_parent_tasks 3 cyclic_ancestors cyclic_bars "A" = Some [1%nat; 0%nat]
  /\ (forall ancestor_map visible_bars task_id,
        exists fuel out,
          get_all_parent_tasks fuel ancestor_map visible_bars task_id = Some out).
Proof.
  split; [vm_compute; reflexivity |].
  split; [intros fuel; apply dependents_loop_cyclic |].
  do 4 (split; [vm_compute; reflexivity |]).
  intros ancestor_map visible_bars task_id.
  exists (measure ancestor_map ([], [task_id], ∅)).
  apply parents_loop_returns. reflexivity.
Qed.

(** ** Bars *)

Section PixelNumbers.

Lemma truthy_not_NaN v : Num.truthy v = true -> Num.isNaN v = false.
Proof. destruct v; simpl; congruence. Qed.

Lemma truthy_px_0 : Num.truthy (Num.px 0) = false.
Proof. reflexivity. Qed.

Lemma update_attr_truthy old v : Num.truthy v = true -> update_attr old v = v.
Proof. intros H. unfold update_attr. rewrite (truthy_not_NaN v H). reflexivity. Qed.

Lemma Qc_ltb_lt (a b : Qc) : Num.Qc_ltb a b = true <-> (a < b)%Q.
Proof.
  unfold Num.Qc_ltb. rewrite negb_true_iff.
  split.
  - intros H. apply Qnot_le_lt. intros C. apply Qle_bool_iff in C. congruence.
  - intros H. destruct (Qle_bool b a) eqn:E; [| reflexivity].
    apply Qle_bool_iff in E. exfalso. exact (Qlt_not_le _ _ H E).
Qed.

Lemma Qc_ltb_ge (a b : Qc) : Num.Qc_ltb a b = false <-> (b <= a)%Q.
Proof.
  unfold Num.Qc_ltb. rewrite negb_false_iff. apply Qle_bool_iff.
Qed.

(** A width that passes the test of [update_bar_position] against a
    positive column width is positive. *)
Lemma passes_positive (c v : Num.num) :
  Num.lt (Num.px 0) c = true -> Num.truthy v = true -> Num.ge v c = true ->
  Num.lt (Num.px 0) v = true.
Proof.
  destruct c as [c | | |], v as [v | | |]; simpl; try congruence.
  rewrite !negb_true_iff, !Qc_ltb_lt, Qc_ltb_ge.
  intros Hc _ Hv. eapply Qlt_le_trans; eassumption.
Qed.

Lemma below_fails (c v : Num.num) : Num.lt v c = true -> Num.ge v c = false.
Proof.
  destruct c, v; simpl; try congruence; intros ->; reflexivity.
Qed.

(** The attributes after [update_bar_position], one by one. *)
Lemma x_update_bar_position o bar x' w' y' :
  x (update_bar_position o bar x' w' y')
  = match x' with
    | Some v => if Num.truthy v then update_attr (x bar) v else x bar
    | None => x bar
    end.
Proof.
  unfold update_bar_position.
  destruct x' as [v |]; [destruct (Num.truthy v) |];
    (destruct w' as [w |]; [destruct (Num.truthy w && Num.ge w (column_width o)) |]);
    (destruct y' as [u |]; [destruct (Num.truthy u) |]); reflexivity.
Qed.

Lemma width_update_bar_position o bar x' w' y' :
  width (update_bar_position o bar x' w' y')
  = match w' with
    | Some w => if Num.truthy w && Num.ge w (column_width o)
                then update_attr (width bar) w else width bar
    | None => width bar
    end.
Proof.
  unfold update_bar_position.
  destruct x' as [v |]; [destruct (Num.truthy v) |];
    (destruct w' as [w |]; [destruct (Num.truthy w && Num.ge w (column_width o)) |]);
    (destruct y' as [u |]; [destruct (Num.truthy u) |]); reflexivity.
Qed.

End PixelNumbers.

(** C9.  [update_bar_position] treats a zero [x], [y] or [width] as an
    absent one, so the attribute keeps its value, and the [x] of a bar is
    zero after the call only if it was zero before. *)
Theorem update_bar_position_zero_is_absent o bar :
  (forall w' y', update_bar_position o bar (Some (Num.px 0)) w' y'
                 = update_bar_position o bar None w' y'
                 /\ x (update_bar_position o bar (Some (Num.px 0)) w' y') = x bar)
  /\ (forall x' y', update_bar_position o bar x' (Some (Num.px 0)) y'
                    = update_bar_position o bar x' None y'
                    /\ width (update_bar_position o bar x' (Some (Num.px 0)) y') = width bar)
  /\ (forall x' w', update_bar_position o bar x' w' (Some (Num.px 0))
                    = update_bar_position o bar x' w' None
                    /\ y (update_bar_position o bar x' w' (Some (Num.px 0))) = y bar)
  /\ (forall x' w' y', x (update_bar_position o bar x' w' y') = Num.px 0 -> x bar = Num.px 0).
Proof.
  split; [| split; [| split]].
  - intros w' y'. split; [| rewrite x_update_bar_position, truthy_px_0; reflexivity].
    unfold update_bar_position. rewrite truthy_px_0. reflexivity.
  - intros x' y'. split; [| rewrite width_update_bar_position, truthy_px_0; reflexivity].
    unfold update_bar_position. rewrite truthy_px_0. reflexivity.
  - intros x' w'. split.
    + unfold update_bar_position. rewrite truthy_px_0. reflexivity.
    + unfold update_bar_position. rewrite truthy_px_0.
      destruct x' as [v |]; [destruct (Num.truthy v) |];
        (destruct w' as [w |]; [destruct (Num.truthy w && Num.ge w (column_width o)) |]);
        reflexivity.
  - intros x' w' y'. rewrite x_update_bar_position.
    destruct x' as [v |]; [| tauto].
    destruct (Num.truthy v) eqn:Tv; [| tauto].
    rewrite (update_attr_truthy _ _ Tv). intros ->. discriminate Tv.
Qed.

(** The theorem on a bar that is drawn at zero. *)
Lemma update_bar_position_zero_is_absent_witness :
  x (update_bar_position day_options (bar_at "A" None 0 76)
       (Some (Num.px 0)) (Some (Num.px 114)) None) = Num.px 0.
Proof.
  destruct (update_bar_position_zero_is_absent day_options (bar_at "A" None 0 76))
    as (_ & _ & _ & H).
  apply (H (Some (Num.px 0)) (Some (Num.px 114)) None).
  vm_compute. reflexivity.
Defined.




(** C5 (the code at the failing input).  A project drawn from 798 with
    width 152 over its children [A], from 798, and [B], from 874, each 76
    wide: when [A] is dragged one column to the left, the handler of the
    source module leaves the project at 798 with width 152, while that of
    the bundle moves it to the envelope, 760 with width 190.  In the picture
    of the claim, with the project drawn from 38 and children from 0 to 76
    and from 114 to 190 once [B] has been dragged one column to the left,
    the source module leaves the project at 38 with width 152 and the
    bundle at 38 with width 190, neither at 0 with width 190. *)
Theorem project_envelope_after_drag :
  setup_dependencies project_tasks = Some project_map
  /\ (fmap (M:=list) extent <$>
        mousemove 3 day_options project_map (drag_of 2 "B") (Num.px (-38)) (Num.px 0)
                  project_bars)
     = Some [ (Num.px 38, Num.px 152); (Num.px 0, Num.px 76); (Num.px 114, Num.px 76) ]
  /\ (fmap (M:=list) extent <$>
        mousemove_bundle 3 day_options project_map (drag_of 2 "B") (Num.px (-38)) (Num.px 0)
                         project_bars)
     = Some [ (Num.px 38, Num.px 190); (Num.px 0, Num.px 76); (Num.px 114, Num.px 76) ]
  /\ (fmap (M:=list) extent <$>
        mousemove 3 day_options project_map (drag_of 1 "A") (Num.px (-38)) (Num.px 0)
                  shifted_bars)
     = Some [ (Num.px 798, Num.px 152); (Num.px 760, Num.px 76); (Num.px 874, Num.px 76) ]
  /\ (fmap (M:=list) extent <$>
        mousemove_bundle 3 day_options project_map (drag_of 1 "A") (Num.px (-38)) (Num.px 0)
                         shifted_bars)
     = Some [ (Num.px 760, Num.px 190); (Num.px 760, Num.px 76); (Num.px 874, Num.px 76) ].
Proof. repeat split; compute_done. Qed.

(** ** Snapping *)

Section Snapping.

Lemma trunc_floor (x : Qc) : (0 <= x)%Qc -> Num.trunc x = Qfloor x.
Proof.
  intros H. unfold Num.trunc, Qfloor. destruct x as [[n d] c].
  unfold Qcle in H. change (this 0%Qc) with 0%Q in H.
  unfold Qle in H. cbn in H |- *.
  apply Z.quot_div_nonneg; lia.
Qed.

(** The floor of a quotient of rationals counts whole divisors. *)
Lemma floor_bounds (x y : Q) :
  (0 <= x)%Q -> (0 < y)%Q ->
  (0 <= Qfloor (x / y))%Z /\ (inject_Z (Qfloor (x / y)) * y <= x)%Q
  /\ (x < (inject_Z (Qfloor (x / y)) + 1) * y)%Q.
Proof.
  intros Hx Hy.
  assert (Hq : (0 <= x / y)%Q) by (apply Qle_shift_div_l; [exact Hy | lra]).
  assert (E : (x / y * y == x)%Q) by (field; lra).
  split; [| split].
  - change 0%Z with (Qfloor 0). apply Qfloor_resp_le. exact Hq.
  - pose proof (Qfloor_le (x / y)) as H.
    apply (Qmult_le_compat_r _ _ y) in H; [| lra].
    rewrite E in H. exact H.
  - pose proof (Qlt_floor (x / y)) as H.
    apply (Qmult_lt_compat_r _ _ y) in H; [| exact Hy].
    rewrite E in H. rewrite inject_Z_plus in H. exact H.
Qed.

(** Canonical rationals seen as rationals. *)
Lemma this_plus (a b : Qc) : (this (a + b)%Qc == this a + this b)%Q.
Proof. unfold Qcplus, Q2Qc. cbn [this]. apply Qred_correct. Qed.

Lemma this_opp (a : Qc) : (this (- a)%Qc == - this a)%Q.
Proof. unfold Qcopp, Q2Qc. cbn [this]. apply Qred_correct. Qed.

Lemma this_minus (a b : Qc) : (this (a - b)%Qc == this a - this b)%Q.
Proof. unfold Qcminus. rewrite this_plus, this_opp. reflexivity. Qed.

Lemma this_mult (a b : Qc) : (this (a * b)%Qc == this a * this b)%Q.
Proof. unfold Qcmult, Q2Qc. cbn [this]. apply Qred_correct. Qed.

Lemma this_div (a b : Qc) : (this (a / b)%Qc == this a / this b)%Q.
Proof. unfold Qcdiv, Qcmult, Qcinv, Q2Qc. cbn [this]. rewrite !Qred_correct. reflexivity. Qed.

Lemma this_Q2Qc (q : Q) : (this (Q2Qc q) == q)%Q.
Proof. apply Qred_correct. Qed.

Lemma positive_not_zero (q : Qc) : (0 < q)%Qc -> Num.is_zero q = false.
Proof.
  intros H. unfold Num.is_zero. destruct (Qeq_bool q 0) eqn:E; [| reflexivity].
  apply Qeq_bool_eq in E. unfold Qclt in H.
  change (this 0%Qc) with 0%Q in *. lra.
Qed.

(** The remainder of a non-negative dividend by a positive divisor. *)
Lemma rem_bounds (x y : Qc) :
  (0 <= x)%Qc -> (0 < y)%Qc ->
  exists (k : Z) (r : Qc),
    Num.rem (Num.Fin x) (Num.Fin y) = Num.Fin r
    /\ (0 <= k)%Z /\ (0 <= r)%Q /\ (r < y)%Q
    /\ (this x - this r == inject_Z k * this y)%Q.
Proof.
  intros Hx Hy.
  exists (Num.trunc (x / y)), (x - y * Q2Qc (inject_Z (Num.trunc (x / y))))%Qc.
  split; [unfold Num.rem; rewrite (positive_not_zero y Hy); reflexivity |].
  assert (Hq : (0 <= x / y)%Qc).
  { unfold Qcle, Qclt in *. rewrite this_div.
    change (this 0%Qc) with 0%Q in *.
    apply Qle_shift_div_l; [exact Hy | lra]. }
  unfold Qcle, Qclt in *. change (this 0%Qc) with 0%Q in *.
  destruct (floor_bounds x y Hx Hy) as (K0 & K1 & K2).
  assert (Ek : Num.trunc (x / y) = Qfloor (this x / this y)).
  { rewrite trunc_floor by exact Hq. apply Qfloor_comp. apply this_div. }
  rewrite Ek.
  split; [exact K0 |].
  rewrite !this_minus, !this_mult, !this_Q2Qc.
  split; [lra |]. split; [lra |]. ring.
Qed.

(** The three branches of [get_snap_position] are one computation, on the
    quantum [q] and its half [h]. *)
Lemma snap_core (dx q h : Qc) :
  (0 <= dx)%Qc -> (0 < q)%Qc -> (this h == this q / 2)%Q ->
  exists (p : Qc) (k : Z),
    Num.add (Num.sub (Num.Fin dx) (Num.rem (Num.Fin dx) (Num.Fin q)))
            (if Num.lt (Num.rem (Num.Fin dx) (Num.Fin q)) (Num.Fin h)
             then Num.px 0 else Num.Fin q)
    = Num.Fin p
    /\ (0 <= k)%Z
    /\ (this p == inject_Z k * this q)%Q
    /\ (this dx - this q / 2 < this p)%Q
    /\ (this p <= this dx + this q / 2)%Q.
Proof.
  intros Hx Hq Hh.
  destruct (rem_bounds dx q Hx Hq) as (k & r & -> & K0 & R0 & R1 & Rk).
  unfold Qcle, Qclt in *. change (this 0%Qc) with 0%Q in *.
  cbn [Num.lt Num.sub Num.neg Num.add].
  destruct (Num.Qc_ltb r h) eqn:L.
  - apply Qc_ltb_lt in L.
    eexists. exists k. split; [reflexivity |]. split; [exact K0 |].
    unfold Num.px. rewrite !this_plus, !this_opp, !this_Q2Qc.
    change (inject_Z 0) with 0%Q.
    repeat split; lra.
  - apply Qc_ltb_ge in L.
    eexists. exists (k + 1)%Z. split; [reflexivity |]. split; [lia |].
    rewrite !this_plus, !this_opp, inject_Z_plus.
    change (inject_Z 1) with 1%Q.
    split; [rewrite Qmult_plus_distr_l, <- Rk; ring |].
    assert (Hhalf : (this q / 2 == this q * (1 # 2))%Q) by field.
    split; lra.
Qed.

End Snapping.

(** C3, as the claim states it, fails at the midpoint it names: a drag of
    19 pixels under the Day scale snaps to 38, not to 0.  (It also fails to
    the left: a drag of 20 pixels to the left snaps to 0, not to -38.) *)
Lemma snap_midpoint_goes_up :
  get_snap_position day_options (Num.px 19) = Num.px 38
  /\ get_snap_position day_options (Num.px 19) <> Num.px 0
  /\ get_snap_position day_options (Num.px (-20)) = Num.px 0.
Proof. repeat split; compute_done. Qed.

(** C3 (as amended).  For a pixel delta that is not negative,
    [get_snap_position] returns the multiple of the quantum of the view
    mode that is nearest to the delta, the upper one at an exact midpoint;
    under the Day scale with a column of 38 pixels, 18 snaps to 0, and 19
    and 20 snap to 38. *)
Theorem get_snap_position_nearest :
  (forall o (cw dx : Qc),
      column_width o = Num.Fin cw -> (0 < cw)%Qc -> (0 <= dx)%Qc ->
      exists (q p : Qc) (k : Z),
        quantum o = Num.Fin q
        /\ get_snap_position o (Num.Fin dx) = Num.Fin p
        /\ (0 <= k)%Z
        /\ (this p == inject_Z k * this q)%Q
        /\ (this dx - this q / 2 < this p)%Q
        /\ (this p <= this dx + this q / 2)%Q)
  /\ get_snap_position day_options (Num.px 18) = Num.px 0
  /\ get_snap_position day_options (Num.px 19) = Num.px 38
  /\ get_snap_position day_options (Num.px 20) = Num.px 38.
Proof.
  split; [| repeat split; compute_done].
  intros o cw dx Hcw Hpos Hdx.
  unfold quantum, get_snap_position. rewrite Hcw.
  assert (D : forall z : Z, (0 < z)%Z ->
            Num.div (Num.Fin cw) (Num.px z) = Num.Fin (cw / Q2Qc (inject_Z z))).
  { intros z Hz. unfold Num.div, Num.px.
    rewrite positive_not_zero; [reflexivity |].
    unfold Qclt. rewrite !this_Q2Qc.
    change (inject_Z 0 < inject_Z z)%Q. rewrite <- Zlt_Qlt. exact Hz. }
  assert (P : forall z : Z, (0 < z)%Z -> (0 < cw / Q2Qc (inject_Z z))%Qc).
  { intros z Hz. unfold Qclt in *. rewrite this_div, !this_Q2Qc.
    change (this 0%Qc) with 0%Q in *.
    apply Qlt_shift_div_l;
      [change (inject_Z 0 < inject_Z z)%Q; rewrite <- Zlt_Qlt; exact Hz
      | rewrite Qmult_0_l; exact Hpos]. }
  assert (H2 : forall z : Z, (0 < z)%Z ->
            (this (cw / Q2Qc (inject_Z (2 * z)))%Qc == this (cw / Q2Qc (inject_Z z))%Qc / 2)%Q).
  { intros z Hz. rewrite !this_div, !this_Q2Qc, inject_Z_mult.
    assert (~ inject_Z z == 0)%Q.
    { intros C. unfold Qeq in C. cbn in C. lia. }
    change (inject_Z 2) with 2%Q. field. exact H. }
  destruct (view_is o "Week").
  - rewrite (D 7%Z), (D 14%Z) by lia.
    destruct (snap_core dx _ _ Hdx (P 7%Z ltac:(lia)) (H2 7%Z ltac:(lia)))
      as (p & k & E & Hk & Hm & Hlo & Hhi).
    exists (cw / Q2Qc (inject_Z 7))%Qc, p, k.
    split; [reflexivity |]. split; [exact E |]. split; [exact Hk |].
    split; [exact Hm |]. split; assumption.
  - destruct (view_is o "Month").
    + rewrite (D 30%Z), (D 60%Z) by lia.
      destruct (snap_core dx _ _ Hdx (P 30%Z ltac:(lia)) (H2 30%Z ltac:(lia)))
        as (p & k & E & Hk & Hm & Hlo & Hhi).
      exists (cw / Q2Qc (inject_Z 30))%Qc, p, k.
    split; [reflexivity |]. split; [exact E |]. split; [exact Hk |].
    split; [exact Hm |]. split; assumption.
    + rewrite (D 2%Z) by lia.
      assert (Hh : (this (cw / Q2Qc (inject_Z 2))%Qc == this cw / 2)%Q)
        by (rewrite this_div, this_Q2Qc; reflexivity).
      destruct (snap_core dx cw _ Hdx Hpos Hh) as (p & k & E & Hk & Hm & Hlo & Hhi).
      exists cw, p, k.
    split; [reflexivity |]. split; [exact E |]. split; [exact Hk |].
    split; [exact Hm |]. split; assumption.
Qed.

(** The theorem on a drag of 57 pixels, a column and a half, under the Day
    scale. *)
Lemma get_snap_position_nearest_witness :
  exists (q p : Qc) (k : Z),
    quantum day_options = Num.Fin q
    /\ get_snap_position day_options (Num.Fin (Q2Qc 57)) = Num.Fin p
    /\ (0 <= k)%Z
    /\ (this p == inject_Z k * this q)%Q
    /\ (this (Q2Qc 57) - this q / 2 < this p)%Q
    /\ (this p <= this (Q2Qc 57) + this q / 2)%Q.
Proof.
  destruct get_snap_position_nearest as (H & _).
  apply (H day_options (Q2Qc 38) (Q2Qc 57)).
  - reflexivity.
  - vm_compute. reflexivity.
  - vm_compute. intros C. discriminate C.
Defined.

(** ** Arrows *)

Section ArrowLemmas.

Lemma bar_of_set_dependencies visible_bars d t :
  bar_of visible_bars (set_dependencies d t) = bar_of visible_bars t.
Proof. reflexivity. Qed.

(** The arrows of a task depend on the task only through its bar. *)
Lemma arrows_of_same_bar tasks visible_bars t t' ids :
  bar_of visible_bars t' = bar_of visible_bars t ->
  arrows_of tasks visible_bars t' ids = arrows_of tasks visible_bars t ids.
Proof.
  intros Hb. induction ids as [| i ids IH]; cbn; [reflexivity |].
  destruct (get_task tasks i); [| exact IH].
  rewrite Hb, IH. reflexivity.
Qed.

(** An id that resolves to no task adds nothing to the arrows. *)
Lemma arrows_of_unresolved tasks visible_bars t l1 d l2 :
  get_task tasks d = None ->
  arrows_of tasks visible_bars t (l1 ++ d :: l2) = arrows_of tasks visible_bars t (l1 ++ l2).
Proof.
  intros Hd. induction l1 as [| i l1 IH]; cbn.
  - rewrite Hd. reflexivity.
  - destruct (get_task tasks i); [| exact IH]. rewrite IH. reflexivity.
Qed.

Lemma arrows_of_drawn tasks visible_bars t to ids :
  bar_of visible_bars t = Some to ->
  (forall i dependency, i ∈ ids -> get_task tasks i = Some dependency ->
                        is_Some (bar_of visible_bars dependency)) ->
  arrows_of tasks visible_bars t ids
  = Some (omap (fun i => dependency ← get_task tasks i;
                         from ← bar_of visible_bars dependency;
                         Some (mkArrow from to)) ids).
Proof.
  intros Hto. induction ids as [| i ids IH]; intros Hdeps; cbn; [reflexivity |].
  assert (Hrest : forall j dependency, j ∈ ids -> get_task tasks j = Some dependency ->
                                      is_Some (bar_of visible_bars dependency)).
  { intros j dep Hj. apply Hdeps. right. exact Hj. }
  destruct (get_task tasks i) as [dep |] eqn:Hi; cbn.
  - destruct (Hdeps i dep ltac:(left) Hi) as [from Hfrom].
    rewrite Hfrom, Hto. cbn. rewrite (IH Hrest). reflexivity.
  - apply IH. exact Hrest.
Qed.

Lemma make_arrows_foldl tasks visible_bars visible_tasks :
  forall acc,
    (forall task, task ∈ visible_tasks ->
       task_arrows tasks visible_bars task = Some (resolved_arrows tasks visible_bars task)) ->
    foldl (fun acc task =>
             all ← acc;
             arrows ← task_arrows tasks visible_bars task;
             Some (all ++ arrows))
          (Some acc) visible_tasks
    = Some (acc ++ concat (resolved_arrows tasks visible_bars <$> visible_tasks)).
Proof.
  induction visible_tasks as [| t rest IH]; intros acc H; cbn.
  - rewrite app_nil_r. reflexivity.
  - rewrite (H t ltac:(left)). cbn. rewrite IH.
    + rewrite app_assoc. reflexivity.
    + intros task Ht. apply H. right. exact Ht.
Qed.

End ArrowLemmas.

(** C7.  [make_arrows] passes over a dependency id that resolves to no
    task: the result, arrows or error, is what it is without that id in the
    list; and on a drawn chart no error is raised and the arrows are exactly
    those of the dependencies that resolve, task by task. *)
Theorem make_arrows_skips_unresolved tasks visible_bars :
  (forall before task after l1 d l2,
      dependencies task = DepsArray (l1 ++ d :: l2) ->
      get_task tasks d = None ->
      make_arrows tasks (before ++ task :: after) visible_bars
      = make_arrows tasks
          (before ++ set_dependencies (DepsArray (l1 ++ l2)) task :: after) visible_bars)
  /\ (forall visible_tasks,
        drawn tasks visible_tasks visible_bars ->
        make_arrows tasks visible_tasks visible_bars
        = Some (concat (resolved_arrows tasks visible_bars <$> visible_tasks))).
Proof.
  split.
  - intros before task after l1 d l2 Hdeps Hd.
    unfold make_arrows. rewrite !foldl_app. cbn [foldl].
    replace (task_arrows tasks visible_bars
               (set_dependencies (DepsArray (l1 ++ l2)) task))
      with (task_arrows tasks visible_bars task); [reflexivity |].
    unfold task_arrows. cbn. rewrite Hdeps. cbn.
    rewrite arrows_of_unresolved by exact Hd.
    symmetry. apply arrows_of_same_bar. reflexivity.
  - intros visible_tasks Hdrawn. unfold make_arrows.
    rewrite make_arrows_foldl; [reflexivity |].
    intros task Ht.
    destruct (Hdrawn task Ht) as (ids & to & Hids & Hto & Hdeps).
    unfold task_arrows, resolved_arrows. rewrite Hids, Hto. cbn.
    apply arrows_of_drawn; assumption.
Qed.

(** The theorem on two drawn tasks, one of them with a dependency that no
    task has. *)
Lemma make_arrows_skips_unresolved_witness :
  make_arrows drawn_tasks [drawn_A; drawn_B] drawn_bars
  = Some [ mkArrow (bar_at "A" None 76 76) (bar_at "B" None 190 76) ]
  /\ make_arrows drawn_tasks
       [drawn_A; set_dependencies (DepsArray ["A"%string]) drawn_B] drawn_bars
     = make_arrows drawn_tasks [drawn_A; drawn_B] drawn_bars.
Proof.
  destruct (make_arrows_skips_unresolved drawn_tasks drawn_bars) as (H1 & H2).
  split.
  - rewrite (H2 [drawn_A; drawn_B]); [reflexivity |].
    intros task Ht. apply list_elem_of_In in Ht.
    destruct Ht as [<- | [<- | []]].
    + exists [], (bar_at "A" None 76 76). repeat split.
      intros i dep Hi. apply list_elem_of_In in Hi. destruct Hi.
    + exists ["ghost"%string; "A"%string], (bar_at "B" None 190 76). repeat split.
      intros i dep Hi Hdep. apply list_elem_of_In in Hi.
      destruct Hi as [<- | [<- | []]]; [discriminate Hdep |].
      injection Hdep as <-. exists (bar_at "A" None 76 76). reflexivity.
  - symmetry.
    exact (H1 [drawn_A] drawn_B [] [] "ghost"%string ["A"%string] eq_refl eq_refl).
Defined.

(** ** Dates as text *)

Section Strings.

Lemma digit_cases c :
  is_digit c = true ->
  c = "0"%char \/ c = "1"%char \/ c = "2"%char \/ c = "3"%char \/ c = "4"%char
  \/ c = "5"%char \/ c = "6"%char \/ c = "7"%char \/ c = "8"%char \/ c = "9"%char.
Proof.
  destruct c as [[] [] [] [] [] [] [] []]; cbv; intros H; try discriminate H; tauto.
Qed.

Lemma digit_value_range c : is_digit c = true -> 0 <= digit_value c <= 9.
Proof.
  intros H. destruct (digit_cases c H) as [-> | [-> | [-> | [-> | [-> | [-> | [-> | [-> | [-> | ->]]]]]]]]];
    cbv; split; discriminate.
Qed.

Lemma digit_char_value c : is_digit c = true -> digit_char (digit_value c) = c.
Proof.
  intros H. destruct (digit_cases c H) as [-> | [-> | [-> | [-> | [-> | [-> | [-> | [-> | [-> | ->]]]]]]]]];
    reflexivity.
Qed.

Lemma digit_not_separator c :
  is_digit c = true ->
  is_char " " c = false /\ is_char "-" c = false /\ is_space c = false.
Proof.
  intros H. destruct (digit_cases c H) as [-> | [-> | [-> | [-> | [-> | [-> | [-> | [-> | [-> | ->]]]]]]]]];
    repeat split.
Qed.

Lemma parseInt_digit_first a r :
  is_digit a = true ->
  parseInt (String a r) = match read_digits (String a r) 0 0 with
                          | (_, O) => None
                          | (v, S _) => Some (1 * v)
                          end.
Proof.
  intros H. destruct (digit_cases a H) as [-> | [-> | [-> | [-> | [-> | [-> | [-> | [-> | [-> | ->]]]]]]]]];
    reflexivity.
Qed.

Lemma parseInt_2 a b :
  is_digit a = true -> is_digit b = true ->
  parseInt (String a (String b EmptyString)) = Some (number_of_2 a b).
Proof.
  intros Ha Hb. rewrite parseInt_digit_first by exact Ha.
  cbn [read_digits]. rewrite Ha, Hb. unfold number_of_2. f_equal. lia.
Qed.

Lemma parseInt_4 a b c d :
  is_digit a = true -> is_digit b = true -> is_digit c = true -> is_digit d = true ->
  parseInt (String a (String b (String c (String d EmptyString)))) = Some (number_of_4 a b c d).
Proof.
  intros Ha Hb Hc Hd. rewrite parseInt_digit_first by exact Ha.
  cbn [read_digits]. rewrite Ha, Hb, Hc, Hd. unfold number_of_4. f_equal. lia.
Qed.

Lemma digits_of_step f q r acc :
  0 <= r < 10 -> 1 <= q ->
  digits_of (S f) (10 * q + r) acc = digits_of f q (String (digit_char r) acc).
Proof.
  intros Hr Hq. cbn [digits_of].
  replace ((10 * q + r) mod 10) with r by (Z.to_euclidean_division_equations; lia).
  replace ((10 * q + r) / 10) with q by (Z.to_euclidean_division_equations; lia).
  destruct (Z.ltb_spec (10 * q + r) 10); [lia | reflexivity].
Qed.

Lemma digits_of_last f r acc :
  0 <= r < 10 -> digits_of (S f) r acc = String (digit_char r) acc.
Proof.
  intros Hr. cbn [digits_of].
  rewrite (Z.mod_small r 10) by lia.
  destruct (Z.ltb_spec r 10); [reflexivity | lia].
Qed.

Lemma of_number_4 a b c d :
  is_digit a = true -> is_digit b = true -> is_digit c = true -> is_digit d = true ->
  1000 <= number_of_4 a b c d ->
  of_number (Some (number_of_4 a b c d)) = String a (String b (String c (String d EmptyString))).
Proof.
  intros Ha Hb Hc Hd Hy.
  pose proof (digit_value_range a Ha). pose proof (digit_value_range b Hb).
  pose proof (digit_value_range c Hc). pose proof (digit_value_range d Hd).
  unfold of_number.
  destruct (Z.ltb_spec (number_of_4 a b c d) 0); [lia |].
  assert (Hl : 9 <= Z.log2 (number_of_4 a b c d)).
  { change 9 with (Z.log2 512). apply Z.log2_le_mono. lia. }
  destruct (Z.to_nat (Z.log2 (number_of_4 a b c d))) as [| [| [| f]]] eqn:E; try lia.
  unfold number_of_4 in *.
  rewrite digits_of_step by lia.
  rewrite digits_of_step by lia.
  rewrite digits_of_step by lia.
  rewrite digits_of_last by lia.
  rewrite !digit_char_value by assumption. reflexivity.
Qed.

Lemma pad_2 a b :
  is_digit a = true -> is_digit b = true ->
  padStart (of_number (Some (number_of_2 a b))) 2 "0" = String a (String b EmptyString).
Proof.
  intros Ha Hb.
  destruct (digit_cases a Ha) as [-> | [-> | [-> | [-> | [-> | [-> | [-> | [-> | [-> | ->]]]]]]]]];
    destruct (digit_cases b Hb) as [-> | [-> | [-> | [-> | [-> | [-> | [-> | [-> | [-> | ->]]]]]]]]];
    reflexivity.
Qed.

Lemma pad_4 a b c d :
  is_digit a = true -> is_digit b = true -> is_digit c = true -> is_digit d = true ->
  1000 <= number_of_4 a b c d ->
  padStart (of_number (Some (number_of_4 a b c d))) 2 "0"
  = String a (String b (String c (String d EmptyString))).
Proof.
  intros Ha Hb Hc Hd Hy. rewrite of_number_4 by assumption. reflexivity.
Qed.

Lemma split_cons_no sep c r :
  sep c = false ->
  split sep (String c r) = match split sep r with
                           | w :: ws => String c w :: ws
                           | [] => [String c EmptyString]
                           end.
Proof. intros H. cbn [split]. rewrite H. reflexivity. Qed.

Lemma split_cons_sep sep c r :
  sep c = true -> split sep (String c r) = EmptyString :: split sep r.
Proof. intros H. cbn [split]. rewrite H. reflexivity. Qed.

Lemma minus_Some a b : minus (Some a) (Some b) = Some (a - b).
Proof. reflexivity. Qed.

(** Reading a date of ten characters. *)
Lemma parse_string_iso y1 y2 y3 y4 m1 m2 d1 d2 :
  is_digit y1 = true -> is_digit y2 = true -> is_digit y3 = true -> is_digit y4 = true ->
  is_digit m1 = true -> is_digit m2 = true -> is_digit d1 = true -> is_digit d2 = true ->
  parse_string
    (String y1 (String y2 (String y3 (String y4 (String "-"
       (String m1 (String m2 (String "-" (String d1 (String d2 EmptyString))))))))))
  = new_Date [ Some (number_of_4 y1 y2 y3 y4); Some (number_of_2 m1 m2 - 1);
               Some (number_of_2 d1 d2) ].
Proof.
  intros Hy1 Hy2 Hy3 Hy4 Hm1 Hm2 Hd1 Hd2.
  unfold parse_string.
  assert (Hsp : split (is_char " ")
                  (String y1 (String y2 (String y3 (String y4 (String "-"
                     (String m1 (String m2 (String "-" (String d1 (String d2 EmptyString))))))))))
                = [String y1 (String y2 (String y3 (String y4 (String "-"
                     (String m1 (String m2 (String "-" (String d1 (String d2 EmptyString)))))))))]).
  { repeat (rewrite split_cons_no by (reflexivity || (apply digit_not_separator; assumption))).
    reflexivity. }
  rewrite Hsp. cbn [nth lookup list_lookup].
  assert (Hda : split (is_char "-")
                  (String y1 (String y2 (String y3 (String y4 (String "-"
                     (String m1 (String m2 (String "-" (String d1 (String d2 EmptyString))))))))))
                = [ String y1 (String y2 (String y3 (String y4 EmptyString)));
                    String m1 (String m2 EmptyString); String d1 (String d2 EmptyString) ]).
  { repeat first [ rewrite split_cons_sep by reflexivity
                 | rewrite split_cons_no by (apply digit_not_separator; assumption) ].
    reflexivity. }
  rewrite Hda. cbn [fmap list_fmap].
  rewrite parseInt_4, !parseInt_2 by assumption.
  cbn [month_zero_indexed]. rewrite minus_Some. reflexivity.
Qed.

End Strings.

Section Civil.

#[local] Arguments leap_year : simpl never.

Lemma DaysInYear_leap y : DaysInYear y = if leap_year y then 366 else 365.
Proof.
  unfold DaysInYear, leap_year.
  destruct (Z.eqb_spec (y mod 4) 0), (Z.eqb_spec (y mod 100) 0),
    (Z.eqb_spec (y mod 400) 0); cbn; try reflexivity;
    exfalso; Z.to_euclidean_division_equations; lia.
Qed.

Lemma whole_day_fields day :
  Day (day * msPerDay) = day
  /\ HourFromTime (day * msPerDay) = 0 /\ MinFromTime (day * msPerDay) = 0
  /\ SecFromTime (day * msPerDay) = 0 /\ msFromTime (day * msPerDay) = 0.
Proof.
  unfold Day, HourFromTime, MinFromTime, SecFromTime, msFromTime,
    msPerDay, msPerHour, msPerMinute, msPerSecond.
  repeat split; Z.to_euclidean_division_equations; lia.
Qed.

(** The date made of a year, a month and a day of that month has them as
    its fields. *)
Lemma new_Date_civil Y M D :
  1000 <= Y <= 9999 -> 1 <= M <= 12 -> 1 <= D <= days_in Y M ->
  exists t,
    new_Date [Some Y; Some (M - 1); Some D] = TimeValue t
    /\ get_date_values (TimeValue t)
       = [Some Y; Some (M - 1); Some D; Some 0; Some 0; Some 0; Some 0].
Proof.
  intros HY HM HD.
  set (l := if leap_year Y then 1 else 0).
  set (day := DayFromYear Y + month_start l (M - 1) + D - 1).
  exists (day * msPerDay).
  assert (Hl : (if DaysInYear Y =? 366 then 1 else 0) = l).
  { rewrite DaysInYear_leap. subst l. destruct (leap_year Y); reflexivity. }
  assert (Hdw : 0 <= month_start l (M - 1) + D - 1 < DaysInYear Y
                /\ (let d := month_start l (M - 1) + D - 1 in
               if d <? 31 then 0 else if d <? 59 + l then 1 else if d <? 90 + l then 2
               else if d <? 120 + l then 3 else if d <? 151 + l then 4
               else if d <? 181 + l then 5 else if d <? 212 + l then 6
               else if d <? 243 + l then 7 else if d <? 273 + l then 8
               else if d <? 304 + l then 9 else if d <? 334 + l then 10 else 11) = M - 1).
  { rewrite DaysInYear_leap. unfold days_in in HD. subst l.
    assert (C : M = 1 \/ M = 2 \/ M = 3 \/ M = 4 \/ M = 5 \/ M = 6 \/ M = 7 \/ M = 8
                \/ M = 9 \/ M = 10 \/ M = 11 \/ M = 12) by lia.
    destruct C as [-> | [-> | [-> | [-> | [-> | [-> | [-> | [-> | [-> | [-> | [-> | ->]]]]]]]]]]];
      cbn in HD |- *; destruct (leap_year Y); cbn in HD |- *;
      repeat match goal with
        | |- context [month_start ?a ?b] =>
            let v := eval vm_compute in (month_start a b) in
            change (month_start a b) with v
        end;
      (split; [lia |]);
      repeat match goal with
        | |- context [if ?a <? ?b then _ else _] => destruct (Z.ltb_spec a b); try lia
        end. }
  destruct Hdw as [Hdw HMo].
  assert (Hday : MakeDay Y (M - 1) D = day).
  { unfold MakeDay.
    rewrite (Z.div_small (M - 1) 12), (Z.mod_small (M - 1) 12) by lia.
    rewrite Z.add_0_r, Hl. reflexivity. }
  assert (Hyear : YearFromDay day = Y).
  { apply YearFromDay_unique. rewrite DayFromYear_succ. subst day. lia. }
  destruct (whole_day_fields day) as (F0 & F1 & F2 & F3 & F4).
  assert (Hclip : TimeClip (day * msPerDay) = TimeValue (day * msPerDay)).
  { unfold TimeClip.
    pose proof (DayFromYear_mono 1000 Y ltac:(lia)) as L1.
    pose proof (DayFromYear_mono Y 9999 ltac:(lia)) as L2.
    change (DayFromYear 1000) with (-354285) in L1.
    change (DayFromYear 9999) with 2932532 in L2.
    pose proof (DaysInYear_cases Y).
    destruct (Z.leb_spec (Z.abs (day * msPerDay)) 8640000000000000); [reflexivity |].
    unfold msPerDay in *. subst day. lia. }
  split.
  - unfold new_Date. cbn [nth].
    replace ((0 <=? Y) && (Y <=? 99)) with false by (symmetry; apply andb_false_iff; lia).
    rewrite Hday. unfold MakeDate, MakeTime. rewrite !Z.mul_0_l, !Z.add_0_r. exact Hclip.
  - unfold get_date_values, getFullYear, getMonth, getDate, getHours, getMinutes,
      getSeconds, getMilliseconds, field.
    rewrite F1, F2, F3, F4.
    assert (HY' : YearFromTime (day * msPerDay) = Y) by (unfold YearFromTime; rewrite F0; exact Hyear).
    assert (HL' : InLeapYear (day * msPerDay) = l) by (unfold InLeapYear; rewrite HY'; exact Hl).
    assert (HW' : DayWithinYear (day * msPerDay) = month_start l (M - 1) + D - 1)
      by (unfold DayWithinYear; rewrite HY', F0; subst day; lia).
    assert (HM' : MonthFromTime (day * msPerDay) = M - 1)
      by (unfold MonthFromTime; rewrite HW', HL'; exact HMo).
    assert (HD' : DateFromTime (day * msPerDay) = D)
      by (unfold DateFromTime; rewrite HW', HL', HM'; lia).
    rewrite HY', HM', HD'. reflexivity.
Qed.

End Civil.

Section RoundTrip.

#[local] Arguments padStart : simpl never.
#[local] Arguments of_number : simpl never.
#[local] Arguments number_of_2 : simpl never.
#[local] Arguments number_of_4 : simpl never.

Lemma to_string_civil t Y M D :
  get_date_values (TimeValue t)
  = [Some Y; Some (M - 1); Some D; Some 0; Some 0; Some 0; Some 0] ->
  to_string (Some (TimeValue t)) false
  = Some ((padStart (of_number (Some Y)) 2 "0" +:+ "-"
           +:+ padStart (of_number (Some M)) 2 "0" +:+ "-"
           +:+ padStart (of_number (Some D)) 2 "0") +:+ EmptyString).
Proof.
  intros H. unfold to_string. rewrite H. cbn.
  replace (M - 1 + 1) with M by lia. reflexivity.
Qed.

End RoundTrip.

(** C10 (as amended).  For every zero-padded [YYYY-MM-DD] that names a
    day of the Gregorian calendar in a year from 1000 on, [to_string] of
    [parse] of the string, without the time, is the string. *)
Theorem to_string_parse_iso s :
  is_iso_date s = true -> 1000 <= iso_year s ->
  to_string (parse (RawString s)) false = Some s.
Proof.
  intros H Hy.
  destruct s as [| y1 [| y2 [| y3 [| y4 [| s1 [| m1 [| m2 [| s2 [| d1 [| d2 [| ? ?]]]]]]]]]]];
    try discriminate H.
  cbn [is_iso_date] in H. cbn [iso_year] in Hy.
  do 13 (apply andb_prop in H; destruct H as [H ?]).
  repeat match goal with
    | E : Ascii.eqb _ _ = true |- _ => apply Ascii.eqb_eq in E; subst
    | E : (_ <=? _) = true |- _ => apply Z.leb_le in E
    end.
  cbn [parse]. rewrite parse_string_iso by assumption.
  assert (Hy9 : number_of_4 y1 y2 y3 y4 <= 9999).
  { pose proof (digit_value_range y1 ltac:(assumption)).
    pose proof (digit_value_range y2 ltac:(assumption)).
    pose proof (digit_value_range y3 ltac:(assumption)).
    pose proof (digit_value_range y4 ltac:(assumption)).
    unfold number_of_4. lia. }
  destruct (new_Date_civil (number_of_4 y1 y2 y3 y4) (number_of_2 m1 m2) (number_of_2 d1 d2))
    as (t & -> & Hv); [lia | lia | lia |].
  rewrite (to_string_civil _ _ _ _ Hv).
  rewrite pad_4, !pad_2 by assumption. reflexivity.
Qed.

(** The theorem on the leap day of 2024. *)
Lemma to_string_parse_iso_witness :
  to_string (parse (RawString "2024-02-29")) false = Some "2024-02-29"%string.
Proof.
  apply to_string_parse_iso.
  - vm_compute. reflexivity.
  - vm_compute. intros C. discriminate C.
Defined.

(** C10, as the claim states it, fails before the year 1000: the
    constructor reads the year 50 as 1950, and [to_string] pads a year to
    two digits only. *)
Lemma to_string_parse_early_years :
  is_iso_date "0050-01-01" = true
  /\ to_string (parse (RawString "0050-01-01")) false = Some "1950-01-01"%string
  /\ is_iso_date "0999-12-31" = true
  /\ to_string (parse (RawString "0999-12-31")) false = Some "999-12-31"%string
  /\ to_string (parse (RawString "0050-01-01")) false <> Some "0050-01-01"%string.
Proof.
  repeat split; try (vm_compute; reflexivity).
  vm_compute. intros C. discriminate C.
Qed.

(** * Further properties of the code *)

Section MoreCalendar.

Lemma constructible_year t : constructible t -> 100 <= YearFromTime t.
Proof.
  unfold constructible, YearFromTime. intros Hr.
  set (d := Day t) in *.
  assert (Hd : DayFromYear 100 <= d).
  { subst d. unfold Day, msPerDay in *.
    change (DayFromYear 100) with (-683003) in *.
    Z.to_euclidean_division_equations; lia. }
  pose proof (YearFromDay_spec d) as [_ Hs].
  destruct (Z.le_gt_cases 100 (YearFromDay d)) as [? | Hlt]; [assumption |].
  pose proof (DayFromYear_mono (YearFromDay d + 1) 100). lia.
Qed.

Lemma constructible_clip t : constructible t -> TimeClip t = TimeValue t.
Proof.
  unfold constructible, TimeClip. intros Hr.
  change (DayFromYear 100) with (-683003) in *. unfold msPerDay in *.
  destruct (Z.leb_spec (Z.abs t) 8640000000000000); [reflexivity | lia].
Qed.

Lemma MakeTime_all t a b c d :
  MakeTime (HourFromTime t + a) (MinFromTime t + b) (SecFromTime t + c) (msFromTime t + d)
  = TimeWithinDay t + a * msPerHour + b * msPerMinute + c * msPerSecond + d.
Proof.
  unfold MakeTime, HourFromTime, MinFromTime, SecFromTime, msFromTime, TimeWithinDay,
    msPerHour, msPerMinute, msPerSecond, msPerDay.
  Z.to_euclidean_division_equations; lia.
Qed.

(** The constructor on the fields of a time value, each moved by a fixed
    amount. *)
Lemma new_Date_fields t k a b c d :
  ~ (0 <= YearFromTime t <= 99) ->
  new_Date [ Some (YearFromTime t); Some (MonthFromTime t); Some (DateFromTime t + k);
             Some (HourFromTime t + a); Some (MinFromTime t + b);
             Some (SecFromTime t + c); Some (msFromTime t + d) ]
  = TimeClip (t + k * msPerDay + a * msPerHour + b * msPerMinute + c * msPerSecond + d).
Proof.
  intros Hy. unfold new_Date. cbn [nth].
  replace ((0 <=? YearFromTime t) && (YearFromTime t <=? 99)) with false
    by (symmetry; apply andb_false_iff; lia).
  f_equal. unfold MakeDate. rewrite MakeDay_fields, MakeTime_all.
  pose proof (Day_TimeWithinDay t). lia.
Qed.

Lemma add_fixed t q scale :
  fixed_scale scale = true -> ~ (0 <= YearFromTime t <= 99) ->
  add (TimeValue t) q scale = TimeClip (t + q * scale_ms scale).
Proof.
  intros Hs Hy.
  destruct scale; try discriminate Hs; unfold add; cbn [Scale_eqb getFullYear getMonth getDate
    getHours getMinutes getSeconds getMilliseconds field plus];
    rewrite (Z.add_0_r (YearFromTime t)), (Z.add_0_r (MonthFromTime t)).
  - rewrite (new_Date_fields t q 0 0 0 0 Hy). f_equal. cbn [scale_ms]. lia.
  - rewrite (new_Date_fields t 0 q 0 0 0 Hy). f_equal. cbn [scale_ms]. lia.
  - rewrite (new_Date_fields t 0 0 q 0 0 Hy). f_equal. cbn [scale_ms]. lia.
  - rewrite (new_Date_fields t 0 0 0 q 0 Hy). f_equal. cbn [scale_ms]. lia.
  - rewrite (new_Date_fields t 0 0 0 0 q Hy). f_equal. cbn [scale_ms]. lia.
Qed.

End MoreCalendar.

Lemma clone_value t :
  constructible t -> clone (TimeValue t) = TimeValue t.
Proof.
  intros Hr. unfold clone, get_date_values.
  cbn [getFullYear getMonth getDate getHours getMinutes getSeconds getMilliseconds field].
  pose proof (constructible_year t Hr) as Hy.
  pose proof (new_Date_fields t 0 0 0 0 0 ltac:(lia)) as H.
  rewrite !Z.add_0_r in H. rewrite H.
  replace (t + 0 * msPerDay + 0 * msPerHour + 0 * msPerMinute + 0 * msPerSecond) with t by lia.
  apply constructible_clip, Hr.
Qed.

(** X1.  On a date from the year 100 on, [add] with a scale from the
    millisecond to the day is addition on time values, as long as the
    result is a time value the platform represents, and [diff] in that
    scale between the result and the date gives the quantity back. *)
Theorem diff_add_fixed t q scale :
  fixed_scale scale = true -> constructible t ->
  Z.abs (t + q * scale_ms scale) <= 8640000000000000 ->
  add (TimeValue t) q scale = TimeValue (t + q * scale_ms scale)
  /\ diff (Some (add (TimeValue t) q scale)) (Some (TimeValue t)) scale = Some q.
Proof.
  intros Hs Hr Hc.
  pose proof (constructible_year t Hr) as Hy.
  assert (E : add (TimeValue t) q scale = TimeValue (t + q * scale_ms scale)).
  { rewrite add_fixed by (assumption || lia). unfold TimeClip.
    destruct (Z.leb_spec (Z.abs (t + q * scale_ms scale)) 8640000000000000); [reflexivity | lia]. }
  split; [exact E |].
  rewrite E. unfold diff, date_minus. f_equal.
  destruct scale; try discriminate Hs; cbn [scale_ms];
    unfold msPerDay, msPerHour, msPerMinute, msPerSecond;
    Z.to_euclidean_division_equations; lia.
Qed.

(** The theorem on three days from noon of 2024-01-15. *)
Lemma diff_add_fixed_witness :
  add (TimeValue some_instant) 3 DAY = TimeValue (some_instant + 3 * scale_ms DAY)
  /\ diff (Some (add (TimeValue some_instant) 3 DAY)) (Some (TimeValue some_instant)) DAY
     = Some 3.
Proof.
  apply (diff_add_fixed some_instant 3 DAY).
  - reflexivity.
  - vm_compute. split; intros C; discriminate C.
  - vm_compute. intros C. discriminate C.
Defined.

Lemma month_cases m :
  0 <= m <= 11 ->
  m = 0 \/ m = 1 \/ m = 2 \/ m = 3 \/ m = 4 \/ m = 5 \/ m = 6 \/ m = 7 \/ m = 8
  \/ m = 9 \/ m = 10 \/ m = 11.
Proof. lia. Qed.

Ltac months m H :=
  destruct (month_cases m H)
    as [-> | [-> | [-> | [-> | [-> | [-> | [-> | [-> | [-> | [-> | [-> | ->]]]]]]]]]]].

Ltac eval_month_start :=
  repeat match goal with
    | |- context [month_start ?a ?b] =>
        let v := eval vm_compute in (month_start a b) in
        change (month_start a b) with v
    end.

Ltac eval_rhs :=
  match goal with
  | |- _ = ?r => let v := eval vm_compute in r in change r with v
  end.

Section Months.

#[local] Arguments leap_year : simpl never.

Lemma leap_flag y : (if DaysInYear y =? 366 then 1 else 0) = if leap_year y then 1 else 0.
Proof. rewrite DaysInYear_leap. destruct (leap_year y); reflexivity. Qed.

(** The first day of a month is as many days after the first day of the
    month before as that month has. *)
Lemma MakeDay_next_month y m d :
  MakeDay y (m + 1) d - MakeDay y m d = days_in (y + m / 12) (m mod 12 + 1).
Proof.
  unfold MakeDay. rewrite !leap_flag.
  pose proof (Z.mod_pos_bound m 12 ltac:(lia)) as Hm.
  destruct (Z.eq_dec (m mod 12) 11) as [E | E].
  - assert (E1 : (m + 1) / 12 = m / 12 + 1) by (Z.to_euclidean_division_equations; lia).
    assert (E2 : (m + 1) mod 12 = 0) by (Z.to_euclidean_division_equations; lia).
    rewrite E1, E2, E. rewrite Z.add_assoc, DayFromYear_succ, DaysInYear_leap.
    unfold days_in. cbn [Z.eqb Z.add Pos.eqb orb Pos.add Pos.succ].
    destruct (leap_year (y + m / 12)), (leap_year (y + m / 12 + 1)); eval_month_start;
      eval_rhs; lia.
  - assert (E1 : (m + 1) / 12 = m / 12) by (Z.to_euclidean_division_equations; lia).
    assert (E2 : (m + 1) mod 12 = m mod 12 + 1) by (Z.to_euclidean_division_equations; lia).
    rewrite E1, E2. set (mn := m mod 12) in *. clearbody mn.
    unfold days_in.
    assert (Hmn : 0 <= mn <= 11) by lia.
    months mn Hmn; try lia;
      destruct (leap_year (y + m / 12)); eval_month_start; eval_rhs; lia.
Qed.

Lemma days_in_bounds y m : 28 <= days_in y m <= 31.
Proof.
  unfold days_in.
  repeat match goal with |- context [if ?c then _ else _] => destruct c end; lia.
Qed.

Lemma MakeDay_months y m d q :
  0 <= q -> 28 * q <= MakeDay y (m + q) d - MakeDay y m d <= 31 * q.
Proof.
  intros Hq. revert q Hq. apply natlike_ind.
  - rewrite Z.add_0_r. lia.
  - intros q Hq IH.
    pose proof (MakeDay_next_month y (m + q) d) as S.
    pose proof (days_in_bounds (y + (m + q) / 12) ((m + q) mod 12 + 1)).
    replace (m + Z.succ q) with (m + q + 1) by lia. lia.
Qed.

(** The fields of a day of the civil calendar at a time of day. *)
Lemma civil_fields Y M D tod :
  0 <= M <= 11 -> 1 <= D <= days_in Y (M + 1) -> 0 <= tod < msPerDay ->
  let t := (DayFromYear Y + month_start (if leap_year Y then 1 else 0) M + D - 1) * msPerDay + tod in
  YearFromTime t = Y /\ MonthFromTime t = M /\ DateFromTime t = D
  /\ TimeWithinDay t = tod.
Proof.
  intros HM HD Htod.
  set (l := if leap_year Y then 1 else 0).
  set (day := DayFromYear Y + month_start l M + D - 1).
  cbn zeta.
  assert (Hl : (if DaysInYear Y =? 366 then 1 else 0) = l) by apply leap_flag.
  assert (Hdw : 0 <= month_start l M + D - 1 < DaysInYear Y
                /\ (let d := month_start l M + D - 1 in
               if d <? 31 then 0 else if d <? 59 + l then 1 else if d <? 90 + l then 2
               else if d <? 120 + l then 3 else if d <? 151 + l then 4
               else if d <? 181 + l then 5 else if d <? 212 + l then 6
               else if d <? 243 + l then 7 else if d <? 273 + l then 8
               else if d <? 304 + l then 9 else if d <? 334 + l then 10 else 11) = M).
  { rewrite DaysInYear_leap. unfold days_in in HD. subst l.
    months M HM; destruct (leap_year Y);
      match type of HD with
      | _ <= _ <= ?r => let v := eval vm_compute in r in change r with v in HD
      end;
      cbn zeta; eval_month_start;
      (split; [lia |]);
      repeat match goal with
        | |- context [if ?a <? ?b then _ else _] => destruct (Z.ltb_spec a b); try lia
        end. }
  destruct Hdw as [Hdw HMo].
  assert (F0 : Day (day * msPerDay + tod) = day)
    by (unfold Day, msPerDay in *; Z.to_euclidean_division_equations; lia).
  assert (Hyear : YearFromDay day = Y).
  { apply YearFromDay_unique. rewrite DayFromYear_succ. subst day. lia. }
  assert (HY' : YearFromTime (day * msPerDay + tod) = Y)
    by (unfold YearFromTime; rewrite F0; exact Hyear).
  assert (HL' : InLeapYear (day * msPerDay + tod) = l)
    by (unfold InLeapYear; rewrite HY'; exact Hl).
  assert (HW' : DayWithinYear (day * msPerDay + tod) = month_start l M + D - 1)
    by (unfold DayWithinYear; rewrite HY', F0; subst day; lia).
  assert (HM' : MonthFromTime (day * msPerDay + tod) = M)
    by (unfold MonthFromTime; rewrite HW', HL'; exact HMo).
  assert (HD' : DateFromTime (day * msPerDay + tod) = D)
    by (unfold DateFromTime; rewrite HW', HL', HM'; lia).
  repeat split; try assumption.
  unfold TimeWithinDay, msPerDay in *. Z.to_euclidean_division_equations; lia.
Qed.

Lemma TimeWithinDay_bounds t : 0 <= TimeWithinDay t < msPerDay.
Proof. unfold TimeWithinDay, msPerDay. apply Z.mod_pos_bound. lia. Qed.

Lemma time_fields_of_day t t' :
  TimeWithinDay t' = TimeWithinDay t ->
  HourFromTime t' = HourFromTime t /\ MinFromTime t' = MinFromTime t
  /\ SecFromTime t' = SecFromTime t /\ msFromTime t' = msFromTime t.
Proof.
  unfold TimeWithinDay, HourFromTime, MinFromTime, SecFromTime, msFromTime,
    msPerDay, msPerHour, msPerMinute, msPerSecond.
  intros H. repeat split; Z.to_euclidean_division_equations; lia.
Qed.

Lemma DateFromTime_pos t : 1 <= DateFromTime t.
Proof.
  unfold DateFromTime.
  pose proof (DayWithinYear_bounds t) as Hw.
  assert (month_start (InLeapYear t) (MonthFromTime t) <= DayWithinYear t); [| lia].
  unfold MonthFromTime.
  assert (Hl : InLeapYear t = 0 \/ InLeapYear t = 1)
    by (unfold InLeapYear; destruct (_ =? _); auto).
  destruct Hl as [-> | ->];
    repeat match goal with
      | |- context [if ?a <? ?b then _ else _] => destruct (Z.ltb_spec a b)
      end; eval_month_start; lia.
Qed.

(** [add] on months, before the clip. *)
Lemma add_MONTH t q :
  ~ (0 <= YearFromTime t <= 99) ->
  add (TimeValue t) q MONTH
  = TimeClip (MakeDay (YearFromTime t) (MonthFromTime t + q) (DateFromTime t) * msPerDay
              + TimeWithinDay t).
Proof.
  intros Hy. unfold add, new_Date.
  cbn [Scale_eqb getFullYear getMonth getDate getHours getMinutes getSeconds
       getMilliseconds field plus nth].
  rewrite !Z.add_0_r.
  replace ((0 <=? YearFromTime t) && (YearFromTime t <=? 99)) with false
    by (symmetry; apply andb_false_iff; lia).
  f_equal. unfold MakeDate. f_equal.
  pose proof (MakeTime_all t 0 0 0 0) as H. rewrite !Z.add_0_r in H. rewrite H. lia.
Qed.

End Months.

Lemma MakeDay_civil Y m D tod :
  1 <= D <= 28 -> 0 <= tod < msPerDay ->
  let t := MakeDay Y m D * msPerDay + tod in
  YearFromTime t = Y + m / 12 /\ MonthFromTime t = m mod 12 /\ DateFromTime t = D
  /\ TimeWithinDay t = tod.
Proof.
  intros HD Hb.
  pose proof (Z.mod_pos_bound m 12 ltac:(lia)) as Hm.
  pose proof (days_in_bounds (Y + m / 12) (m mod 12 + 1)) as Hdi.
  assert (E : MakeDay Y m D
              = DayFromYear (Y + m / 12)
                + month_start (if leap_year (Y + m / 12) then 1 else 0) (m mod 12) + D - 1).
  { unfold MakeDay. rewrite leap_flag. reflexivity. }
  rewrite E.
  apply (civil_fields (Y + m / 12) (m mod 12) D tod); lia.
Qed.

Lemma TimeClip_value x t' : TimeClip x = TimeValue t' -> x = t'.
Proof.
  unfold TimeClip. destruct (Z.abs x <=? 8640000000000000); congruence.
Qed.

Lemma add_MONTH_days t q :
  constructible t ->
  exists days,
    add (TimeValue t) q MONTH = TimeClip (t + days * msPerDay)
    /\ (0 <= q -> 28 * q <= days <= 31 * q)
    /\ (q <= 0 -> 31 * q <= days <= 28 * q).
Proof.
  intros Hr. pose proof (constructible_year t Hr) as Hy.
  pose proof (add_MONTH t q ltac:(lia)) as A.
  pose proof (MakeDay_fields t 0) as H0. rewrite Z.add_0_r in H0.
  pose proof (Day_TimeWithinDay t) as Ht.
  exists (MakeDay (YearFromTime t) (MonthFromTime t + q) (DateFromTime t)
          - MakeDay (YearFromTime t) (MonthFromTime t) (DateFromTime t)).
  split; [| split].
  - rewrite A. f_equal. lia.
  - intros Hq. apply MakeDay_months, Hq.
  - intros Hq.
    pose proof (MakeDay_months (YearFromTime t) (MonthFromTime t + q) (DateFromTime t) (- q)
                  ltac:(lia)) as H.
    replace (MonthFromTime t + q + - q) with (MonthFromTime t) in H by lia. lia.
Qed.

(** X2.  [add] on months moves a date from the year 100 on by a whole
    number of days, between 28 and 31 for every month added or taken away,
    and keeps the time of day.  When the day of the month is at most 28 the
    result has the same day of the month, in the month that is [q] months
    on; a later day may run over into the month after. *)
Theorem add_MONTH_span t q :
  constructible t ->
  exists days,
    add (TimeValue t) q MONTH = TimeClip (t + days * msPerDay)
    /\ (0 <= q -> 28 * q <= days <= 31 * q)
    /\ (q <= 0 -> 31 * q <= days <= 28 * q)
    /\ (forall t', add (TimeValue t) q MONTH = TimeValue t' ->
                   DateFromTime t <= 28 ->
                   YearFromTime t' = YearFromTime t + (MonthFromTime t + q) / 12
                   /\ MonthFromTime t' = (MonthFromTime t + q) mod 12
                   /\ DateFromTime t' = DateFromTime t
                   /\ TimeWithinDay t' = TimeWithinDay t).
Proof.
  intros Hr. pose proof (constructible_year t Hr) as Hy.
  destruct (add_MONTH_days t q Hr) as (days & E & P & N).
  exists days. split; [exact E |]. split; [exact P |]. split; [exact N |].
  intros t' Ht' HD.
  rewrite add_MONTH in Ht' by lia. apply TimeClip_value in Ht'. subst t'.
  apply MakeDay_civil; [pose proof (DateFromTime_pos t); lia | apply TimeWithinDay_bounds].
Qed.

(** The theorem on one month from noon of 2024-01-15. *)
Lemma add_MONTH_span_witness :
  exists days,
    add (TimeValue some_instant) 1 MONTH = TimeClip (some_instant + days * msPerDay)
    /\ 28 <= days <= 31.
Proof.
  destruct (add_MONTH_span some_instant 1) as (days & E & P & _).
  - vm_compute. split; intros C; discriminate C.
  - exists days. split; [exact E | lia].
Defined.

Ltac eval_scores :=
  repeat match goal with
    | |- context [scores ?a <=? scores ?b] =>
        let v := eval vm_compute in (scores a <=? scores b) in
        change (scores a <=? scores b) with v
    end;
  cbv iota.

Section StartOf.

Lemma new_Date_day_of t h mi s ms :
  ~ (0 <= YearFromTime t <= 99) ->
  new_Date [ Some (YearFromTime t); Some (MonthFromTime t); Some (DateFromTime t);
             Some h; Some mi; Some s; Some ms ]
  = TimeClip (Day t * msPerDay + MakeTime h mi s ms).
Proof.
  intros Hy. unfold new_Date. cbn [nth].
  replace ((0 <=? YearFromTime t) && (YearFromTime t <=? 99)) with false
    by (symmetry; apply andb_false_iff; lia).
  pose proof (MakeDay_fields t 0) as H. rewrite !Z.add_0_r in H.
  unfold MakeDate. rewrite H. reflexivity.
Qed.

Lemma floor_constructible t u :
  constructible t -> 0 < u -> (u | msPerDay) -> constructible (t - t mod u).
Proof.
  unfold constructible. intros [H1 H2] Hu [k Hk].
  pose proof (Z.mod_pos_bound t u Hu) as Hm.
  split; [| lia].
  rewrite Hk in H1.
  assert (E : t - t mod u = u * (t / u)) by (pose proof (Z.div_mod t u ltac:(lia)); lia).
  rewrite E, Hk.
  assert (k * DayFromYear 100 <= t / u).
  { apply Z.div_le_lower_bound; [lia |]. lia. }
  nia.
Qed.

Lemma scale_ms_divides scale :
  fixed_scale scale = true -> 0 < scale_ms scale /\ (scale_ms scale | msPerDay).
Proof.
  destruct scale; try discriminate; intros _; cbn [scale_ms];
    unfold msPerDay, msPerHour, msPerMinute, msPerSecond; (split; [lia |]).
  - exists 1. lia.
  - exists 24. lia.
  - exists 1440. lia.
  - exists 86400. lia.
  - exists 86400000. lia.
Qed.

Lemma month_start_nonneg l m : 0 <= l -> 0 <= month_start l m.
Proof.
  intros Hl. unfold month_start.
  repeat match goal with |- context [if ?c then _ else _] => destruct c end; lia.
Qed.

Lemma leap_flag_range y : 0 <= (if leap_year y then 1 else 0) <= 1.
Proof. destruct (leap_year y); lia. Qed.

(** The first instant of the month of a time value. *)
Lemma first_of_month t :
  constructible t ->
  let t0 := MakeDay (YearFromTime t) (MonthFromTime t) 1 * msPerDay in
  constructible t0 /\ t0 <= t
  /\ YearFromTime t0 = YearFromTime t /\ MonthFromTime t0 = MonthFromTime t
  /\ DateFromTime t0 = 1 /\ TimeWithinDay t0 = 0.
Proof.
  intros Hr. cbn zeta.
  pose proof (constructible_year t Hr) as Hy.
  pose proof (MonthFromTime_range t) as HM.
  pose proof (DateFromTime_pos t) as HD.
  pose proof (MakeDay_fields t (1 - DateFromTime t)) as Hk.
  replace (DateFromTime t + (1 - DateFromTime t)) with 1 in Hk by lia.
  pose proof (Day_TimeWithinDay t) as Ht.
  pose proof (TimeWithinDay_bounds t) as Hb.
  pose proof (days_in_bounds (YearFromTime t) (MonthFromTime t + 1)) as Hdi.
  pose proof (civil_fields (YearFromTime t) (MonthFromTime t) 1 0 HM ltac:(lia)
                ltac:(unfold msPerDay; lia)) as F.
  cbn zeta in F.
  assert (E : MakeDay (YearFromTime t) (MonthFromTime t) 1
              = DayFromYear (YearFromTime t)
                + month_start (if leap_year (YearFromTime t) then 1 else 0) (MonthFromTime t)
                + 1 - 1).
  { unfold MakeDay.
    rewrite (Z.div_small (MonthFromTime t) 12), (Z.mod_small (MonthFromTime t) 12) by lia.
    rewrite Z.add_0_r, leap_flag. reflexivity. }
  rewrite <- E, Z.add_0_r in F.
  assert (Hle : MakeDay (YearFromTime t) (MonthFromTime t) 1 * msPerDay <= t)
    by (unfold msPerDay in *; nia).
  split; [| split; [exact Hle | exact F]].
  unfold constructible in *. split; [| lia].
  rewrite E.
  pose proof (DayFromYear_mono 100 (YearFromTime t) Hy).
  pose proof (month_start_nonneg (if leap_year (YearFromTime t) then 1 else 0) (MonthFromTime t)
                ltac:(destruct (leap_year _); lia)).
  unfold msPerDay. nia.
Qed.

Lemma fields_at_midnight t :
  TimeWithinDay t = 0 ->
  HourFromTime t = 0 /\ MinFromTime t = 0 /\ SecFromTime t = 0 /\ msFromTime t = 0.
Proof.
  unfold TimeWithinDay, HourFromTime, MinFromTime, SecFromTime, msFromTime,
    msPerDay, msPerHour, msPerMinute, msPerSecond.
  intros H. repeat split; Z.to_euclidean_division_equations; lia.
Qed.

End StartOf.

Lemma start_of_fixed_value t scale :
  fixed_scale scale = true -> constructible t ->
  start_of (TimeValue t) scale = TimeValue (t - t mod scale_ms scale).
Proof.
  intros Hs Hr.
  pose proof (constructible_year t Hr) as Hy.
  destruct (scale_ms_divides scale Hs) as [Hu Hd].
  rewrite <- (constructible_clip _ (floor_constructible t _ Hr Hu Hd)).
  destruct scale; try discriminate Hs; unfold start_of; eval_scores;
    cbn [getFullYear getMonth getDate getHours getMinutes getSeconds getMilliseconds field];
    rewrite new_Date_day_of by lia; f_equal;
    unfold MakeTime, Day, HourFromTime, MinFromTime, SecFromTime, msFromTime;
    cbn [scale_ms]; unfold msPerDay, msPerHour, msPerMinute, msPerSecond;
    Z.to_euclidean_division_equations; lia.
Qed.

(** X3.  On a date from the year 100 on, [start_of] with a scale from
    the millisecond to the day rounds the time value down to a multiple of
    the scale, and applying it twice is applying it once. *)
Theorem start_of_fixed t scale :
  fixed_scale scale = true -> constructible t ->
  start_of (TimeValue t) scale = TimeValue (t - t mod scale_ms scale)
  /\ start_of (start_of (TimeValue t) scale) scale = start_of (TimeValue t) scale.
Proof.
  intros Hs Hr.
  split; [apply start_of_fixed_value; assumption |].
  rewrite (start_of_fixed_value t scale Hs Hr).
  destruct (scale_ms_divides scale Hs) as [Hu Hd].
  rewrite (start_of_fixed_value _ scale Hs (floor_constructible t _ Hr Hu Hd)). f_equal.
  assert (E : (t - t mod scale_ms scale) mod scale_ms scale = 0).
  { pose proof (Z.div_mod t (scale_ms scale) ltac:(lia)) as D.
    replace (t - t mod scale_ms scale) with (t / scale_ms scale * scale_ms scale) by lia.
    apply Z_mod_mult. }
  lia.
Qed.

(** The theorem on the day of noon of 2024-01-15. *)
Lemma start_of_fixed_witness :
  start_of (TimeValue some_instant) DAY
  = TimeValue (some_instant - some_instant mod scale_ms DAY)
  /\ start_of (start_of (TimeValue some_instant) DAY) DAY
     = start_of (TimeValue some_instant) DAY.
Proof.
  apply (start_of_fixed some_instant DAY).
  - reflexivity.
  - vm_compute. split; intros C; discriminate C.
Defined.

(** X4.  On a date from the year 100 on, [start_of] with the month scale
    gives midnight of the first day of the date's month, and with the year
    scale midnight of the first of January of its year; neither is after
    the date, and the start of the year is not after the start of the
    month. *)
Theorem start_of_calendar t :
  constructible t ->
  exists t0 t1,
    start_of (TimeValue t) MONTH = TimeValue t0 /\ t0 <= t
    /\ get_date_values (TimeValue t0)
       = [ Some (YearFromTime t); Some (MonthFromTime t); Some 1;
           Some 0; Some 0; Some 0; Some 0 ]
    /\ start_of (TimeValue t) YEAR = TimeValue t1 /\ t1 <= t0
    /\ get_date_values (TimeValue t1)
       = [ Some (YearFromTime t); Some 0; Some 1; Some 0; Some 0; Some 0; Some 0 ].
Proof.
  intros Hr. pose proof (constructible_year t Hr) as Hy.
  destruct (first_of_month t Hr) as (Hc0 & Hle0 & FY & FM & FD & FT). cbn zeta in *.
  set (t0 := MakeDay (YearFromTime t) (MonthFromTime t) 1 * msPerDay) in *.
  destruct (fields_at_midnight t0 FT) as (F1 & F2 & F3 & F4).
  (* the first instant of the year *)
  pose proof (civil_fields (YearFromTime t) 0 1 0 ltac:(lia)
                ltac:(pose proof (days_in_bounds (YearFromTime t) (0 + 1)); lia)
                ltac:(unfold msPerDay; lia)) as G.
  cbn zeta in G.
  change (month_start (if leap_year (YearFromTime t) then 1 else 0) 0) with 0 in G.
  replace ((DayFromYear (YearFromTime t) + 0 + 1 - 1) * msPerDay + 0)
    with (DayFromYear (YearFromTime t) * msPerDay) in G by lia.
  set (t1 := DayFromYear (YearFromTime t) * msPerDay) in *.
  destruct G as (GY & GM & GD & GT).
  destruct (fields_at_midnight t1 GT) as (G1 & G2 & G3 & G4).
  assert (Hle1 : t1 <= t0).
  { subst t0 t1. unfold MakeDay.
    pose proof (MonthFromTime_range t) as HM.
    rewrite (Z.div_small (MonthFromTime t) 12), (Z.mod_small (MonthFromTime t) 12) by lia.
    rewrite Z.add_0_r, leap_flag.
    pose proof (month_start_nonneg (if leap_year (YearFromTime t) then 1 else 0) (MonthFromTime t)
                  ltac:(destruct (leap_year _); lia)).
    unfold msPerDay. nia. }
  assert (Hc1 : constructible t1).
  { unfold constructible in *. split; [| lia].
    pose proof (DayFromYear_mono 100 (YearFromTime t) Hy). subst t1. unfold msPerDay. nia. }
  exists t0, t1.
  assert (S0 : start_of (TimeValue t) MONTH = TimeValue t0).
  { unfold start_of; eval_scores.
    cbn [getFullYear getMonth getDate getHours getMinutes getSeconds getMilliseconds field].
    unfold new_Date. cbn [nth].
    replace ((0 <=? YearFromTime t) && (YearFromTime t <=? 99)) with false
      by (symmetry; apply andb_false_iff; lia).
    unfold MakeDate, MakeTime. rewrite !Z.mul_0_l, !Z.add_0_r.
    apply constructible_clip, Hc0. }
  assert (S1 : start_of (TimeValue t) YEAR = TimeValue t1).
  { unfold start_of; eval_scores.
    cbn [getFullYear getMonth getDate getHours getMinutes getSeconds getMilliseconds field].
    unfold new_Date. cbn [nth].
    replace ((0 <=? YearFromTime t) && (YearFromTime t <=? 99)) with false
      by (symmetry; apply andb_false_iff; lia).
    unfold MakeDate, MakeTime. rewrite !Z.mul_0_l, !Z.add_0_r.
    replace (MakeDay (YearFromTime t) 0 1) with (DayFromYear (YearFromTime t)).
    - apply constructible_clip, Hc1.
    - unfold MakeDay. change (0 / 12) with 0. change (0 mod 12) with 0.
      rewrite (Z.add_0_r (YearFromTime t)).
      change (month_start (if DaysInYear (YearFromTime t) =? 366 then 1 else 0) 0) with 0.
      lia. }
  repeat split; try assumption.
  - unfold get_date_values.
    cbn [getFullYear getMonth getDate getHours getMinutes getSeconds getMilliseconds field].
    rewrite FY, FM, FD, F1, F2, F3, F4. reflexivity.
  - unfold get_date_values.
    cbn [getFullYear getMonth getDate getHours getMinutes getSeconds getMilliseconds field].
    rewrite GY, GM, GD, G1, G2, G3, G4. reflexivity.
Qed.

(** The theorem on noon of 2024-01-15. *)
Lemma start_of_calendar_witness :
  exists t0 t1,
    start_of (TimeValue some_instant) MONTH = TimeValue t0 /\ t0 <= some_instant
    /\ get_date_values (TimeValue t0)
       = [ Some (YearFromTime some_instant); Some (MonthFromTime some_instant); Some 1;
           Some 0; Some 0; Some 0; Some 0 ]
    /\ start_of (TimeValue some_instant) YEAR = TimeValue t1 /\ t1 <= t0
    /\ get_date_values (TimeValue t1)
       = [ Some (YearFromTime some_instant); Some 0; Some 1; Some 0; Some 0; Some 0; Some 0 ].
Proof.
  apply (start_of_calendar some_instant).
  vm_compute. split; intros C; discriminate C.
Defined.

(** X5.  [get_days_in_month] returns the length of the date's month:
    a number from 28 to 31 such that adding one month to the start of the
    month moves it by exactly that many days.  The date is from the year
    100 on and at least 31 days before the last time value. *)
Theorem get_days_in_month_length t :
  constructible t -> t <= 8640000000000000 - 31 * msPerDay ->
  exists t0 n,
    start_of (TimeValue t) MONTH = TimeValue t0
    /\ get_days_in_month (TimeValue t) = Some n
    /\ 28 <= n <= 31
    /\ add (TimeValue t0) 1 MONTH = TimeValue (t0 + n * msPerDay).
Proof.
  intros Hr Hmax. pose proof (constructible_year t Hr) as Hy.
  destruct (first_of_month t Hr) as (Hc0 & Hle0 & FY & FM & FD & FT). cbn zeta in *.
  set (t0 := MakeDay (YearFromTime t) (MonthFromTime t) 1 * msPerDay) in *.
  pose proof (MonthFromTime_range t) as HM.
  exists t0, (days_in (YearFromTime t) (MonthFromTime t + 1)).
  pose proof (days_in_bounds (YearFromTime t) (MonthFromTime t + 1)) as Hb.
  split; [| split; [| split; [exact Hb |]]].
  - unfold start_of; eval_scores.
    cbn [getFullYear getMonth getDate getHours getMinutes getSeconds getMilliseconds field].
    unfold new_Date. cbn [nth].
    replace ((0 <=? YearFromTime t) && (YearFromTime t <=? 99)) with false
      by (symmetry; apply andb_false_iff; lia).
    unfold MakeDate, MakeTime. rewrite !Z.mul_0_l, !Z.add_0_r.
    apply constructible_clip, Hc0.
  - unfold get_days_in_month. cbn [getMonth getFullYear field].
    unfold days_in. fold (leap_year (YearFromTime t)).
    months (MonthFromTime t) HM; destruct (leap_year (YearFromTime t)); reflexivity.
  - rewrite add_MONTH by (rewrite FY; lia).
    rewrite FY, FM, FD, FT, Z.add_0_r.
    pose proof (MakeDay_next_month (YearFromTime t) (MonthFromTime t) 1) as S.
    rewrite (Z.div_small (MonthFromTime t) 12), (Z.mod_small (MonthFromTime t) 12) in S by lia.
    rewrite Z.add_0_r in S.
    replace (MakeDay (YearFromTime t) (MonthFromTime t + 1) 1 * msPerDay)
      with (t0 + days_in (YearFromTime t) (MonthFromTime t + 1) * msPerDay)
      by (subst t0; lia).
    apply constructible_clip. unfold constructible in *. unfold msPerDay in *. lia.
Qed.

(** The theorem on January 2024. *)
Lemma get_days_in_month_length_witness :
  exists t0 n,
    start_of (TimeValue some_instant) MONTH = TimeValue t0
    /\ get_days_in_month (TimeValue some_instant) = Some n
    /\ 28 <= n <= 31
    /\ add (TimeValue t0) 1 MONTH = TimeValue (t0 + n * msPerDay).
Proof.
  apply (get_days_in_month_length some_instant).
  - vm_compute. split; intros C; discriminate C.
  - vm_compute. intros C. discriminate C.
Defined.

Section TimeText.

Lemma digit_char_is_digit k : 0 <= k <= 9 -> is_digit (digit_char k) = true.
Proof.
  intros H.
  assert (C : k = 0 \/ k = 1 \/ k = 2 \/ k = 3 \/ k = 4 \/ k = 5 \/ k = 6 \/ k = 7
              \/ k = 8 \/ k = 9) by lia.
  destruct C as [-> | [-> | [-> | [-> | [-> | [-> | [-> | [-> | [-> | ->]]]]]]]]]; reflexivity.
Qed.

Lemma digit_value_char k : 0 <= k <= 9 -> digit_value (digit_char k) = k.
Proof.
  intros H.
  assert (C : k = 0 \/ k = 1 \/ k = 2 \/ k = 3 \/ k = 4 \/ k = 5 \/ k = 6 \/ k = 7
              \/ k = 8 \/ k = 9) by lia.
  destruct C as [-> | [-> | [-> | [-> | [-> | [-> | [-> | [-> | [-> | ->]]]]]]]]]; reflexivity.
Qed.

Lemma digit_not_time_separator c :
  is_digit c = true -> (is_char "." c || is_char ":" c) = false.
Proof.
  intros H.
  destruct (digit_cases c H) as [-> | [-> | [-> | [-> | [-> | [-> | [-> | [-> | [-> | ->]]]]]]]]];
    reflexivity.
Qed.

Lemma to_number_2 a b :
  is_digit a = true -> is_digit b = true ->
  to_number (String a (String b EmptyString)) = Some (number_of_2 a b).
Proof.
  intros Ha Hb.
  destruct (digit_cases a Ha) as [-> | [-> | [-> | [-> | [-> | [-> | [-> | [-> | [-> | ->]]]]]]]]];
    destruct (digit_cases b Hb) as [-> | [-> | [-> | [-> | [-> | [-> | [-> | [-> | [-> | ->]]]]]]]]];
    reflexivity.
Qed.

Lemma fraction_to_ms_3 a b c :
  is_digit a = true -> is_digit b = true -> is_digit c = true ->
  fraction_to_ms (String a (String b (String c EmptyString))) = Some (number_of_3 a b c).
Proof.
  intros Ha Hb Hc. unfold fraction_to_ms. cbn [read_digits]. rewrite Ha, Hb, Hc.
  f_equal. unfold number_of_3.
  change (10 ^ Z.of_nat 3) with 1000.
  rewrite Z.mul_0_r, Z.add_0_l. apply Z.div_mul. lia.
Qed.

Lemma pad_3 a b c :
  is_digit a = true -> is_digit b = true -> is_digit c = true ->
  padStart (of_number (Some (number_of_3 a b c))) 3 "0"
  = String a (String b (String c EmptyString)).
Proof.
  intros Ha Hb Hc.
  destruct (digit_cases a Ha) as [-> | [-> | [-> | [-> | [-> | [-> | [-> | [-> | [-> | ->]]]]]]]]];
    destruct (digit_cases b Hb) as [-> | [-> | [-> | [-> | [-> | [-> | [-> | [-> | [-> | ->]]]]]]]]];
    destruct (digit_cases c Hc) as [-> | [-> | [-> | [-> | [-> | [-> | [-> | [-> | [-> | ->]]]]]]]]];
    vm_compute; reflexivity.
Qed.

End TimeText.

Section TimeRoundTrip.

#[local] Arguments padStart : simpl never.
#[local] Arguments of_number : simpl never.
#[local] Arguments number_of_2 : simpl never.
#[local] Arguments number_of_3 : simpl never.
#[local] Arguments number_of_4 : simpl never.

(** Reading a date and a time of twenty-three characters. *)
Lemma parse_string_full y1 y2 y3 y4 m1 m2 d1 d2 h1 h2 i1 i2 s1 s2 f1 f2 f3 :
  is_digit y1 = true -> is_digit y2 = true -> is_digit y3 = true -> is_digit y4 = true ->
  is_digit m1 = true -> is_digit m2 = true -> is_digit d1 = true -> is_digit d2 = true ->
  is_digit h1 = true -> is_digit h2 = true -> is_digit i1 = true -> is_digit i2 = true ->
  is_digit s1 = true -> is_digit s2 = true ->
  is_digit f1 = true -> is_digit f2 = true -> is_digit f3 = true ->
  parse_string
    (String y1 (String y2 (String y3 (String y4 (String "-"
       (String m1 (String m2 (String "-" (String d1 (String d2 (String " "
          (String h1 (String h2 (String ":" (String i1 (String i2 (String ":"
             (String s1 (String s2 (String "."
                (String f1 (String f2 (String f3 EmptyString)))))))))))))))))))))))
  = new_Date [ Some (number_of_4 y1 y2 y3 y4); Some (number_of_2 m1 m2 - 1);
               Some (number_of_2 d1 d2); Some (number_of_2 h1 h2);
               Some (number_of_2 i1 i2); Some (number_of_2 s1 s2);
               Some (number_of_3 f1 f2 f3) ].
Proof.
  intros Hy1 Hy2 Hy3 Hy4 Hm1 Hm2 Hd1 Hd2 Hh1 Hh2 Hi1 Hi2 Hs1 Hs2 Hf1 Hf2 Hf3.
  unfold parse_string.
  match goal with
  | |- context [split (is_char " ") ?s] =>
      assert (Hsp : split (is_char " ") s
                    = [ String y1 (String y2 (String y3 (String y4 (String "-"
                          (String m1 (String m2 (String "-" (String d1 (String d2 EmptyString)))))))));
                        String h1 (String h2 (String ":" (String i1 (String i2 (String ":"
                          (String s1 (String s2 (String "."
                             (String f1 (String f2 (String f3 EmptyString))))))))))) ])
  end.
  { repeat first [ rewrite split_cons_sep by reflexivity
                 | rewrite split_cons_no by (reflexivity || (apply digit_not_separator; assumption)) ].
    reflexivity. }
  rewrite Hsp. cbn [nth lookup list_lookup].
  assert (Hda : split (is_char "-")
                  (String y1 (String y2 (String y3 (String y4 (String "-"
                     (String m1 (String m2 (String "-" (String d1 (String d2 EmptyString))))))))))
                = [ String y1 (String y2 (String y3 (String y4 EmptyString)));
                    String m1 (String m2 EmptyString); String d1 (String d2 EmptyString) ]).
  { repeat first [ rewrite split_cons_sep by reflexivity
                 | rewrite split_cons_no by (apply digit_not_separator; assumption) ].
    reflexivity. }
  rewrite Hda. cbn [fmap list_fmap].
  rewrite parseInt_4, !parseInt_2 by assumption.
  cbn [month_zero_indexed]. rewrite minus_Some.
  cbn [String.eqb].
  assert (Hti : split (fun c => is_char "." c || is_char ":" c)
                  (String h1 (String h2 (String ":" (String i1 (String i2 (String ":"
                     (String s1 (String s2 (String "."
                        (String f1 (String f2 (String f3 EmptyString))))))))))))
                = [ String h1 (String h2 EmptyString); String i1 (String i2 EmptyString);
                    String s1 (String s2 EmptyString);
                    String f1 (String f2 (String f3 EmptyString)) ]).
  { repeat first [ rewrite split_cons_sep by reflexivity
                 | rewrite split_cons_no by (apply digit_not_time_separator; assumption) ].
    reflexivity. }
  rewrite Hti. cbn [length Nat.eqb take fmap list_fmap nth app].
  rewrite !to_number_2, fraction_to_ms_3 by assumption.
  reflexivity.
Qed.

Lemma two_digits n :
  0 <= n <= 99 ->
  exists a b, is_digit a = true /\ is_digit b = true /\ number_of_2 a b = n.
Proof.
  intros H. exists (digit_char (n / 10)), (digit_char (n mod 10)).
  assert (0 <= n / 10 <= 9) by (Z.to_euclidean_division_equations; lia).
  assert (0 <= n mod 10 <= 9) by (Z.to_euclidean_division_equations; lia).
  split; [| split]; try (apply digit_char_is_digit; assumption).
  unfold number_of_2. rewrite !digit_value_char by assumption.
  Z.to_euclidean_division_equations; lia.
Qed.

Lemma three_digits n :
  0 <= n <= 999 ->
  exists a b c, is_digit a = true /\ is_digit b = true /\ is_digit c = true
                /\ number_of_3 a b c = n.
Proof.
  intros H. exists (digit_char (n / 100)), (digit_char ((n / 10) mod 10)), (digit_char (n mod 10)).
  assert (0 <= n / 100 <= 9) by (Z.to_euclidean_division_equations; lia).
  assert (0 <= (n / 10) mod 10 <= 9) by (Z.to_euclidean_division_equations; lia).
  assert (0 <= n mod 10 <= 9) by (Z.to_euclidean_division_equations; lia).
  split; [| split; [| split]]; try (apply digit_char_is_digit; assumption).
  unfold number_of_3. rewrite !digit_value_char by assumption.
  Z.to_euclidean_division_equations; lia.
Qed.

Lemma four_digits n :
  0 <= n <= 9999 ->
  exists a b c d, is_digit a = true /\ is_digit b = true /\ is_digit c = true
                  /\ is_digit d = true /\ number_of_4 a b c d = n.
Proof.
  intros H.
  exists (digit_char (n / 1000)), (digit_char ((n / 100) mod 10)),
    (digit_char ((n / 10) mod 10)), (digit_char (n mod 10)).
  assert (0 <= n / 1000 <= 9) by (Z.to_euclidean_division_equations; lia).
  assert (0 <= (n / 100) mod 10 <= 9) by (Z.to_euclidean_division_equations; lia).
  assert (0 <= (n / 10) mod 10 <= 9) by (Z.to_euclidean_division_equations; lia).
  assert (0 <= n mod 10 <= 9) by (Z.to_euclidean_division_equations; lia).
  split; [| split; [| split; [| split]]]; try (apply digit_char_is_digit; assumption).
  unfold number_of_4. rewrite !digit_value_char by assumption.
  Z.to_euclidean_division_equations; lia.
Qed.

Lemma DateFromTime_range t : 1 <= DateFromTime t <= 31.
Proof.
  split; [apply DateFromTime_pos |].
  unfold DateFromTime.
  pose proof (DayWithinYear_bounds t) as Hw.
  assert (Hl : InLeapYear t = 0 \/ InLeapYear t = 1)
    by (unfold InLeapYear; destruct (_ =? _); auto).
  assert (Hd : DaysInYear (YearFromTime t) = 365 + InLeapYear t)
    by (unfold InLeapYear; destruct (DaysInYear_cases (YearFromTime t)) as [-> | ->]; reflexivity).
  unfold MonthFromTime.
  destruct Hl as [E | E]; rewrite E in *;
    repeat match goal with
      | |- context [if ?a <? ?b then _ else _] => destruct (Z.ltb_spec a b)
      end; eval_month_start; lia.
Qed.

Lemma time_fields_range t :
  0 <= HourFromTime t <= 23 /\ 0 <= MinFromTime t <= 59 /\ 0 <= SecFromTime t <= 59
  /\ 0 <= msFromTime t <= 999.
Proof.
  unfold HourFromTime, MinFromTime, SecFromTime, msFromTime,
    msPerHour, msPerMinute, msPerSecond.
  repeat split; Z.to_euclidean_division_equations; lia.
Qed.

End TimeRoundTrip.

(** X6.  For a date in a year of four digits, [to_string] with the time
    of day writes a string that [parse] reads back as the same time value,
    milliseconds included. *)
Theorem parse_to_string_with_time t :
  1000 <= YearFromTime t <= 9999 ->
  exists s, to_string (Some (TimeValue t)) true = Some s
            /\ parse (RawString s) = Some (TimeValue t).
Proof.
  intros HY.
  pose proof (MonthFromTime_range t) as HM.
  pose proof (DateFromTime_range t) as HD.
  destruct (time_fields_range t) as (Hh & Hmi & Hs & Hms).
  destruct (four_digits (YearFromTime t) ltac:(lia)) as (y1 & y2 & y3 & y4 & ? & ? & ? & ? & EY).
  destruct (two_digits (MonthFromTime t + 1) ltac:(lia)) as (m1 & m2 & ? & ? & EM).
  destruct (two_digits (DateFromTime t) ltac:(lia)) as (d1 & d2 & ? & ? & ED).
  destruct (two_digits (HourFromTime t) ltac:(lia)) as (h1 & h2 & ? & ? & EH).
  destruct (two_digits (MinFromTime t) ltac:(lia)) as (i1 & i2 & ? & ? & EI).
  destruct (two_digits (SecFromTime t) ltac:(lia)) as (s1 & s2 & ? & ? & ES).
  destruct (three_digits (msFromTime t) ltac:(lia)) as (f1 & f2 & f3 & ? & ? & ? & EF).
  exists (String y1 (String y2 (String y3 (String y4 (String "-"
       (String m1 (String m2 (String "-" (String d1 (String d2 (String " "
          (String h1 (String h2 (String ":" (String i1 (String i2 (String ":"
             (String s1 (String s2 (String "."
                (String f1 (String f2 (String f3 EmptyString))))))))))))))))))))))).
  split.
  - unfold to_string, get_date_values.
    cbn [getFullYear getMonth getDate getHours getMinutes getSeconds getMilliseconds field
         imap Nat.eqb plus nth].
    cbv beta. cbn [imap Nat.eqb plus nth compose].
    rewrite <- EY, <- EM, <- ED, <- EH, <- EI, <- ES, <- EF.
    rewrite pad_4 by (assumption || lia).
    rewrite !pad_2, pad_3 by assumption.
    reflexivity.
  - cbn [parse]. rewrite parse_string_full by assumption.
    rewrite EY, EM, ED, EH, EI, ES, EF.
    replace (MonthFromTime t + 1 - 1) with (MonthFromTime t) by lia.
    rewrite new_Date_day_of by lia.
    pose proof (MakeTime_all t 0 0 0 0) as T. rewrite !Z.add_0_r in T.
    rewrite T, Day_TimeWithinDay. f_equal.
    unfold TimeClip.
    destruct (Z.leb_spec (Z.abs t) 8640000000000000); [reflexivity | exfalso].
    pose proof (YearFromDay_spec (Day t)) as S. fold (YearFromTime t) in S.
    pose proof (DayFromYear_mono 1000 (YearFromTime t) ltac:(lia)) as L1.
    pose proof (DayFromYear_mono (YearFromTime t + 1) 10000 ltac:(lia)) as L2.
    change (DayFromYear 1000) with (-354285) in L1.
    change (DayFromYear 10000) with 2932897 in L2.
    pose proof (Day_TimeWithinDay t). pose proof (TimeWithinDay_bounds t).
    unfold msPerDay in *. lia.
Qed.

(** The theorem on noon of 2024-01-15. *)
Lemma parse_to_string_with_time_witness :
  exists s, to_string (Some (TimeValue some_instant)) true = Some s
            /\ parse (RawString s) = Some (TimeValue some_instant).
Proof.
  apply (parse_to_string_with_time some_instant).
  vm_compute. split; intros C; discriminate C.
Defined.

Section Rows.

Lemma visible_tasks_cons t rest :
  visible_tasks (t :: rest)
  = if is_visible t then t :: visible_tasks rest else visible_tasks rest.
Proof.
  unfold visible_tasks. rewrite filter_cons.
  destruct (is_visible t); [rewrite decide_True by reflexivity | rewrite decide_False by discriminate];
    reflexivity.
Qed.

Lemma setup_tasks_from_rows now random tasks :
  forall i tasks',
    setup_tasks_from now random i tasks = Some tasks' ->
    length tasks' = length tasks
    /\ forall k t, tasks !! k = Some t ->
         exists t', tasks' !! k = Some t'
           /\ if is_visible t
              then setup_task now (random (i + length (visible_tasks (take k tasks)))%nat)
                              (i + length (visible_tasks (take k tasks)))%nat t = Some t'
              else t' = t.
Proof.
  induction tasks as [| t0 rest IH]; intros i tasks' H.
  - injection H as <-. split; [reflexivity |]. intros k t Hk. discriminate Hk.
  - cbn [setup_tasks_from] in H. destruct (is_visible t0) eqn:V.
    + destruct (setup_task now (random i) i t0) as [t0' |] eqn:E0; [| discriminate].
      cbn in H.
      destruct (setup_tasks_from now random (S i) rest) as [rest' |] eqn:Er; [| discriminate].
      injection H as <-.
      destruct (IH _ _ Er) as [L R].
      split; [cbn; f_equal; exact L |].
      intros [| k] t Hk; cbn in Hk.
      * injection Hk as <-. exists t0'. rewrite V. cbn. rewrite Nat.add_0_r. auto.
      * destruct (R k t Hk) as (t' & Ht' & C). exists t'. split; [exact Ht' |].
        cbn [take]. rewrite visible_tasks_cons, V. cbn [length].
        replace (i + S (length (visible_tasks (take k rest))))%nat
          with (S i + length (visible_tasks (take k rest)))%nat by lia.
        exact C.
    + destruct (setup_tasks_from now random i rest) as [rest' |] eqn:Er; [| discriminate].
      injection H as <-.
      destruct (IH _ _ Er) as [L R].
      split; [cbn; f_equal; exact L |].
      intros [| k] t Hk; cbn in Hk.
      * injection Hk as <-. exists t0. rewrite V. auto.
      * destruct (R k t Hk) as (t' & Ht' & C). exists t'. split; [exact Ht' |].
        cbn [take]. rewrite visible_tasks_cons, V. exact C.
Qed.

End Rows.



Ltac run_tests :=
  repeat (progress (cbn;
    repeat match goal with
      | H : exceeds _ _ = _ |- _ => rewrite H
      | H : truthy_raw _ = _ |- _ => rewrite H
      | H : time_of_day_is_zero _ = _ |- _ => rewrite H
      | H : parse _ = _ |- _ => rewrite H
      end)).

Section Untouched.

#[local] Arguments add : simpl never.
#[local] Arguments today : simpl never.
#[local] Arguments parse : simpl never.
#[local] Arguments diff : simpl never.
#[local] Arguments exceeds : simpl never.
#[local] Arguments get_date_values : simpl never.
#[local] Arguments time_of_day_is_zero : simpl never.
#[local] Arguments generate_id : simpl never.
#[local] Arguments truthy_raw : simpl nomatch.
#[local] Arguments truthy_id : simpl nomatch.
#[local] Arguments truthy_string : simpl never.

(** The first half of the callback leaves the dependencies alone and sets
    the flag. *)
Lemma setup_task_dates_rest now i t u :
  setup_task_dates now i t = Some u ->
  dependencies u = dependencies t /\ type u = type t /\ invalid u = flagged t.
Proof.
  unfold setup_task_dates, flagged. cbn.
  destruct (exceeds (diff (parse (end_ t)) (parse (start t)) YEAR) 10) eqn:Ex.
  - pose proof (exceeds_truthy_end _ _ _ Ex) as He.
    destruct (exceeds_diff_inv _ _ _ Ex) as (te & ts & Pe & Ps & Hs).
    destruct (time_of_day_is_zero (get_date_values (add (TimeValue ts) 2 DAY))) eqn:Hz;
      run_tests; intros H; injection H as <-; cbn; rewrite ?orb_true_r; auto.
  - destruct (truthy_raw (start t)) eqn:Hs, (truthy_raw (end_ t)) eqn:He.
    + destruct (truthy_raw_parse _ Hs) as [s Ps], (truthy_raw_parse _ He) as [e Pe].
      destruct (time_of_day_is_zero (get_date_values e)) eqn:Hz;
        run_tests; intros H; injection H as <-; cbn; rewrite ?orb_false_r; auto.
    + destruct (truthy_raw_parse _ Hs) as [s Ps].
      destruct (time_of_day_is_zero (get_date_values (add s 2 DAY))) eqn:Hz;
        run_tests; intros H; injection H as <-; cbn; rewrite ?orb_true_r; auto.
    + destruct (truthy_raw_parse _ He) as [e Pe].
      destruct (time_of_day_is_zero (get_date_values e)) eqn:Hz;
        run_tests; intros H; injection H as <-; cbn; rewrite ?orb_true_r; auto.
    + destruct (time_of_day_is_zero (get_date_values (add (today now) 2 DAY))) eqn:Hz;
        run_tests; intros H; injection H as <-; cbn; rewrite ?orb_true_r; auto.
Qed.

Lemma setup_task_ids_rest random u :
  dependencies (setup_task_ids random u) = DepsArray (listed_dependencies (dependencies u))
  /\ invalid (setup_task_ids random u) = invalid u
  /\ type (setup_task_ids random u) = type u.
Proof.
  unfold setup_task_ids, listed_dependencies.
  destruct (dependencies u) as [| s | l] eqn:D; cbn;
    destruct (truthy_id (id u)); cbn; rewrite ?D; auto.
  all: destruct (truthy_string s) eqn:Ts; auto.
  all: split; auto; f_equal.
  all: unfold truthy_string in Ts; apply negb_false_iff, String.eqb_eq in Ts; subst s;
    reflexivity.
Qed.

Lemma setup_task_rest now random i t t' :
  setup_task now random i t = Some t' ->
  dependencies t' = DepsArray (listed_dependencies (dependencies t))
  /\ invalid t' = flagged t /\ type t' = type t.
Proof.
  unfold setup_task. intros H.
  destruct (setup_task_dates now i t) as [u |] eqn:Hu; [| discriminate H].
  cbn in H. injection H as <-.
  destruct (setup_task_dates_rest _ _ _ _ Hu) as (D & T & I).
  destruct (setup_task_ids_rest random u) as (D' & I' & T').
  rewrite D', I', T', D, T, I. auto.
Qed.

Lemma setup_dependencies_from_None m tasks :
  setup_dependencies_from m tasks = None
  <-> exists t, t ∈ tasks /\ dependencies t = DepsMissing.
Proof.
  revert m. induction tasks as [| t rest IH]; intros m; cbn [setup_dependencies_from].
  - split; [discriminate |]. intros (t & Ht & _). apply elem_of_nil in Ht. contradiction.
  - destruct (dependencies t) eqn:D; cbn.
    + split; [| reflexivity]. intros _. exists t. split; [left | exact D].
    + rewrite IH. split.
      * intros (u & Hu & Du). exists u. split; [right; exact Hu | exact Du].
      * intros (u & Hu & Du). apply elem_of_cons in Hu as [-> | Hu]; [congruence |].
        exists u. auto.
    + rewrite IH. split.
      * intros (u & Hu & Du). exists u. split; [right; exact Hu | exact Du].
      * intros (u & Hu & Du). apply elem_of_cons in Hu as [-> | Hu]; [congruence |].
        exists u. auto.
Qed.

Lemma setup_ancestors_from_None m tasks :
  setup_ancestors_from m tasks = None
  <-> exists t, t ∈ tasks /\ dependencies t = DepsMissing.
Proof.
  revert m. induction tasks as [| t rest IH]; intros m; cbn [setup_ancestors_from].
  - split; [discriminate |]. intros (t & Ht & _). apply elem_of_nil in Ht. contradiction.
  - destruct (dependencies t) eqn:D; cbn.
    + split; [| reflexivity]. intros _. exists t. split; [left | exact D].
    + rewrite IH. split.
      * intros (u & Hu & Du). exists u. split; [right; exact Hu | exact Du].
      * intros (u & Hu & Du). apply elem_of_cons in Hu as [-> | Hu]; [congruence |].
        exists u. auto.
    + rewrite IH. split.
      * intros (u & Hu & Du). exists u. split; [right; exact Hu | exact Du].
      * intros (u & Hu & Du). apply elem_of_cons in Hu as [-> | Hu]; [congruence |].
        exists u. auto.
Qed.

End Untouched.

Lemma today_is_start_of_day d : today d = start_of d DAY.
Proof.
  unfold today, start_of, get_date_values; eval_scores.
  destruct d; cbn [take getFullYear getMonth getDate field]; unfold new_Date; cbn [nth];
    reflexivity.
Qed.



Section Dependents.
Local Open Scope nat_scope.

Variable m : gmap string (list (option string)).
Hypothesis no_undefined : m !! "undefined"%string = None.

Lemma elem_of_concat_entries (to_process : list (option string)) :
  forall acc x,
    x ∈ foldl (concat_entry m) acc to_process
    <-> x ∈ acc
        \/ exists w, w ∈ to_process
             /\ match m !! property_key w with
                | Some l => x ∈ l
                | None => x = None
                end.
Proof.
  induction to_process as [| c tp IH]; intros acc x; cbn [foldl].
  - split; [auto |]. intros [H | (w & Hw & _)]; [exact H |].
    apply elem_of_nil in Hw. contradiction.
  - rewrite IH. unfold concat_entry. split.
    + intros [H | (w & Hw & Hx)].
      * destruct (m !! property_key c) as [l |] eqn:E; apply elem_of_app in H as [H | H]; auto;
          right; exists c; rewrite E; (split; [left |]); auto.
        apply list_elem_of_singleton in H. exact H.
      * right. exists w. split; [right |]; auto.
    + intros [H | (w & Hw & Hx)].
      * left. destruct (m !! property_key c); apply elem_of_app; auto.
      * apply elem_of_cons in Hw as [-> | Hw].
        -- left. destruct (m !! property_key c); apply elem_of_app; right; auto.
           apply list_elem_of_singleton. exact Hx.
        -- right. exists w. auto.
Qed.

(** A defined id among the values read in a turn is listed under a
    defined id of [to_process]. *)
Lemma some_in_deps to_process v :
  Some v ∈ foldl (concat_entry m) [] to_process
  <-> exists w, Some w ∈ to_process /\ depends_on m w v.
Proof.
  rewrite elem_of_concat_entries. split.
  - intros [H | (w & Hw & Hx)]; [apply elem_of_nil in H; contradiction |].
    destruct w as [w |]; cbn [property_key] in Hx.
    + exists w. split; [exact Hw |].
      destruct (m !! w) as [l |] eqn:E; [| discriminate Hx]. exists l. auto.
    + rewrite no_undefined in Hx. discriminate Hx.
  - intros (w & Hw & l & E & Hl). right. exists (Some w). split; [exact Hw |].
    cbn [property_key]. rewrite E. exact Hl.
Qed.

Lemma elem_of_filter_Boolean out v :
  v ∈ filter_Boolean out <-> truthy_string v = true /\ Some v ∈ out.
Proof.
  unfold filter_Boolean. rewrite list_elem_of_omap. split.
  - intros ([s |] & Hs & E); [| discriminate E].
    destruct (truthy_string s) eqn:T; [| discriminate E].
    injection E as <-. auto.
  - intros [T H]. exists (Some v). rewrite T. auto.
Qed.

Lemma elem_of_to_process' to_process x :
  x ∈ filter (fun d => includes to_process d = false) (foldl (concat_entry m) [] to_process)
  <-> x ∈ foldl (concat_entry m) [] to_process /\ x ∉ to_process.
Proof.
  rewrite list_elem_of_filter. unfold includes.
  rewrite bool_decide_eq_false. tauto.
Qed.

Variable task_id : string.


Lemma closing_expand out to_process :
  closing m task_id out to_process ->
  closing m task_id (expand m (out, to_process)).1 (expand m (out, to_process)).2.
Proof.
  intros (S1 & S2 & C). cbn [expand fst snd].
  assert (D : forall v, Some v ∈ foldl (concat_entry m) [] to_process ->
                        tc (depends_on m) task_id v).
  { intros v Hv. apply some_in_deps in Hv as (w & Hw & R).
    apply S2 in Hw. apply rtc_tc in Hw as [<- | Hw]; [apply tc_once, R |].
    eapply tc_r; eauto. }
  split; [| split].
  - intros v Hv. apply elem_of_app in Hv as [Hv | Hv]; auto.
  - intros v Hv. apply elem_of_to_process' in Hv as [Hv _]. apply tc_rtc, D, Hv.
  - intros v Hv.
    destruct (C v Hv) as [Ho | (w & Hw & T)]; [left; apply elem_of_app; auto |].
    clear Hv. revert Hw.
    induction T as [w v R | w w1 v R T IH]; intros Hw.
    + left. apply elem_of_app. right. apply some_in_deps. eauto.
    + assert (H1 : Some w1 ∈ foldl (concat_entry m) [] to_process)
        by (apply some_in_deps; eauto).
      destruct (decide (Some w1 ∈ to_process)) as [Hin | Hout]; [auto |].
      right. exists w1. split; [| exact T].
      apply elem_of_to_process'. auto.
Qed.

Lemma dependents_loop_closure fuel :
  forall out to_process res,
    closing m task_id out to_process ->
    dependents_loop fuel m out to_process = Some res ->
    forall v, v ∈ res <-> truthy_string v = true /\ tc (depends_on m) task_id v.
Proof.
  induction fuel as [| fuel IH]; intros out to_process res Hc H v.
  - destruct to_process; [| discriminate H]. cbn in H. injection H as <-.
    rewrite elem_of_filter_Boolean. destruct Hc as (S1 & _ & C).
    split; intros [T Hv]; split; auto.
    destruct (C v Hv) as [? | (w & Hw & _)]; [assumption |].
    apply elem_of_nil in Hw. contradiction.
  - destruct to_process as [| c tp].
    + cbn in H. injection H as <-.
      rewrite elem_of_filter_Boolean. destruct Hc as (S1 & _ & C).
      split; intros [T Hv]; split; auto.
      destruct (C v Hv) as [? | (w & Hw & _)]; [assumption |].
      apply elem_of_nil in Hw. contradiction.
    + cbn [dependents_loop] in H.
      pose proof (closing_expand _ _ Hc) as Hc'.
      destruct (expand m (out, c :: tp)) as [out' tp'].
      eapply IH; eauto.
Qed.

Lemma closing_start : closing m task_id [] [Some task_id].
Proof.
  split; [| split].
  - intros v Hv. apply elem_of_nil in Hv. contradiction.
  - intros v Hv. apply list_elem_of_singleton in Hv. injection Hv as ->. reflexivity.
  - intros v Hv. right. exists task_id. split; [apply list_elem_of_singleton; reflexivity | exact Hv].
Qed.

(** *** Forward maps without cycles *)

Hypothesis acyclic : forall x, ~ tc (depends_on m) x x.

Lemma depends_on_dom u v : depends_on m u v -> u ∈ dom m.
Proof. intros (l & E & _). apply elem_of_dom. eauto. Qed.

Lemma nsteps_bound n x y :
  nsteps (depends_on m) n x y ->
  forall S : gset string,
    (forall z, z ∈ S -> tc (depends_on m) z x) -> S ⊆ dom m ->
    size S + n <= size (dom m).
Proof.
  induction 1 as [x | n x x1 y R N IH]; intros S HS Hd.
  - rewrite Nat.add_0_r. apply subseteq_size, Hd.
  - assert (Hx : x ∉ S) by (intros Hx; apply (acyclic x), HS, Hx).
    assert (Hs : size ({[x]} ∪ S) = Datatypes.S (size S)).
    { rewrite size_union by set_solver. rewrite size_singleton. reflexivity. }
    assert (IH' : size ({[x]} ∪ S) + n <= size (dom m)).
    { apply IH.
      - intros z Hz. apply elem_of_union in Hz as [Hz | Hz].
        + apply elem_of_singleton in Hz as ->. apply tc_once, R.
        + eapply tc_r; eauto.
      - apply union_subseteq. split; [| exact Hd].
        apply singleton_subseteq_l. eapply depends_on_dom, R. }
    lia.
Qed.


Lemma layered_only_undefined k to_process :
  layered m task_id k to_process -> size (dom m) < k -> forall x, x ∈ to_process -> x = None.
Proof.
  intros [L _] Hk [v |] Hx; [| reflexivity].
  pose proof (nsteps_bound _ _ _ (L v Hx) ∅) as B.
  rewrite size_empty in B.
  assert (k <= size (dom m)); [| lia].
  apply B; set_solver.
Qed.

Lemma layered_expand k to_process :
  layered m task_id k to_process -> layered m task_id (S k) (expand m ([], to_process)).2.
Proof.
  intros L. cbn [expand snd]. split.
  - intros v Hv. apply elem_of_to_process' in Hv as [Hv _].
    apply some_in_deps in Hv as (w & Hw & R).
    eapply nsteps_r; [apply L, Hw | exact R].
  - intros Hk.
    pose proof (layered_only_undefined _ _ L ltac:(lia)) as U.
    apply elem_of_nil_inv. intros x Hx.
    apply elem_of_to_process' in Hx as [Hx Hn].
    apply elem_of_concat_entries in Hx as [Hx | (w & Hw & Hx)];
      [apply elem_of_nil in Hx; contradiction |].
    pose proof (U w Hw) as ->. cbn [property_key] in Hx. rewrite no_undefined in Hx.
    subst x. contradiction.
Qed.

Lemma expand_to_process out to_process :
  (expand m (out, to_process)).2 = (expand m ([], to_process)).2.
Proof. reflexivity. Qed.

Lemma dependents_loop_returns fuel :
  forall k out to_process,
    layered m task_id k to_process -> size (dom m) + 2 <= k + fuel ->
    exists res, dependents_loop fuel m out to_process = Some res.
Proof.
  induction fuel as [| fuel IH]; intros k out to_process L Hk.
  - destruct L as [_ L]. rewrite L by lia. cbn. eauto.
  - destruct to_process as [| c tp]; [cbn; eauto |].
    cbn [dependents_loop].
    pose proof (layered_expand _ _ L) as L'.
    rewrite <- (expand_to_process out) in L'.
    destruct (expand m (out, c :: tp)) as [out' tp'].
    apply (IH (S k)); [exact L' | lia].
Qed.

Lemma layered_start : layered m task_id 0 [Some task_id].
Proof.
  split.
  - intros v Hv. apply list_elem_of_singleton in Hv. injection Hv as ->. constructor.
  - lia.
Qed.

End Dependents.

Section Project.

Lemma project_map_edges u v :
  depends_on project_map u v -> u = "P"%string /\ v <> "P"%string.
Proof.
  intros (l & Hl & Hv). unfold project_map in Hl.
  destruct (decide (u = "P"%string)) as [-> | Hne].
  - rewrite lookup_insert_eq in Hl. injection Hl as <-. split; [reflexivity |].
    intros ->. apply elem_of_cons in Hv as [C | Hv]; [discriminate C |].
    apply list_elem_of_singleton in Hv. discriminate Hv.
  - rewrite lookup_insert_ne, lookup_empty in Hl by congruence. discriminate Hl.
Qed.

Lemma project_map_acyclic x : ~ tc (depends_on project_map) x x.
Proof.
  assert (H : forall u v, tc (depends_on project_map) u v -> u = "P"%string /\ v <> "P"%string).
  { induction 1 as [u v H | u v w H _ IH]; [exact (project_map_edges u v H) |].
    destruct (project_map_edges u v H) as [-> _]. split; [reflexivity | apply IH]. }
  intros C. destruct (H x x C) as [-> N]. apply N. reflexivity.
Qed.

End Project.





Section Maps.

Lemma register_entries t ds :
  forall (m : gmap string (list (option string))) d,
    default [] (foldl (register t) m ds !! d)
    = default [] (m !! d) ++ ((fun _ => id t) <$> filter (fun d' => d' = d) ds).
Proof.
  induction ds as [| c ds IH]; intros m d; cbn [foldl].
  - rewrite filter_nil. cbn. rewrite app_nil_r. reflexivity.
  - rewrite IH. unfold register. rewrite filter_cons.
    destruct (decide (c = d)) as [-> | Hne].
    + rewrite lookup_insert_eq. cbn. rewrite <- app_assoc. reflexivity.
    + rewrite lookup_insert_ne by exact Hne. reflexivity.
Qed.

Lemma register_keys t ds :
  forall (m : gmap string (list (option string))) d,
    foldl (register t) m ds !! d = None <-> m !! d = None /\ d ∉ ds.
Proof.
  induction ds as [| c ds IH]; intros m d; cbn [foldl].
  - split; [intros H; split; [exact H | apply not_elem_of_nil] | tauto].
  - rewrite IH. unfold register. rewrite not_elem_of_cons.
    destruct (decide (c = d)) as [-> | Hne].
    + rewrite lookup_insert_eq. split; [intros [C _]; discriminate C | intros (_ & C & _); congruence].
    + rewrite lookup_insert_ne by exact Hne. split; [intros [? ?]; auto | intros (? & ? & ?); auto].
Qed.

Lemma setup_dependencies_from_entries tasks :
  forall m m' d,
    setup_dependencies_from m tasks = Some m' ->
    default [] (m' !! d) = default [] (m !! d) ++ dependents_of tasks d
    /\ (m' !! d = None <-> m !! d = None /\ dependents_of tasks d = []).
Proof.
  induction tasks as [| t rest IH]; intros m m' d H; cbn [setup_dependencies_from] in H.
  - injection H as <-. unfold dependents_of. cbn. rewrite app_nil_r. tauto.
  - destruct (deps_iter (dependencies t)) as [ds |] eqn:D; [| discriminate H]. cbn in H.
    destruct (IH _ _ d H) as [E K].
    unfold dependents_of in *. cbn [fmap list_fmap concat]. rewrite D.
    change (default [] (Some ds)) with ds.
    split.
    + rewrite E, register_entries, <- app_assoc. reflexivity.
    + rewrite K, register_keys. split.
      * intros ((Hm & Hn) & Hr). split; [exact Hm |].
        rewrite Hr, app_nil_r.
        assert (F : filter (fun d' => d' = d) ds = []).
        { apply elem_of_nil_inv. intros x Hx. apply list_elem_of_filter in Hx as [-> Hx].
          contradiction. }
        rewrite F. reflexivity.
      * intros (Hm & Hr). apply app_eq_nil in Hr as [Hf Hr].
        repeat split; auto.
        intros Hd. apply fmap_nil_inv in Hf.
        assert (Hx : d ∈ filter (fun d' => d' = d) ds) by (apply list_elem_of_filter; auto).
        rewrite Hf in Hx. apply elem_of_nil in Hx. exact Hx.
Qed.

End Maps.

(** X13.  When [setup_dependencies] returns, the entry of the forward map
    for a dependency [d] lists the ids of the tasks that name [d], in the
    order of the tasks and once for every time they name it, and [d] has
    no entry exactly when no task names it. *)
Theorem setup_dependencies_lookup tasks m :
  setup_dependencies tasks = Some m ->
  forall d,
    default [] (m !! d) = dependents_of tasks d
    /\ (m !! d = None <-> dependents_of tasks d = []).
Proof.
  intros H d. destruct (setup_dependencies_from_entries _ _ _ d H) as [E K].
  rewrite lookup_empty in E, K. cbn in E. split; [exact E | tauto].
Qed.

(** The theorem on the project, for its entry. *)
Lemma setup_dependencies_lookup_witness :
  default [] (project_map !! "P"%string) = dependents_of project_tasks "P"
  /\ (project_map !! "P"%string = None <-> dependents_of project_tasks "P" = []).
Proof.
  apply (setup_dependencies_lookup project_tasks project_map).
  vm_compute. reflexivity.
Defined.

Section Ancestors.

Lemma add_ancestor_entries t (m : gmap string (list string)) d k x :
  x ∈ default [] (add_ancestor t m d !! k)
  <-> x ∈ default [] (m !! k)
      \/ (k = property_key (id t) /\ (x = d \/ x ∈ default [] (m !! d))).
Proof.
  unfold add_ancestor.
  set (key := property_key (id t)).
  set (m1 := <[key := default [] (m !! key) ++ [d]]> m).
  assert (E1 : forall k', x ∈ default [] (m1 !! k')
                          <-> x ∈ default [] (m !! k') \/ (k' = key /\ x = d)).
  { intros k'. subst m1. destruct (decide (key = k')) as [<- | Hne].
    - rewrite lookup_insert_eq. cbn. rewrite elem_of_app, list_elem_of_singleton. tauto.
    - rewrite lookup_insert_ne by exact Hne. split; [auto | intros [? | [? _]]; congruence]. }
  destruct (m1 !! d) as [above |] eqn:Ea.
  - assert (Ha : x ∈ above <-> x ∈ default [] (m !! d) \/ (d = key /\ x = d)).
    { rewrite <- E1, Ea. reflexivity. }
    destruct (decide (key = k)) as [<- | Hne].
    + rewrite lookup_insert_eq. cbn. rewrite elem_of_app, E1, Ha. tauto.
    + rewrite lookup_insert_ne by exact Hne. rewrite E1.
      split; [tauto | intros [? | [? _]]; [auto | congruence]].
  - rewrite E1.
    assert (Hd : default [] (m !! d) = []).
    { destruct (decide (key = d)) as [<- | Hne].
      - subst m1. rewrite lookup_insert_eq in Ea. discriminate Ea.
      - subst m1. rewrite lookup_insert_ne in Ea by exact Hne. rewrite Ea. reflexivity. }
    rewrite Hd. rewrite elem_of_nil. tauto.
Qed.

Lemma add_ancestors_entries t ds :
  forall (m : gmap string (list string)) k x,
    x ∈ default [] (foldl (add_ancestor t) m ds !! k) ->
    x ∈ default [] (m !! k)
    \/ (k = property_key (id t)
        /\ exists d, d ∈ ds
             /\ (x = d \/ x ∈ default [] (m !! d)
                 \/ (d = property_key (id t) /\ x ∈ ds))).
Proof.
  induction ds as [| c ds IH]; intros m k x H; cbn [foldl] in H; [auto |].
  apply IH in H as [H | (-> & d & Hd & H)].
  - apply add_ancestor_entries in H as [H | (-> & [-> | H])]; [auto | |].
    + right. split; [reflexivity |]. exists c. split; [left | auto].
    + right. split; [reflexivity |]. exists c. split; [left | auto].
  - destruct H as [-> | [H | (-> & H)]].
    + right. split; [reflexivity |]. exists d. split; [right; exact Hd | auto].
    + apply add_ancestor_entries in H as [H | (-> & [-> | H])].
      * right. split; [reflexivity |]. exists d. split; [right; exact Hd | auto].
      * right. split; [reflexivity |]. exists (property_key (id t)).
        split; [right; exact Hd |]. right. right. split; [reflexivity | left].
      * right. split; [reflexivity |]. exists c. split; [left | auto].
    + right. split; [reflexivity |]. exists (property_key (id t)).
      split; [right; exact Hd |]. right. right. split; [reflexivity | right; exact H].
Qed.

Lemma add_ancestors_grow t ds :
  forall (m : gmap string (list string)) k x,
    x ∈ default [] (m !! k) \/ (k = property_key (id t) /\ x ∈ ds) ->
    x ∈ default [] (foldl (add_ancestor t) m ds !! k).
Proof.
  induction ds as [| c ds IH]; intros m k x H; cbn [foldl].
  - destruct H as [H | [_ H]]; [exact H | apply elem_of_nil in H; contradiction].
  - apply IH. destruct H as [H | [-> H]].
    + left. apply add_ancestor_entries. auto.
    + apply elem_of_cons in H as [-> | H]; [| auto].
      left. apply add_ancestor_entries. auto.
Qed.

Lemma setup_ancestors_from_grow tasks :
  forall m m' k x,
    setup_ancestors_from m tasks = Some m' ->
    x ∈ default [] (m !! k)
    \/ (exists t ds, t ∈ tasks /\ property_key (id t) = k
                     /\ deps_iter (dependencies t) = Some ds /\ x ∈ ds) ->
    x ∈ default [] (m' !! k).
Proof.
  induction tasks as [| t rest IH]; intros m m' k x H Hx; cbn [setup_ancestors_from] in H.
  - injection H as <-. destruct Hx as [Hx | (t & ds & Ht & _)]; [exact Hx |].
    apply elem_of_nil in Ht. contradiction.
  - destruct (deps_iter (dependencies t)) as [ds |] eqn:D; [| discriminate H]. cbn in H.
    apply (IH _ _ k x H).
    destruct Hx as [Hx | (u & ds' & Hu & Hk & Du & Hd)].
    + left. apply add_ancestors_grow. auto.
    + apply elem_of_cons in Hu as [-> | Hu].
      * left. apply add_ancestors_grow. right. rewrite D in Du. injection Du as <-. auto.
      * right. exists u, ds'. auto.
Qed.

Lemma setup_ancestors_from_sound all tasks :
  forall m m',
    tasks ⊆ all ->
    setup_ancestors_from m tasks = Some m' ->
    (forall k x, x ∈ default [] (m !! k) -> tc (lists all) k x) ->
    forall k x, x ∈ default [] (m' !! k) -> tc (lists all) k x.
Proof.
  induction tasks as [| t rest IH]; intros m m' Hsub H Hm; cbn [setup_ancestors_from] in H.
  - injection H as <-. exact Hm.
  - destruct (deps_iter (dependencies t)) as [ds |] eqn:D; [| discriminate H]. cbn in H.
    assert (Ht : t ∈ all) by (apply Hsub; left).
    assert (L : forall d, d ∈ ds -> lists all (property_key (id t)) d).
    { intros d Hd. exists t, ds. auto. }
    apply (IH _ _ ltac:(set_solver) H).
    intros k x Hx. apply add_ancestors_entries in Hx as [Hx | (-> & d & Hd & Hx)]; [auto |].
    destruct Hx as [-> | [Hx | (-> & Hx)]].
    + apply tc_once, L, Hd.
    + eapply tc_l; [apply L, Hd | apply Hm, Hx].
    + apply tc_once, L, Hx.
Qed.

End Ancestors.

(** X14.  When [setup_ancestors] returns, every dependency of a task is
    listed in the ancestor map under the task's id, and whatever the map
    lists under a key is reached from that key through the dependencies of
    the tasks, in one step or more. *)
Theorem setup_ancestors_lists tasks a :
  setup_ancestors tasks = Some a ->
  (forall t ds d, t ∈ tasks -> deps_iter (dependencies t) = Some ds -> d ∈ ds ->
                  d ∈ default [] (a !! property_key (id t)))
  /\ (forall k l x, a !! k = Some l -> x ∈ l -> tc (lists tasks) k x).
Proof.
  intros H. split.
  - intros t ds d Ht D Hd. eapply setup_ancestors_from_grow; [exact H |].
    right. exists t, ds. auto.
  - intros k l x Hk Hx.
    eapply (setup_ancestors_from_sound tasks tasks ∅ a); [set_solver | exact H | |].
    + intros k' x' C. rewrite lookup_empty in C. apply elem_of_nil in C. contradiction.
    + rewrite Hk. exact Hx.
Qed.

(** The theorem on the project. *)
Lemma setup_ancestors_lists_witness :
  (forall t ds d, t ∈ project_tasks -> deps_iter (dependencies t) = Some ds -> d ∈ ds ->
                  d ∈ default [] (project_ancestors !! property_key (id t)))
  /\ (forall k l x, project_ancestors !! k = Some l -> x ∈ l -> tc (lists project_tasks) k x).
Proof.
  apply (setup_ancestors_lists project_tasks project_ancestors).
  vm_compute. reflexivity.
Defined.

Section Climbing.
Local Open Scope nat_scope.

Variable ancestor_map : gmap string (list string).
Variable visible_bars : list Bar.
Variable task_id : string.

Lemma get_bar_id bars i n :
  get_bar bars i = Some n -> Geometry.task_id <$> bars !! n = Some i.
Proof.
  revert n. induction bars as [| b rest IH]; intros n H; cbn [get_bar] in H; [discriminate H |].
  destruct (String.eqb (Geometry.task_id b) i) eqn:E.
  - injection H as <-. apply String.eqb_eq in E. cbn. congruence.
  - destruct (get_bar rest i) as [k |] eqn:G; [| discriminate H].
    cbn in H. injection H as <-. cbn. apply IH. reflexivity.
Qed.

Lemma NoDup_bars (L : list string) :
  NoDup L -> NoDup (omap (get_bar visible_bars) L).
Proof.
  induction 1 as [| d L Hd HL IH]; cbn [omap list_omap]; [constructor |].
  destruct (get_bar visible_bars d) as [n |] eqn:G; [| exact IH].
  constructor; [| exact IH].
  intros Hn. apply list_elem_of_omap in Hn as (d' & Hd' & G').
  apply get_bar_id in G, G'. rewrite G in G'. injection G' as ->. contradiction.
Qed.

Lemma elem_of_entries (to_process : list string) :
  forall acc x,
    x ∈ foldl (fun acc curr => acc ++ default [] (ancestor_map !! curr)) acc to_process
    <-> x ∈ acc \/ exists w, w ∈ to_process /\ above ancestor_map w x.
Proof.
  induction to_process as [| c tp IH]; intros acc x; cbn [foldl].
  - split; [auto |]. intros [H | (w & Hw & _)]; [exact H |].
    apply elem_of_nil in Hw. contradiction.
  - rewrite IH, elem_of_app. split.
    + intros [[H | H] | (w & Hw & Hx)]; [auto | |].
      * right. exists c. split; [left |].
        destruct (ancestor_map !! c) as [l |] eqn:E; [exists l; auto |].
        apply elem_of_nil in H. contradiction.
      * right. exists w. split; [right |]; auto.
    + intros [H | (w & Hw & l & E & Hx)]; [auto |].
      apply elem_of_cons in Hw as [-> | Hw].
      * left. right. rewrite E. exact Hx.
      * right. exists w. split; [exact Hw |]. exists l. auto.
Qed.

(** The visits of one turn: the ids not yet met are appended to
    [to_process] in order, their bars to [out]. *)
Lemma visits_spec deps :
  forall out to_process processedTasks,
    exists new,
      foldl (visit visible_bars) (out, to_process, processedTasks) deps
      = (out ++ omap (get_bar visible_bars) new, to_process ++ new,
         list_to_set new ∪ processedTasks)
      /\ NoDup new
      /\ forall d, d ∈ new <-> d ∈ deps /\ d ∉ processedTasks.
Proof.
  induction deps as [| c deps IH]; intros out tp pr; cbn [foldl].
  - exists []. cbn. rewrite !app_nil_r, union_empty_l_L.
    split; [reflexivity |]. split; [constructor |].
    intros d. rewrite elem_of_nil. tauto.
  - unfold visit at 2. destruct (bool_decide (c ∈ pr)) eqn:B.
    + apply bool_decide_eq_true in B.
      destruct (IH out tp pr) as (new & E & N & M). exists new.
      split; [exact E |]. split; [exact N |].
      intros d. rewrite M, elem_of_cons. split; [tauto |].
      intros [[-> | ?] ?]; [contradiction | auto].
    + apply bool_decide_eq_false in B.
      destruct (IH (match get_bar visible_bars c with
                    | Some taskObject => out ++ [taskObject]
                    | None => out
                    end) (tp ++ [c]) ({[c]} ∪ pr)) as (new & E & N & M).
      exists (c :: new). split; [| split].
      * rewrite E. cbn [omap list_omap list_to_set foldr].
        f_equal; [f_equal |].
        -- destruct (get_bar visible_bars c); [rewrite <- app_assoc |]; reflexivity.
        -- rewrite <- app_assoc. reflexivity.
        -- apply set_eq. intros x.
           rewrite !elem_of_union, elem_of_singleton. tauto.
      * constructor; [| exact N]. intros Hc. apply M in Hc as [_ Hc].
        apply Hc, elem_of_union. left. apply elem_of_singleton. reflexivity.
      * intros d. rewrite elem_of_cons, M, elem_of_cons, elem_of_union, elem_of_singleton.
        destruct (decide (d = c)) as [-> | Hne]; tauto.
Qed.


Lemma climbing_climb out c tp pr :
  climbing ancestor_map visible_bars task_id (out, c :: tp, pr) ->
  climbing ancestor_map visible_bars task_id (climb ancestor_map visible_bars (out, c :: tp, pr)).
Proof.
  intros (I1 & I2 & (L & NL & ML & EL) & I5 & I6).
  unfold climb.
  set (deps := foldl (fun acc curr => acc ++ default [] (ancestor_map !! curr)) [] (c :: tp)).
  assert (Hdeps : forall x, x ∈ deps <-> exists w, w ∈ c :: tp /\ above ancestor_map w x).
  { intros x. subst deps. rewrite elem_of_entries, elem_of_nil. tauto. }
  destruct (visits_spec deps out (c :: tp) pr) as (new & E & N & M).
  rewrite E. cbn [app tail].
  assert (Dtc : forall d, d ∈ deps -> tc (above ancestor_map) task_id d).
  { intros d Hd. apply Hdeps in Hd as (w & Hw & A).
    apply I1 in Hw. apply rtc_tc in Hw as [<- | Hw]; [apply tc_once, A |].
    eapply tc_r; eauto. }
  assert (Hpr : forall d, d ∈ list_to_set new ∪ pr <-> d ∈ pr \/ d ∈ deps).
  { intros d. rewrite elem_of_union, elem_of_list_to_set, M.
    destruct (decide (d ∈ pr)); tauto. }
  split; [| split; [| split; [| split]]].
  - intros d Hd. apply elem_of_app in Hd as [Hd | Hd].
    + apply I1. right. exact Hd.
    + apply tc_rtc, Dtc, M, Hd.
  - intros d Hd. apply Hpr in Hd as [Hd | Hd]; auto.
  - exists (L ++ new). split; [| split].
    + apply NoDup_app. split; [exact NL |]. split; [| exact N].
      intros d Hd Hd'. apply ML in Hd. apply M in Hd' as [_ Hd']. contradiction.
    + intros d. rewrite elem_of_app, ML, elem_of_union, elem_of_list_to_set. tauto.
    + rewrite omap_app, EL. reflexivity.
  - intros v Hv.
    assert (Claim : forall x v, tc (above ancestor_map) x v ->
                      x ∈ c :: tp \/ x ∈ pr ->
                      v ∈ list_to_set new ∪ pr
                      \/ exists w, w ∈ tp ++ new /\ tc (above ancestor_map) w v).
    { clear v Hv. intros x v T.
      induction T as [x v A | x x1 v A T IH]; intros Hx.
      - left. apply Hpr.
        destruct Hx as [Hx | Hx]; [right; apply Hdeps; eauto |].
        destruct (I6 x Hx) as [Hx' | Hs]; [right; apply Hdeps; eauto | left; auto].
      - assert (H1 : x1 ∈ pr \/ x1 ∈ deps).
        { destruct Hx as [Hx | Hx]; [right; apply Hdeps; eauto |].
          destruct (I6 x Hx) as [Hx' | Hs]; [right; apply Hdeps; eauto | left; auto]. }
        destruct (decide (x1 ∈ pr)) as [Hp | Hp]; [apply IH; auto |].
        destruct H1 as [? | H1]; [contradiction |].
        right. exists x1. split; [| exact T].
        apply elem_of_app. right. apply M. auto. }
    destruct (I5 v Hv) as [Hp | (w & Hw & T)].
    + left. apply Hpr. auto.
    + apply (Claim w v T). auto.
  - intros d Hd. apply Hpr in Hd as [Hd | Hd].
    + destruct (I6 d Hd) as [Ht | Hs].
      * right. intros v A. apply Hpr. right. apply Hdeps. eauto.
      * right. intros v A. apply Hpr. auto.
    + destruct (decide (d ∈ pr)) as [Hp | Hp].
      * destruct (I6 d Hp) as [Ht | Hs].
        -- right. intros v A. apply Hpr. right. apply Hdeps. eauto.
        -- right. intros v A. apply Hpr. auto.
      * left. apply elem_of_app. right. apply M. auto.
Qed.

Lemma parents_loop_exact fuel :
  forall st out,
    climbing ancestor_map visible_bars task_id st ->
    parents_loop fuel ancestor_map visible_bars st = Some out ->
    NoDup out
    /\ forall n, n ∈ out
         <-> exists d, tc (above ancestor_map) task_id d /\ get_bar visible_bars d = Some n.
Proof.
  assert (Done : forall out pr,
             climbing ancestor_map visible_bars task_id (out, [], pr) ->
             NoDup out
             /\ forall n, n ∈ out
                  <-> exists d, tc (above ancestor_map) task_id d
                                /\ get_bar visible_bars d = Some n).
  { intros out pr (I1 & I2 & (L & NL & ML & EL) & I5 & I6). subst out.
    split; [apply NoDup_bars, NL |].
    intros n. rewrite list_elem_of_omap. split.
    - intros (d & Hd & G). exists d. split; [apply I2, ML, Hd | exact G].
    - intros (d & T & G). exists d. split; [| exact G]. apply ML.
      destruct (I5 d T) as [? | (w & Hw & _)]; [assumption |].
      apply elem_of_nil in Hw. contradiction. }
  induction fuel as [| fuel IH]; intros [[out tp] pr] res Hc H.
  - destruct tp; [| discriminate H]. cbn in H. injection H as <-. eapply Done, Hc.
  - destruct tp as [| c tp].
    + cbn in H. injection H as <-. eapply Done, Hc.
    + cbn [parents_loop] in H. eapply IH; [| exact H]. apply climbing_climb, Hc.
Qed.

Lemma climbing_start : climbing ancestor_map visible_bars task_id ([], [task_id], ∅).
Proof.
  split; [| split; [| split; [| split]]].
  - intros d Hd. apply list_elem_of_singleton in Hd as ->. reflexivity.
  - intros d Hd. apply elem_of_empty in Hd. contradiction.
  - exists []. split; [constructor |]. split; [| reflexivity].
    intros d. rewrite elem_of_nil, elem_of_empty. tauto.
  - intros v Hv. right. exists task_id. split; [apply list_elem_of_singleton; reflexivity | exact Hv].
  - intros d Hd. apply elem_of_empty in Hd. contradiction.
Qed.

End Climbing.

(** X15.  [get_all_parent_tasks] returns on every ancestor map, after at
    most twice as many turns as the map lists ids, plus one.  The result
    has no bar twice, and holds exactly the bars of the ids that the map
    reaches from [task_id] in one step or more. *)
Theorem get_all_parent_tasks_exact ancestor_map visible_bars task_id :
  exists out,
    get_all_parent_tasks (2 * size (listed ancestor_map) + 1) ancestor_map visible_bars task_id
    = Some out
    /\ NoDup out
    /\ forall n, n ∈ out
         <-> exists d, tc (above ancestor_map) task_id d /\ get_bar visible_bars d = Some n.
Proof.
  destruct (parents_loop_returns ancestor_map visible_bars
              (2 * size (listed ancestor_map) + 1) ([], [task_id], ∅)) as (out & H).
  { unfold measure. cbn [fst snd length]. rewrite difference_empty_L. lia. }
  exists out. split; [exact H |].
  eapply parents_loop_exact; [apply climbing_start | exact H].
Qed.

Section MoreSnapping.

Lemma get_snap_position_quantum o (cw : Qc) dx :
  column_width o = Num.Fin cw -> (0 < cw)%Qc ->
  exists q h : Qc,
    quantum o = Num.Fin q /\ (0 < q)%Qc /\ (this h == this q / 2)%Q
    /\ get_snap_position o dx = snap_to (Num.Fin q) (Num.Fin h) dx.
Proof.
  intros Hcw Hpos.
  unfold quantum, get_snap_position, snap_to. rewrite Hcw.
  assert (D : forall z : Z, (0 < z)%Z ->
            Num.div (Num.Fin cw) (Num.px z) = Num.Fin (cw / Q2Qc (inject_Z z))).
  { intros z Hz. unfold Num.div, Num.px.
    rewrite positive_not_zero; [reflexivity |].
    unfold Qclt. rewrite !this_Q2Qc.
    change (inject_Z 0 < inject_Z z)%Q. rewrite <- Zlt_Qlt. exact Hz. }
  assert (P : forall z : Z, (0 < z)%Z -> (0 < cw / Q2Qc (inject_Z z))%Qc).
  { intros z Hz. unfold Qclt in *. rewrite this_div, !this_Q2Qc.
    change (this 0%Qc) with 0%Q in *.
    apply Qlt_shift_div_l;
      [change (inject_Z 0 < inject_Z z)%Q; rewrite <- Zlt_Qlt; exact Hz
      | rewrite Qmult_0_l; exact Hpos]. }
  assert (H2 : forall z : Z, (0 < z)%Z ->
            (this (cw / Q2Qc (inject_Z (2 * z)))%Qc == this (cw / Q2Qc (inject_Z z))%Qc / 2)%Q).
  { intros z Hz. rewrite !this_div, !this_Q2Qc, inject_Z_mult.
    assert (~ inject_Z z == 0)%Q.
    { intros C. unfold Qeq in C. cbn in C. lia. }
    change (inject_Z 2) with 2%Q. field. exact H. }
  destruct (view_is o "Week").
  - rewrite (D 7%Z), (D 14%Z) by lia.
    exists (cw / Q2Qc (inject_Z 7))%Qc, (cw / Q2Qc (inject_Z 14))%Qc.
    split; [reflexivity |]. split; [apply P; lia |]. split; [apply (H2 7%Z); lia | reflexivity].
  - destruct (view_is o "Month").
    + rewrite (D 30%Z), (D 60%Z) by lia.
      exists (cw / Q2Qc (inject_Z 30))%Qc, (cw / Q2Qc (inject_Z 60))%Qc.
      split; [reflexivity |]. split; [apply P; lia |].
      split; [apply (H2 30%Z); lia | reflexivity].
    + rewrite (D 2%Z) by lia.
      exists cw, (cw / Q2Qc (inject_Z 2))%Qc.
      split; [reflexivity |]. split; [exact Hpos |].
      split; [rewrite this_div, this_Q2Qc; reflexivity | reflexivity].
Qed.

Lemma this_opp_eq (a : Qc) : this (- a)%Qc = Qopp (this a).
Proof.
  unfold Qcopp, Q2Qc. cbn [this]. rewrite Qred_opp. f_equal. apply canon.
Qed.

Lemma trunc_opp (a : Qc) : Num.trunc (- a) = (- Num.trunc a)%Z.
Proof.
  unfold Num.trunc. rewrite this_opp_eq. destruct (this a) as [n d]. cbn [Qopp Qnum Qden].
  apply Z.quot_opp_l. lia.
Qed.

Lemma Qc_eq (a b : Qc) : (this a == this b)%Q -> a = b.
Proof. apply Qc_is_canon. Qed.

Lemma rem_opp (x y : Qc) :
  Num.rem (Num.Fin (- x)) (Num.Fin y) = Num.neg (Num.rem (Num.Fin x) (Num.Fin y)).
Proof.
  unfold Num.rem. destruct (Num.is_zero y) eqn:Z; [reflexivity |].
  cbn [Num.neg]. f_equal.
  assert (E : (- x / y = - (x / y))%Qc).
  { apply Qc_eq. rewrite this_opp, !this_div, this_opp.
    unfold Num.is_zero in Z. apply Qeq_bool_neq in Z.
    change (this 0%Qc) with 0%Q in Z. field. exact Z. }
  rewrite E, trunc_opp.
  apply Qc_eq.
  rewrite !this_opp, !this_minus, !this_mult, !this_Q2Qc, this_opp, inject_Z_opp. ring.
Qed.

(** To the left of the start, the snap is the multiple of the quantum
    next to the delta on the side of zero. *)
Lemma snap_core_opp (x q h : Qc) :
  (0 <= x)%Qc -> (0 < q)%Qc -> (this h == this q / 2)%Q ->
  exists (p : Qc) (k : Z),
    snap_to (Num.Fin q) (Num.Fin h) (Num.Fin (- x)) = Num.Fin p
    /\ (k <= 0)%Z
    /\ (this p == inject_Z k * this q)%Q
    /\ (- this x <= this p)%Q
    /\ (this p < - this x + this q)%Q.
Proof.
  intros Hx Hq Hh.
  destruct (rem_bounds x q Hx Hq) as (k & r & Er & K0 & R0 & R1 & Rk).
  unfold snap_to. rewrite rem_opp, Er.
  unfold Qcle, Qclt in *. change (this 0%Qc) with 0%Q in *.
  cbn [Num.lt Num.sub Num.neg Num.add].
  assert (Hhalf : (this q / 2 == this q * (1 # 2))%Q) by field.
  assert (L : Num.Qc_ltb (- r) h = true).
  { apply Qc_ltb_lt. rewrite this_opp. lra. }
  rewrite L.
  eexists. exists (- k)%Z. split; [reflexivity |]. split; [lia |].
  unfold Num.px. rewrite !this_plus, !this_opp, !this_Q2Qc, inject_Z_opp.
  change (inject_Z 0) with 0%Q.
  repeat split; lra.
Qed.

Lemma snap_core_left (dx q h : Qc) :
  (dx <= 0)%Qc -> (0 < q)%Qc -> (this h == this q / 2)%Q ->
  exists (p : Qc) (k : Z),
    snap_to (Num.Fin q) (Num.Fin h) (Num.Fin dx) = Num.Fin p
    /\ (k <= 0)%Z
    /\ (this p == inject_Z k * this q)%Q
    /\ (this dx <= this p)%Q
    /\ (this p < this dx + this q)%Q.
Proof.
  intros Hx Hq Hh.
  assert (Hx' : (0 <= - dx)%Qc).
  { unfold Qcle in *. rewrite this_opp. change (this 0%Qc) with 0%Q in *. lra. }
  destruct (snap_core_opp (- dx) q h Hx' Hq Hh) as (p & k & E & K & M & L & U).
  assert (Edx : (- - dx)%Qc = dx) by (apply Qc_eq; rewrite !this_opp; ring).
  rewrite Edx in E. rewrite this_opp in L, U.
  exists p, k. repeat split; auto; lra.
Qed.

Lemma snap_core_right (dx q h : Qc) :
  (0 <= dx)%Qc -> (0 < q)%Qc -> (this h == this q / 2)%Q ->
  exists (p : Qc) (k : Z),
    snap_to (Num.Fin q) (Num.Fin h) (Num.Fin dx) = Num.Fin p
    /\ (0 <= k)%Z
    /\ (this p == inject_Z k * this q)%Q
    /\ (this dx - this q / 2 < this p)%Q
    /\ (this p <= this dx + this q / 2)%Q.
Proof. apply snap_core. Qed.

(** Two multiples of a positive quantum less than a quantum apart are
    one. *)
Lemma multiples_close (q : Q) (k k' : Z) :
  (0 < q)%Q ->
  (inject_Z k * q - q < inject_Z k' * q)%Q -> (inject_Z k' * q < inject_Z k * q + q)%Q ->
  k' = k.
Proof.
  intros Hq H1 H2.
  assert (A : (inject_Z (k - 1) * q < inject_Z k' * q)%Q).
  { unfold Z.sub. rewrite inject_Z_plus. change (inject_Z (-1)) with (-1)%Q.
    assert (E : ((inject_Z k + -1) * q == inject_Z k * q - q)%Q) by ring.
    rewrite E. exact H1. }
  assert (B : (inject_Z k' * q < inject_Z (k + 1) * q)%Q).
  { rewrite inject_Z_plus. change (inject_Z 1) with 1%Q.
    assert (E : ((inject_Z k + 1) * q == inject_Z k * q + q)%Q) by ring.
    rewrite E. exact H2. }
  apply Qmult_lt_r in A; [| exact Hq]. apply Qmult_lt_r in B; [| exact Hq].
  rewrite <- Zlt_Qlt in A, B. lia.
Qed.

End MoreSnapping.

(** X16.  With a positive column width, [get_snap_position] takes a move
    to the left to a multiple of the quantum that is not to the left of
    the move and less than a quantum to its right: a leftward move is
    never rounded away from zero. *)
Theorem get_snap_position_leftwards o (cw dx : Qc) :
  column_width o = Num.Fin cw -> (0 < cw)%Qc -> (dx <= 0)%Qc ->
  exists (q p : Qc) (k : Z),
    quantum o = Num.Fin q
    /\ get_snap_position o (Num.Fin dx) = Num.Fin p
    /\ (k <= 0)%Z
    /\ (this p == inject_Z k * this q)%Q
    /\ (this dx <= this p)%Q
    /\ (this p < this dx + this q)%Q.
Proof.
  intros Hcw Hpos Hdx.
  destruct (get_snap_position_quantum o cw (Num.Fin dx) Hcw Hpos) as (q & h & Eq & Hq & Hh & ->).
  destruct (snap_core_left dx q h Hdx Hq Hh) as (p & k & E & K & M & L & U).
  exists q, p, k. repeat split; assumption.
Qed.

(** The theorem on a move of 50 pixels to the left, on the Day scale. *)
Lemma get_snap_position_leftwards_witness :
  exists (q p : Qc) (k : Z),
    quantum day_options = Num.Fin q
    /\ get_snap_position day_options (Num.px (-50)) = Num.Fin p
    /\ (k <= 0)%Z
    /\ (this p == inject_Z k * this q)%Q
    /\ (this (Q2Qc (inject_Z (-50))) <= this p)%Q
    /\ (this p < this (Q2Qc (inject_Z (-50))) + this q)%Q.
Proof.
  apply (get_snap_position_leftwards day_options (Q2Qc (inject_Z 38)) (Q2Qc (inject_Z (-50)))).
  - reflexivity.
  - vm_compute. reflexivity.
  - vm_compute. intros C. discriminate C.
Defined.



Section Rest.

Lemma add_px_0 v : Num.add v (Num.px 0) = v.
Proof.
  destruct v as [a | | |]; try reflexivity.
  cbn [Num.add Num.px]. f_equal. apply Qc_eq. rewrite this_plus, this_Q2Qc.
  change (inject_Z 0) with 0%Q. ring.
Qed.

Lemma sub_px_0 v : Num.sub v (Num.px 0) = v.
Proof.
  destruct v as [a | | |]; try reflexivity.
  cbn [Num.sub Num.neg Num.add Num.px]. f_equal. apply Qc_eq.
  rewrite this_plus, this_opp, this_Q2Qc.
  change (inject_Z 0) with 0%Q. ring.
Qed.

Lemma update_attr_same v : update_attr v v = v.
Proof. unfold update_attr. destruct (negb (Num.isNaN v)); reflexivity. Qed.

Lemma snap_zero o (cw q dx : Qc) :
  column_width o = Num.Fin cw -> (0 < cw)%Qc -> quantum o = Num.Fin q ->
  (- this q < this dx)%Q -> (this dx < this q / 2)%Q ->
  get_snap_position o (Num.Fin dx) = Num.px 0.
Proof.
  intros Hcw Hpos Eq Hlo Hhi.
  destruct (get_snap_position_quantum o cw (Num.Fin dx) Hcw Hpos) as (q' & h & Eq' & Hq & Hh & ->).
  rewrite Eq in Eq'. injection Eq' as <-.
  assert (Hq' : (0 < this q)%Q) by exact Hq.
  assert (Hhalf : (this q / 2 == this q * (1 # 2))%Q) by field.
  assert (Z0 : (inject_Z 0 * this q == 0)%Q) by (change (inject_Z 0) with 0%Q; ring).
  destruct (Qclt_le_dec dx 0) as [Hn | Hn].
  - assert (Hn' : (this dx < 0)%Q) by exact Hn.
    destruct (snap_core_left dx q h (Qclt_le_weak _ _ Hn) Hq Hh) as (p & k & -> & _ & M & L & U).
    unfold Num.px. f_equal. apply Qc_eq. rewrite this_Q2Qc, M.
    rewrite (multiples_close (this q) 0 k Hq'); [exact Z0 | |]; rewrite Z0; lra.
  - assert (Hn' : (0 <= this dx)%Q) by exact Hn.
    destruct (snap_core_right dx q h Hn Hq Hh) as (p & k & -> & _ & M & L & U).
    unfold Num.px. f_equal. apply Qc_eq. rewrite this_Q2Qc, M.
    rewrite (multiples_close (this q) 0 k Hq'); [exact Z0 | |]; rewrite Z0; lra.
Qed.

End Rest.



Section Envelope.

Variable visible_bars : list Bar.
Hypothesis finite_bars : forall b, b ∈ visible_bars -> finite_bar b.

Lemma get_bar_lookup i n :
  get_bar visible_bars i = Some n -> exists b, visible_bars !! n = Some b.
Proof.
  intros H. apply get_bar_id in H.
  destruct (visible_bars !! n) as [b |]; [eauto | discriminate H].
Qed.

Lemma bar_with_None i : bar_with visible_bars i = None <-> get_bar visible_bars i = None.
Proof.
  unfold bar_with. destruct (get_bar visible_bars i) as [n |] eqn:G; cbn; [| tauto].
  destruct (get_bar_lookup _ _ G) as [b ->]. split; discriminate.
Qed.

Lemma bar_with_finite i b : bar_with visible_bars i = Some b -> finite_bar b.
Proof.
  unfold bar_with. destruct (get_bar visible_bars i) as [n |]; cbn; [| discriminate].
  intros H. apply finite_bars. eapply list_elem_of_lookup_2, H.
Qed.


Lemma envelope_snoc ids i :
  envelope visible_bars (ids ++ [i])
  = match envelope visible_bars ids, bar_with visible_bars i with
    | Some acc, Some bar => Some (widen acc bar)
    | _, _ => None
    end.
Proof.
  unfold envelope. rewrite foldl_app. cbn [foldl].
  match goal with |- context [foldl ?f ?a ids] => destruct (foldl f a ids) as [[mn mx] |] end;
    [| reflexivity].
  unfold bar_with. cbn.
  destruct (get_bar visible_bars i) as [n |]; cbn; [| reflexivity].
  destruct (visible_bars !! n); reflexivity.
Qed.

Lemma envelope_bundle_snoc ids i :
  envelope_bundle visible_bars (ids ++ [i])
  = match bar_with visible_bars i with
    | Some bar => widen (envelope_bundle visible_bars ids) bar
    | None => envelope_bundle visible_bars ids
    end.
Proof.
  unfold envelope_bundle. rewrite foldl_app. cbn [foldl].
  match goal with |- context [foldl ?f ?a ids] => destruct (foldl f a ids) as [mn mx] end.
  unfold bar_with.
  destruct (get_bar visible_bars i ≫= (visible_bars !!.)); reflexivity.
Qed.


Lemma end_x_finite b : finite_bar b -> exists e : Qc, end_x b = Num.Fin e.
Proof. intros (a & w & Ha & Hw). unfold end_x. rewrite Ha, Hw. cbn. eauto. Qed.

Lemma Qc_ltb_irrefl a : Num.Qc_ltb a a = false.
Proof. apply Qc_ltb_ge. apply Qle_refl. Qed.

Lemma widen_encloses ids acc i bar :
  encloses visible_bars ids acc -> bar_with visible_bars i = Some bar ->
  encloses visible_bars (ids ++ [i]) (widen acc bar).
Proof.
  intros [Hacc Hall] Hbar.
  pose proof (bar_with_finite _ _ Hbar) as Fb.
  destruct Fb as (a & w & Ha & Hw).
  destruct (end_x_finite bar ltac:(exists a, w; auto)) as (e & He).
  assert (Hi : i ∈ ids ++ [i]) by (apply elem_of_app; right; apply list_elem_of_singleton; reflexivity).
  destruct Hacc as [[-> ->] | (j & j' & b & b' & mn & mx & Hj & Hj' & Bj & Bj' & Xb & Eb' & ->)].
  - unfold widen. cbn [fst snd]. rewrite Ha, He. cbn [Num.lt Num.gt].
    split.
    + right. exists i, i, bar, bar, a, e. repeat split; auto.
    + intros k bk Hk Bk. cbn [app] in Hk. apply list_elem_of_singleton in Hk as ->.
      rewrite Hbar in Bk. injection Bk as <-. rewrite Ha, He. cbn [Num.lt Num.gt fst snd].
      rewrite !Qc_ltb_irrefl. auto.
  - unfold widen. cbn [fst snd]. rewrite Ha, He. cbn [Num.lt Num.gt].
    assert (Hj1 : j ∈ ids ++ [i]) by (apply elem_of_app; auto).
    assert (Hj1' : j' ∈ ids ++ [i]) by (apply elem_of_app; auto).
    split.
    + right.
      destruct (Num.Qc_ltb a mn), (Num.Qc_ltb mx e).
      * exists i, i, bar, bar, a, e. repeat split; auto.
      * exists i, j', bar, b', a, mx. repeat split; auto.
      * exists j, i, b, bar, mn, e. repeat split; auto.
      * exists j, j', b, b', mn, mx. repeat split; auto.
    + intros k bk Hk Bk. apply elem_of_app in Hk as [Hk | Hk].
      * destruct (Hall k bk Hk Bk) as [L G]. cbn [fst snd] in L, G.
        destruct (bar_with_finite _ _ Bk) as (ak & wk & Hak & Hwk).
        destruct (end_x_finite bk ltac:(exists ak, wk; auto)) as (ek & Hek).
        rewrite Hak in L |- *. rewrite Hek in G |- *.
        cbn [Num.lt Num.gt] in L, G |- *.
        apply Qc_ltb_ge in L, G.
        split.
        -- destruct (Num.Qc_ltb a mn) eqn:C; cbn [Num.lt]; apply Qc_ltb_ge;
             [apply Qc_ltb_lt in C; lra | exact L].
        -- destruct (Num.Qc_ltb mx e) eqn:C; cbn [Num.lt]; apply Qc_ltb_ge;
             [apply Qc_ltb_lt in C; lra | exact G].
      * apply list_elem_of_singleton in Hk as ->.
        rewrite Hbar in Bk. injection Bk as <-. rewrite Ha, He.
        split.
        -- destruct (Num.Qc_ltb a mn) eqn:C; cbn [Num.lt];
             [apply Qc_ltb_irrefl | exact C].
        -- unfold Num.gt.
           destruct (Num.Qc_ltb mx e) eqn:C; cbn [Num.lt];
             [apply Qc_ltb_irrefl | exact C].
Qed.

Lemma envelope_cases ids :
  match envelope visible_bars ids with
  | Some acc =>
      (forall i, i ∈ ids -> is_Some (get_bar visible_bars i))
      /\ envelope_bundle visible_bars ids = acc
      /\ encloses visible_bars ids acc
  | None => exists i, i ∈ ids /\ get_bar visible_bars i = None
  end.
Proof.
  induction ids as [| i ids IH] using rev_ind.
  - cbn. split; [| split; [reflexivity |]].
    + intros i Hi. apply elem_of_nil in Hi. contradiction.
    + split; [left; auto |]. intros i b Hi. apply elem_of_nil in Hi. contradiction.
  - rewrite envelope_snoc, envelope_bundle_snoc.
    destruct (envelope visible_bars ids) as [acc |].
    + destruct IH as (Hall & Eb & En).
      destruct (bar_with visible_bars i) as [bar |] eqn:B.
      * split; [| split].
        -- intros k Hk. apply elem_of_app in Hk as [Hk | Hk]; [auto |].
           apply list_elem_of_singleton in Hk as ->.
           destruct (get_bar visible_bars i) eqn:G; [eauto |].
           apply bar_with_None in G. congruence.
        -- rewrite Eb. reflexivity.
        -- apply widen_encloses; assumption.
      * exists i. split; [apply elem_of_app; right; apply list_elem_of_singleton; reflexivity |].
        apply bar_with_None, B.
    + destruct IH as (k & Hk & G). exists k. split; [apply elem_of_app; auto | exact G].
Qed.

End Envelope.

(** X19.  On bars with finite numbers, the scan of the descendants' bars
    in the [mousemove] handler raises a [TypeError] exactly when one of the
    ids has no bar.  When it returns, the scan of the bundle returns the
    same pair, no bar of the ids starts before [min_x] or ends after
    [max_x], and for a non-empty list [min_x] is the [x] of one of the bars
    and [max_x] the right edge of one of them. *)
Theorem envelope_encloses_bars visible_bars ids :
  (forall b, b ∈ visible_bars -> finite_bar b) ->
  (envelope visible_bars ids = None
   <-> exists i, i ∈ ids /\ get_bar visible_bars i = None)
  /\ forall min_x max_x,
       envelope visible_bars ids = Some (min_x, max_x) ->
       envelope_bundle visible_bars ids = (min_x, max_x)
       /\ (forall i b, i ∈ ids -> bar_with visible_bars i = Some b ->
             Num.lt (x b) min_x = false /\ Num.gt (end_x b) max_x = false)
       /\ (ids <> [] ->
           exists i i' b b',
             i ∈ ids /\ i' ∈ ids
             /\ bar_with visible_bars i = Some b /\ bar_with visible_bars i' = Some b'
             /\ min_x = x b /\ max_x = end_x b').
Proof.
  intros F. pose proof (envelope_cases visible_bars F ids) as C.
  split.
  - destruct (envelope visible_bars ids) as [acc |].
    + destruct C as (Hall & _). split; [discriminate |].
      intros (i & Hi & G). destruct (Hall i Hi) as [n Hn]. congruence.
    + split; [intros _; exact C | reflexivity].
  - intros mn mx E. rewrite E in C. destruct C as (_ & Eb & [Hacc Hall]).
    split; [exact Eb |]. split; [exact Hall |].
    intros Hne.
    destruct Hacc as [[-> _] | (i & i' & b & b' & a & e & Hi & Hi' & B & B' & Xb & Eb' & Eq)];
      [contradiction |].
    injection Eq as -> ->. exists i, i', b, b'. repeat split; auto.
Qed.

(** The theorem on the children of the project. *)
Lemma envelope_encloses_bars_witness :
  (envelope project_bars ["A"%string; "B"%string] = None
   <-> exists i, i ∈ ["A"%string; "B"%string] /\ get_bar project_bars i = None)
  /\ forall min_x max_x,
       envelope project_bars ["A"%string; "B"%string] = Some (min_x, max_x) ->
       envelope_bundle project_bars ["A"%string; "B"%string] = (min_x, max_x)
       /\ (forall i b, i ∈ ["A"%string; "B"%string] -> bar_with project_bars i = Some b ->
             Num.lt (x b) min_x = false /\ Num.gt (end_x b) max_x = false)
       /\ (["A"%string; "B"%string] <> [] ->
           exists i i' b b',
             i ∈ ["A"%string; "B"%string] /\ i' ∈ ["A"%string; "B"%string]
             /\ bar_with project_bars i = Some b /\ bar_with project_bars i' = Some b'
             /\ min_x = x b /\ max_x = end_x b').
Proof.
  apply (envelope_encloses_bars project_bars ["A"%string; "B"%string]).
  intros b Hb. unfold project_bars in Hb.
  repeat (apply elem_of_cons in Hb as [-> | Hb]; [eexists _, _; split; reflexivity |]).
  apply elem_of_nil in Hb as [].
Defined.







Section ArrowStart.

Lemma start_x_loop_returns (p a b : Qc) from to :
  x from = Num.Fin a -> x to = Num.Fin b ->
  forall fuel (s : Qc),
    (this s - this a - this p < inject_Z (Z.of_nat fuel) * 10)%Q ->
    exists s' : Qc,
      start_x_loop fuel (Num.Fin p) from to (Num.Fin s) = Some (Num.Fin s')
      /\ condition (Num.Fin p) from to (Num.Fin s') = false
      /\ (s' = s \/ (this a + this p - 10 < this s')%Q /\ (this b - this p - 10 < this s')%Q
                    /\ (this s' < this s)%Q).
Proof.
  intros Ha Hb. induction fuel as [| fuel IH]; intros s Hs.
  - cbn [start_x_loop].
    assert (C : condition (Num.Fin p) from to (Num.Fin s) = false).
    { unfold condition. rewrite Ha, Hb. cbn [Num.add Num.lt Num.gt].
      apply andb_false_iff. right. apply Qc_ltb_ge. rewrite this_plus.
      change (inject_Z (Z.of_nat 0)) with 0%Q in Hs. lra. }
    rewrite C. exists s. auto.
  - cbn [start_x_loop].
    destruct (condition (Num.Fin p) from to (Num.Fin s)) eqn:C; [| exists s; auto].
    cbn [Num.sub Num.neg Num.add Num.px].
    set (s1 := (s + - Q2Qc (inject_Z 10))%Qc).
    assert (E1 : (this s1 == this s - 10)%Q).
    { subst s1. rewrite this_plus, this_opp, this_Q2Qc. change (inject_Z 10) with 10%Q. ring. }
    destruct (IH s1) as (s' & E & C' & D).
    { rewrite E1. rewrite Nat2Z.inj_succ in Hs. unfold Z.succ in Hs.
      rewrite inject_Z_plus in Hs. change (inject_Z 1) with 1%Q in Hs. lra. }
    exists s'. split; [exact E |]. split; [exact C' |]. right.
    unfold condition in C. rewrite Ha, Hb in C. cbn [Num.add Num.lt Num.gt] in C.
    apply andb_prop in C as [C1 C2]. apply Qc_ltb_lt in C1, C2.
    rewrite this_plus in C1, C2.
    destruct D as [-> | (D1 & D2 & D3)]; rewrite ?E1; repeat split; lra.
Qed.

End ArrowStart.

(** X21.  The loop of [calculate_path] that moves [start_x] to the left
    leaves, on bars and a padding with finite numbers.  The [start_x] it
    leaves with fails the test of the loop, is not to the right of the
    middle of the first bar, and is either that middle or less than ten
    pixels short of one of the two bounds of the test. *)
Theorem calculate_start_x_returns o arrow (p a w b : Qc) :
  padding o = Num.Fin p -> x (from_task arrow) = Num.Fin a ->
  width (from_task arrow) = Num.Fin w -> x (to_task arrow) = Num.Fin b ->
  exists (fuel : nat) (s : Qc),
    calculate_start_x fuel o arrow = Some (Num.Fin s)
    /\ condition (padding o) (from_task arrow) (to_task arrow) (Num.Fin s) = false
    /\ (this s <= this a + this w / 2)%Q
    /\ ((this s == this a + this w / 2)%Q
        \/ (this a + this p - 10 < this s)%Q /\ (this b - this p - 10 < this s)%Q).
Proof.
  intros Hp Ha Hw Hb.
  unfold calculate_start_x. rewrite Hp, Ha, Hw.
  assert (D : Num.div (Num.Fin w) (Num.px 2) = Num.Fin (w / Q2Qc (inject_Z 2))).
  { unfold Num.div, Num.px. rewrite positive_not_zero; [reflexivity |].
    unfold Qclt. rewrite this_Q2Qc. reflexivity. }
  rewrite D. cbn [Num.add].
  set (s0 := (a + w / Q2Qc (inject_Z 2))%Qc).
  assert (E0 : (this s0 == this a + this w / 2)%Q).
  { subst s0. rewrite this_plus, this_div, this_Q2Qc. reflexivity. }
  set (n := Z.to_nat (Qceiling ((this s0 - this a - this p) / 10) + 1)).
  destruct (start_x_loop_returns p a b (from_task arrow) (to_task arrow) Ha Hb n s0)
    as (s & E & C & Dd).
  { subst n.
    pose proof (Qle_ceiling ((this s0 - this a - this p) / 10)) as L.
    set (c := Qceiling ((this s0 - this a - this p) / 10)) in *.
    assert (Hd : ((this s0 - this a - this p) / 10 == (this s0 - this a - this p) * (1 # 10))%Q)
      by field.
    rewrite Hd in L.
    destruct (Z.le_gt_cases 0 (c + 1)) as [Hc | Hc].
    - rewrite Z2Nat.id by exact Hc. rewrite inject_Z_plus. change (inject_Z 1) with 1%Q. lra.
    - rewrite (Z2Nat.nonpos (c + 1)) by lia. change (inject_Z (Z.of_nat 0)) with 0%Q.
      assert (Hc' : (inject_Z c < inject_Z (-1))%Q) by (rewrite <- Zlt_Qlt; lia).
      change (inject_Z (-1)) with (-1)%Q in Hc'. lra. }
  exists n, s. split; [exact E |]. split; [exact C |].
  destruct Dd as [-> | (D1 & D2 & D3)].
  - split; [rewrite E0; apply Qle_refl | left; exact E0].
  - split; [rewrite <- E0; lra | right; auto].
Qed.

(** The theorem on an arrow that goes back, from a bar at 152 to a bar at 0. *)
Lemma calculate_start_x_returns_witness :
  exists (fuel : nat) (s : Qc),
    calculate_start_x fuel day_options
                      (mkArrow (bar_at "A" None 152 76) (bar_at "B" None 0 76))
    = Some (Num.Fin s)
    /\ condition (padding day_options) (bar_at "A" None 152 76) (bar_at "B" None 0 76)
                 (Num.Fin s) = false.
Proof.
  destruct (calculate_start_x_returns day_options
              (mkArrow (bar_at "A" None 152 76) (bar_at "B" None 0 76))
              (Q2Qc (inject_Z 18)) (Q2Qc (inject_Z 152)) (Q2Qc (inject_Z 76))
              (Q2Qc (inject_Z 0)) eq_refl eq_refl eq_refl eq_refl)
    as (fuel & s & E & C & _).
  exists fuel, s. split; [exact E | exact C].
Defined.

Section Padding.

Lemma length_append_string (s r : string) :
  String.length (s +:+ r) = (String.length s + String.length r)%nat.
Proof.
  induction s as [| c s IH]; [reflexivity |].
  change (String c s +:+ r) with (String c (s +:+ r)). cbn [String.length]. rewrite IH. reflexivity.
Qed.

Lemma length_repeat_string s n :
  String.length (repeat_string s n) = (n * String.length s)%nat.
Proof.
  induction n as [| n IH]; [reflexivity |].
  cbn [repeat_string]. rewrite length_append_string, IH. lia.
Qed.

Lemma length_prefix n s :
  (n <= String.length s)%nat -> String.length (substring 0 n s) = n.
Proof.
  revert s. induction n as [| n IH]; intros s H.
  - destruct s; reflexivity.
  - destruct s as [| c s]; [cbn in H; lia |].
    cbn [substring String.length]. rewrite IH; [reflexivity | cbn in H; lia].
Qed.

End Padding.

(** X22.  With a non-empty [padString], [padStart] returns a string whose
    length is the greater of [targetLength] and the length of [str], and
    that ends with [str]. *)
Theorem padStart_length str targetLength padString :
  padString <> EmptyString ->
  String.length (padStart str targetLength padString)
  = Nat.max targetLength (String.length str)
  /\ exists padding, padStart str targetLength padString = padding +:+ str.
Proof.
  intros Hne. unfold padStart.
  destruct (Nat.ltb_spec targetLength (String.length str)) as [Hlt | Hge].
  - split; [lia | exists EmptyString; reflexivity].
  - split; [| eexists; reflexivity].
    rewrite length_append_string, length_prefix; [lia |].
    assert (Hl : (0 < String.length padString)%nat)
      by (destruct padString; [contradiction | cbn; lia]).
    destruct (Nat.ltb_spec (String.length padString) (targetLength - String.length str)) as [H | H];
      [| exact H].
    rewrite length_append_string, length_repeat_string.
    pose proof (Nat.div_mod_eq (targetLength - String.length str) (String.length padString)).
    pose proof (Nat.mod_upper_bound (targetLength - String.length str) (String.length padString)
                  ltac:(lia)).
    nia.
Qed.

(** The theorem on a digit padded to two. *)
Lemma padStart_length_witness :
  String.length (padStart "7" 2 "0") = Nat.max 2 (String.length "7")
  /\ exists padding, padStart "7" 2 "0" = padding +:+ "7".
Proof.
  apply (padStart_length "7" 2 "0"). intros C. discriminate C.
Defined.

Section Formatting.

#[local] Arguments padStart : simpl never.
#[local] Arguments of_number : simpl never.
#[local] Arguments number_of_2 : simpl never.
#[local] Arguments number_of_4 : simpl never.

Lemma replace_other k rep c s :
  c <> "$"%char ->
  replace (String "$" k) rep (String c s) = String c (replace (String "$" k) rep s).
Proof.
  intros H. cbn [replace String.prefix].
  destruct (ascii_dec "$" c) as [E | _]; [congruence | reflexivity].
Qed.

Lemma replace_digit k rep c s :
  is_digit c = true ->
  replace (String "$" k) rep (String c s) = String c (replace (String "$" k) rep s).
Proof.
  intros H. apply replace_other. intros ->. discriminate H.
Qed.

Lemma replace_dollar n k rep n' s :
  n <> n' ->
  replace (String "$" (String n k)) rep (String "$" (String n' s))
  = String "$" (replace (String "$" (String n k)) rep (String n' s)).
Proof.
  intros H. cbn [replace String.prefix].
  destruct (ascii_dec "$" "$") as [_ | C]; [| congruence].
  destruct (ascii_dec n n') as [E | _]; [congruence | reflexivity].
Qed.

Lemma replace_found n rep rest :
  replace (String "$" (String n EmptyString)) rep (String "$" (String n rest)) = rep +:+ rest.
Proof.
  cbn [replace String.prefix String.length drop_chars].
  destruct (ascii_dec "$" "$") as [_ | C]; [| congruence].
  destruct (ascii_dec n n) as [_ | C]; [| congruence].
  destruct rest; reflexivity.
Qed.

Lemma month_name_en m :
  0 <= m <= 11 ->
  exists name,
    month_names_en !! Z.to_nat m = Some name
    /\ match to_number (padStart (of_number (Some m)) 2 "0") with
       | Some i => if i <? 0 then "undefined"%string
                   else default "undefined"%string (month_names_en !! Z.to_nat i)
       | None => "undefined"%string
       end = name
    /\ padStart (of_number (plus (to_number (padStart (of_number (Some m)) 2 "0")) (Some 1))) 2 "0"
       = padStart (of_number (Some (m + 1))) 2 "0".
Proof.
  intros H. months m H; eexists; (split; [reflexivity |]); split; reflexivity.
Qed.

Lemma append_cons c s r : String c s +:+ r = String c (s +:+ r).
Proof. reflexivity. Qed.

Lemma append_nil r : EmptyString +:+ r = r.
Proof. reflexivity. Qed.

Lemma append_empty s : s +:+ EmptyString = s.
Proof.
  induction s as [| c s IH]; [reflexivity |].
  change (String c (s +:+ EmptyString) = String c s). f_equal. exact IH.
Qed.

Lemma to_string_date t :
  to_string (Some (TimeValue t)) false
  = Some (padStart (of_number (Some (YearFromTime t))) 2 "0" +:+ "-"
          +:+ padStart (of_number (Some (MonthFromTime t + 1))) 2 "0" +:+ "-"
          +:+ padStart (of_number (Some (DateFromTime t))) 2 "0").
Proof.
  unfold to_string, get_date_values.
  cbn [getFullYear getMonth getDate getHours getMinutes getSeconds getMilliseconds field].
  cbn. rewrite append_empty. reflexivity.
Qed.


Lemma passes_iso Y name SSS M D HH mm ss :
  passes "YYYY-MM-DD"
    [ ("YYYY", Y); ("MMMM", name); ("SSS", SSS); ("MMM", name); ("MM", M); ("DD", D);
      ("HH", HH); ("mm", mm); ("ss", ss); ("D", D) ]%string
  = replace "$2" D (replace "$1" M (replace "$0" Y "$0-$1-$2")).
Proof. vm_compute. reflexivity. Qed.

Lemma passes_year Y name SSS M D HH mm ss :
  passes "YYYY"
    [ ("YYYY", Y); ("MMMM", name); ("SSS", SSS); ("MMM", name); ("MM", M); ("DD", D);
      ("HH", HH); ("mm", mm); ("ss", ss); ("D", D) ]%string
  = replace "$0" Y "$0".
Proof. vm_compute. reflexivity. Qed.

Lemma passes_day_month Y name SSS M D HH mm ss :
  passes "D MMM"
    [ ("YYYY", Y); ("MMMM", name); ("SSS", SSS); ("MMM", name); ("MM", M); ("DD", D);
      ("HH", HH); ("mm", mm); ("ss", ss); ("D", D) ]%string
  = replace "$1" D (replace "$0" name "$1 $0").
Proof. vm_compute. reflexivity. Qed.

Lemma passes_month Y name SSS M D HH mm ss :
  passes "MMM"
    [ ("YYYY", Y); ("MMMM", name); ("SSS", SSS); ("MMM", name); ("MM", M); ("DD", D);
      ("HH", HH); ("mm", mm); ("ss", ss); ("D", D) ]%string
  = passes "MMMM"
      [ ("YYYY", Y); ("MMMM", name); ("SSS", SSS); ("MMM", name); ("MM", M); ("DD", D);
        ("HH", HH); ("mm", mm); ("ss", ss); ("D", D) ]%string.
Proof. vm_compute. reflexivity. Qed.

End Formatting.

Ltac step_replace1 :=
  match goal with
  | |- context [replace (String "$" (String ?n EmptyString)) ?r (String "$" (String ?n ?rest))] =>
      rewrite (replace_found n r rest)
  | |- context [replace (String "$" (String ?n ?k)) ?r (String "$" (String ?n' ?s))] =>
      rewrite (replace_dollar n k r n' s) by discriminate
  | |- context [replace (String "$" ?k) ?r (String ?c ?s)] =>
      first [ rewrite (replace_digit k r c s) by assumption
            | rewrite (replace_other k r c s) by discriminate ]
  | |- context [String ?c ?s +:+ ?r] => rewrite (append_cons c s r)
  | |- context [EmptyString +:+ ?r] => rewrite (append_nil r)
  end.

Ltac step_replace := repeat step_replace1.

(** [format] on a date of a year of four digits, as its two passes on
    the digits of the fields. *)
Lemma format_as_passes t :
  1000 <= YearFromTime t <= 9999 ->
  exists y1 y2 y3 y4 m1 m2 d1 d2 name,
    (is_digit y1 = true /\ is_digit y2 = true /\ is_digit y3 = true /\ is_digit y4 = true
     /\ is_digit m1 = true /\ is_digit m2 = true /\ is_digit d1 = true /\ is_digit d2 = true)
    /\ of_number (Some (YearFromTime t))
       = String y1 (String y2 (String y3 (String y4 EmptyString)))
    /\ padStart (of_number (Some (YearFromTime t))) 2 "0"
       = String y1 (String y2 (String y3 (String y4 EmptyString)))
    /\ padStart (of_number (Some (MonthFromTime t + 1))) 2 "0" = String m1 (String m2 EmptyString)
    /\ padStart (of_number (Some (DateFromTime t))) 2 "0" = String d1 (String d2 EmptyString)
    /\ month_names_en !! Z.to_nat (MonthFromTime t) = Some name
    /\ forall fs,
         format (TimeValue t) fs month_names_en
         = passes fs
             [ ("YYYY", String y1 (String y2 (String y3 (String y4 EmptyString))));
               ("MMMM", name);
               ("SSS", padStart (of_number (Some (msFromTime t))) 2 "0");
               ("MMM", name);
               ("MM", String m1 (String m2 EmptyString));
               ("DD", String d1 (String d2 EmptyString));
               ("HH", padStart (of_number (Some (HourFromTime t))) 2 "0");
               ("mm", padStart (of_number (Some (MinFromTime t))) 2 "0");
               ("ss", padStart (of_number (Some (SecFromTime t))) 2 "0");
               ("D", String d1 (String d2 EmptyString)) ]%string.
Proof.
  intros HY.
  pose proof (MonthFromTime_range t) as HM.
  pose proof (DateFromTime_range t) as HD.
  destruct (four_digits (YearFromTime t) ltac:(lia)) as (y1 & y2 & y3 & y4 & Hy1 & Hy2 & Hy3 & Hy4 & EY).
  destruct (two_digits (MonthFromTime t + 1) ltac:(lia)) as (m1 & m2 & Hm1 & Hm2 & EM).
  destruct (two_digits (DateFromTime t) ltac:(lia)) as (d1 & d2 & Hd1 & Hd2 & ED).
  destruct (month_name_en (MonthFromTime t) HM) as (name & En & Ename & Emm).
  assert (PY : padStart (of_number (Some (YearFromTime t))) 2 "0"
               = String y1 (String y2 (String y3 (String y4 EmptyString))))
    by (rewrite <- EY; apply pad_4; (assumption || lia)).
  assert (OY : of_number (Some (YearFromTime t))
               = String y1 (String y2 (String y3 (String y4 EmptyString))))
    by (rewrite <- EY; apply of_number_4; (assumption || lia)).
  assert (PM : padStart (of_number (Some (MonthFromTime t + 1))) 2 "0"
               = String m1 (String m2 EmptyString))
    by (rewrite <- EM; apply pad_2; assumption).
  assert (PD : padStart (of_number (Some (DateFromTime t))) 2 "0"
               = String d1 (String d2 EmptyString))
    by (rewrite <- ED; apply pad_2; assumption).
  exists y1, y2, y3, y4, m1, m2, d1, d2, name.
  split; [repeat split; assumption |].
  split; [exact OY |]. split; [exact PY |]. split; [exact PM |]. split; [exact PD |].
  split; [exact En |].
  intros fs. unfold format, passes, get_date_values.
  cbn [getFullYear getMonth getDate getHours getMinutes getSeconds getMilliseconds field
       fmap list_fmap nth].
  rewrite Ename, Emm, PY, PM, PD. reflexivity.
Qed.

(** The year of a date of a year of four digits, as the axis writes it. *)
Lemma format_year t :
  1000 <= YearFromTime t <= 9999 ->
  format (TimeValue t) "YYYY" month_names_en = of_number (Some (YearFromTime t)).
Proof.
  intros HY.
  destruct (format_as_passes t HY)
    as (y1 & y2 & y3 & y4 & m1 & m2 & d1 & d2 & name & _ & OY & _ & _ & _ & _ & F).
  rewrite (F "YYYY"%string), passes_year, OY.
  step_replace. reflexivity.
Qed.

(** X23.  On a date in a year of four digits, [format] with
    ['YYYY-MM-DD'] writes what [to_string] writes, with ['YYYY'] the year,
    and with ['D MMM'] the day of the month, padded to two digits, and the
    full name of the month: ['MMM'] gives what ['MMMM'] gives. *)
Theorem format_patterns t :
  1000 <= YearFromTime t <= 9999 ->
  Some (format (TimeValue t) "YYYY-MM-DD" month_names_en)
  = to_string (Some (TimeValue t)) false
  /\ format (TimeValue t) "YYYY" month_names_en = of_number (Some (YearFromTime t))
  /\ format (TimeValue t) "D MMM" month_names_en
     = padStart (of_number (Some (DateFromTime t))) 2 "0" +:+ " "
       +:+ default EmptyString (month_names_en !! Z.to_nat (MonthFromTime t))
  /\ format (TimeValue t) "MMM" month_names_en = format (TimeValue t) "MMMM" month_names_en.
Proof.
  intros HY.
  destruct (format_as_passes t HY)
    as (y1 & y2 & y3 & y4 & m1 & m2 & d1 & d2 & name
        & (Hy1 & Hy2 & Hy3 & Hy4 & Hm1 & Hm2 & Hd1 & Hd2) & OY & PY & PM & PD & En & F).
  rewrite En. change (default EmptyString (Some name)) with name.
  split; [| split; [| split]].
  - rewrite (F "YYYY-MM-DD"%string), passes_iso, to_string_date, PY, PM, PD. f_equal.
    step_replace. reflexivity.
  - apply format_year, HY.
  - rewrite (F "D MMM"%string), passes_day_month, PD.
    step_replace. rewrite append_empty. step_replace. reflexivity.
  - rewrite (F "MMM"%string), (F "MMMM"%string). apply passes_month.
Qed.

(** The theorem on noon of 2024-01-15. *)
Lemma format_patterns_witness :
  Some (format (TimeValue some_instant) "YYYY-MM-DD" month_names_en)
  = to_string (Some (TimeValue some_instant)) false.
Proof.
  apply (format_patterns some_instant).
  vm_compute. split; intros C; discriminate C.
Defined.

Section Years.

#[local] Arguments leap_year : simpl never.

Lemma MakeDay_in_year y m d :
  0 <= m <= 11 ->
  MakeDay y m d = DayFromYear y + month_start (if leap_year y then 1 else 0) m + d - 1.
Proof.
  intros Hm. unfold MakeDay.
  rewrite (Z.div_small m 12), (Z.mod_small m 12) by lia.
  rewrite Z.add_0_r, leap_flag. reflexivity.
Qed.

Lemma month_start_bounds l m : 0 <= l <= 1 -> 0 <= month_start l m <= 334 + l.
Proof.
  intros Hl. unfold month_start.
  repeat match goal with |- context [if ?c then _ else _] => destruct c end; lia.
Qed.

Lemma month_start_leap l m :
  0 <= m -> month_start l m = month_start 0 m + (if m <=? 1 then 0 else l).
Proof.
  intros Hm. unfold month_start.
  repeat match goal with
    | |- context [if ?a =? ?b then _ else _] => destruct (Z.eqb_spec a b)
    | |- context [if ?a <=? ?b then _ else _] => destruct (Z.leb_spec a b)
    end; lia.
Qed.

Lemma DayFromYear_span y q :
  0 <= q -> 365 * q <= DayFromYear (y + q) - DayFromYear y <= 366 * q.
Proof.
  intros Hq. revert q Hq. apply natlike_ind.
  - rewrite Z.add_0_r. lia.
  - intros q Hq IH.
    replace (y + Z.succ q) with (y + q + 1) by lia.
    rewrite DayFromYear_succ. pose proof (DaysInYear_cases (y + q)). lia.
Qed.

Lemma leap_flag_cases y :
  (if leap_year y then 1 else 0) = 0 \/ (if leap_year y then 1 else 0) = 1.
Proof. destruct (leap_year y); auto. Qed.

Lemma DaysInYear_flag y : DaysInYear y = 365 + (if leap_year y then 1 else 0).
Proof. rewrite DaysInYear_leap. destruct (leap_year y); reflexivity. Qed.

(** A day of a month lies in the year of the month. *)
Lemma MakeDay_year_of y m d :
  0 <= m <= 11 -> 1 <= d <= 31 ->
  DayFromYear y <= MakeDay y m d < DayFromYear (y + 1).
Proof.
  intros Hm Hd. rewrite MakeDay_in_year by exact Hm.
  rewrite DayFromYear_succ, DaysInYear_flag.
  destruct (leap_flag_cases y) as [-> | ->]; unfold month_start;
    repeat match goal with
      | |- context [if ?a =? ?b then _ else _] => destruct (Z.eqb_spec a b)
      end; lia.
Qed.

Lemma MakeDay_years y m d q :
  0 <= m <= 11 -> 0 <= q ->
  365 * q - 1 <= MakeDay (y + q) m d - MakeDay y m d <= 366 * q + 1.
Proof.
  intros Hm Hq. rewrite !MakeDay_in_year by exact Hm.
  pose proof (DayFromYear_span y q Hq).
  rewrite (month_start_leap (if leap_year (y + q) then 1 else 0) m) by lia.
  rewrite (month_start_leap (if leap_year y then 1 else 0) m) by lia.
  destruct (leap_flag_cases y) as [-> | ->], (leap_flag_cases (y + q)) as [-> | ->];
    destruct (m <=? 1); lia.
Qed.

Lemma MakeDay_next_year y m d :
  0 <= m <= 11 -> 365 <= MakeDay (y + 1) m d - MakeDay y m d <= 366.
Proof.
  intros Hm. rewrite !MakeDay_in_year by exact Hm.
  rewrite DayFromYear_succ, DaysInYear_flag.
  rewrite (month_start_leap (if leap_year (y + 1) then 1 else 0) m) by lia.
  rewrite (month_start_leap (if leap_year y then 1 else 0) m) by lia.
  destruct (leap_flag_cases y) as [-> | ->], (leap_flag_cases (y + 1)) as [-> | ->];
    destruct (m <=? 1); lia.
Qed.

(** [add] on years, before the clip. *)
Lemma add_YEAR t q :
  ~ (0 <= YearFromTime t + q <= 99) ->
  add (TimeValue t) q YEAR
  = TimeClip (MakeDay (YearFromTime t + q) (MonthFromTime t) (DateFromTime t) * msPerDay
              + TimeWithinDay t).
Proof.
  intros Hy. unfold add, new_Date.
  cbn [Scale_eqb getFullYear getMonth getDate getHours getMinutes getSeconds
       getMilliseconds field plus nth].
  rewrite !Z.add_0_r.
  replace ((0 <=? YearFromTime t + q) && (YearFromTime t + q <=? 99)) with false
    by (symmetry; apply andb_false_iff; lia).
  f_equal. unfold MakeDate. f_equal.
  pose proof (MakeTime_all t 0 0 0 0) as H. rewrite !Z.add_0_r in H. rewrite H. lia.
Qed.

(** Time values of the years 1000 to 9999 are not clipped. *)
Lemma four_digit_year_clip t :
  msPerDay * DayFromYear 1000 <= t < msPerDay * DayFromYear 10000 ->
  TimeClip t = TimeValue t /\ constructible t.
Proof.
  intros H. change (DayFromYear 1000) with (-354285) in H.
  change (DayFromYear 10000) with 2932897 in H. unfold msPerDay in H.
  split.
  - unfold TimeClip. destruct (Z.leb_spec (Z.abs t) 8640000000000000); [reflexivity | lia].
  - unfold constructible. change (DayFromYear 100) with (-683003). unfold msPerDay. lia.
Qed.

Lemma year_of_range t y y' :
  msPerDay * DayFromYear y <= t < msPerDay * DayFromYear y' ->
  y <= YearFromTime t < y'.
Proof.
  intros H. unfold YearFromTime.
  pose proof (YearFromDay_spec (Day t)) as S.
  assert (Hd : DayFromYear y <= Day t < DayFromYear y').
  { unfold Day, msPerDay in *. split.
    - apply Z.div_le_lower_bound; lia.
    - apply Z.div_lt_upper_bound; lia. }
  split.
  - destruct (Z.le_gt_cases y (YearFromDay (Day t))) as [? | C]; [assumption |].
    pose proof (DayFromYear_mono (YearFromDay (Day t) + 1) y ltac:(lia)). lia.
  - destruct (Z.lt_ge_cases (YearFromDay (Day t)) y') as [? | C]; [assumption |].
    pose proof (DayFromYear_mono y' (YearFromDay (Day t)) ltac:(lia)). lia.
Qed.

End Years.

Section Bounds.

Lemma gantt_bounds_snoc tasks task :
  gantt_bounds (tasks ++ [task])
  = (if negb (bool_decide (is_Some (gantt_bounds tasks).1))
        || date_lt (_start task) (gantt_bounds tasks).1
     then _start task else (gantt_bounds tasks).1,
     if negb (bool_decide (is_Some (gantt_bounds tasks).2))
        || date_lt (gantt_bounds tasks).2 (_end task)
     then _end task else (gantt_bounds tasks).2).
Proof.
  unfold gantt_bounds. rewrite foldl_app. cbn [foldl].
  match goal with |- context [foldl ?f ?a tasks] => destruct (foldl f a tasks) as [gs ge] end.
  reflexivity.
Qed.

Lemma gantt_bounds_dated tasks :
  (forall task, task ∈ tasks -> dated task) -> tasks <> [] ->
  exists smin emax,
    gantt_bounds tasks = (Some (TimeValue smin), Some (TimeValue emax))
    /\ in_axis_range smin /\ in_axis_range emax
    /\ forall task s e, task ∈ tasks ->
         _start task = Some (TimeValue s) -> _end task = Some (TimeValue e) ->
         smin <= s /\ e <= emax.
Proof.
  induction tasks as [| task tasks IH] using rev_ind; intros Hd Hne; [contradiction |].
  destruct (Hd task ltac:(apply elem_of_app; right; apply list_elem_of_singleton; reflexivity))
    as (s & e & Es & Ee & Rs & Re).
  rewrite gantt_bounds_snoc, Es, Ee.
  assert (IH' := IH ltac:(intros u Hu; apply Hd, elem_of_app; auto)).
  destruct tasks as [| t1 tasks'].
  - cbn [gantt_bounds foldl fst snd].
    rewrite !bool_decide_eq_false_2 by (intros [? C]; discriminate C). cbn [negb orb].
    exists s, e. split; [reflexivity |]. split; [exact Rs |]. split; [exact Re |].
    intros u s' e' Hu Hs He. apply list_elem_of_singleton in Hu as ->.
    rewrite Es in Hs. rewrite Ee in He. injection Hs as <-. injection He as <-. lia.
  - destruct (IH' ltac:(discriminate)) as (smin & emax & -> & Rmin & Rmax & Hall).
    cbn [fst snd].
    rewrite !bool_decide_eq_true_2 by eauto. cbn [negb orb date_lt].
    exists (if s <? smin then s else smin), (if emax <? e then e else emax).
    split; [destruct (s <? smin), (emax <? e); reflexivity |].
    split; [destruct (s <? smin); assumption |].
    split; [destruct (emax <? e); assumption |].
    intros u s' e' Hu Hs He. apply elem_of_app in Hu as [Hu | Hu].
    + destruct (Hall u s' e' Hu Hs He).
      destruct (Z.ltb_spec s smin), (Z.ltb_spec emax e); lia.
    + apply list_elem_of_singleton in Hu as ->.
      rewrite Es in Hs. rewrite Ee in He. injection Hs as <-. injection He as <-.
      destruct (Z.ltb_spec s smin), (Z.ltb_spec emax e); lia.
Qed.

Lemma in_axis_range_day t :
  in_axis_range t ->
  in_axis_range (t - t mod msPerDay) /\ constructible t
  /\ t - msPerDay < t - t mod msPerDay <= t
  /\ (t - t mod msPerDay) mod msPerDay = 0.
Proof.
  unfold in_axis_range, constructible. intros H.
  change (DayFromYear 1010) with (-350633) in *.
  change (DayFromYear 9990) with 2929245 in *.
  change (DayFromYear 100) with (-683003).
  unfold msPerDay in *.
  repeat split; Z.to_euclidean_division_equations; lia.
Qed.

(** The padding in the Year view. *)
Lemma add_YEAR_padding t q :
  in_axis_range t -> t mod msPerDay = 0 -> -6 <= q <= 6 ->
  exists t',
    add (TimeValue t) q YEAR = TimeValue t'
    /\ YearFromTime t' = YearFromTime t + q
    /\ t' mod msPerDay = 0
    /\ msPerDay * DayFromYear 1000 <= t' < msPerDay * DayFromYear 10000
    /\ (0 <= q -> t + (365 * q - 1) * msPerDay <= t')
    /\ (q <= 0 -> t' <= t + (365 * q + 1) * msPerDay).
Proof.
  intros Hr Hm Hq.
  pose proof (year_of_range t 1010 9990 Hr) as Hy.
  pose proof (MonthFromTime_range t) as HM.
  pose proof (DateFromTime_range t) as HD.
  rewrite add_YEAR by lia.
  assert (Ht : TimeWithinDay t = 0) by exact Hm.
  rewrite Ht, Z.add_0_r.
  set (Y := YearFromTime t) in *. set (M := MonthFromTime t) in *. set (D := DateFromTime t) in *.
  pose proof (MakeDay_year_of (Y + q) M D HM HD) as Hin.
  pose proof (DayFromYear_mono 1000 (Y + q) ltac:(lia)) as L1.
  pose proof (DayFromYear_mono (Y + q + 1) 10000 ltac:(lia)) as L2.
  assert (Hrange : msPerDay * DayFromYear 1000 <= MakeDay (Y + q) M D * msPerDay
                   < msPerDay * DayFromYear 10000) by (unfold msPerDay; lia).
  destruct (four_digit_year_clip _ Hrange) as [Hclip _].
  exists (MakeDay (Y + q) M D * msPerDay).
  split; [exact Hclip |].
  split.
  { unfold YearFromTime.
    replace (Day (MakeDay (Y + q) M D * msPerDay)) with (MakeDay (Y + q) M D)
      by (unfold Day, msPerDay; symmetry; apply Z.div_mul; lia).
    apply YearFromDay_unique, Hin. }
  split; [apply Z_mod_mult |]. split; [exact Hrange |].
  pose proof (MakeDay_fields t 0) as F. rewrite !Z.add_0_r in F. fold Y M D in F.
  pose proof (Day_TimeWithinDay t) as Dt. rewrite Ht, Z.add_0_r in Dt.
  split.
  - intros Hq0. pose proof (MakeDay_years Y M D q HM Hq0). unfold msPerDay in *. lia.
  - intros Hq0. pose proof (MakeDay_years (Y + q) M D (- q) HM ltac:(lia)) as H.
    replace (Y + q + - q) with Y in H by lia. unfold msPerDay in *. lia.
Qed.

(** The padding in the other views. *)
Lemma add_MONTH_padding t q :
  in_axis_range t -> t mod msPerDay = 0 -> -8 <= q <= 8 ->
  exists t',
    add (TimeValue t) q MONTH = TimeValue t'
    /\ t' mod msPerDay = 0
    /\ (0 <= q -> t + 28 * q * msPerDay <= t')
    /\ (q <= 0 -> t' <= t + 28 * q * msPerDay).
Proof.
  intros Hr Hm Hq.
  destruct (in_axis_range_day t Hr) as (_ & Hc & _).
  destruct (add_MONTH_days t q Hc) as (days & E & P & N).
  exists (t + days * msPerDay).
  assert (Hrange : msPerDay * DayFromYear 1000 <= t + days * msPerDay
                   < msPerDay * DayFromYear 10000).
  { unfold in_axis_range in Hr.
    change (DayFromYear 1010) with (-350633) in *.
    change (DayFromYear 9990) with 2929245 in *.
    change (DayFromYear 1000) with (-354285).
    change (DayFromYear 10000) with 2932897.
    unfold msPerDay in *.
    destruct (Z.le_gt_cases 0 q); [pose proof (P ltac:(lia)) | pose proof (N ltac:(lia))]; lia. }
  destruct (four_digit_year_clip _ Hrange) as [Hclip _].
  split; [rewrite E; exact Hclip |].
  split; [rewrite Z_mod_plus_full; exact Hm |].
  split; intros Hq0; [pose proof (P Hq0) | pose proof (N Hq0)]; unfold msPerDay; lia.
Qed.

Lemma year_only_of_number y :
  1000 <= y <= 9999 ->
  year_only (of_number (Some y)) = TimeValue (DayFromYear y * msPerDay).
Proof.
  intros Hy.
  assert (H : forallb (fun k => match to_number (of_number (Some (1000 + Z.of_nat k))) with
                                | Some v => v =? 1000 + Z.of_nat k
                                | None => false
                                end) (seq 0 (Z.to_nat 9000)) = true)
    by (vm_compute; reflexivity).
  rewrite forallb_forall in H.
  specialize (H (Z.to_nat (y - 1000)) ltac:(apply in_seq; lia)).
  replace (1000 + Z.of_nat (Z.to_nat (y - 1000))) with y in H by lia.
  unfold year_only. destruct (to_number (of_number (Some y))) as [v |]; [| discriminate H].
  apply Z.eqb_eq in H. subst v. reflexivity.
Qed.

End Bounds.

(** X24.  [setup_gantt_dates] raises a [TypeError] on an empty task list.
    On tasks with valid dates in the years 1010 to 9989 it returns, in
    every view mode, two midnights: [gantt_start] at least 56 days before
    the start of every task, and [gantt_end] at least 55 days after the
    end of every task.  The constructor on a string of a year is taken
    to give the midnight that opens the year. *)
Theorem setup_gantt_dates_covers date_of_string o tasks :
  (forall y, 1000 <= y <= 9999 ->
             date_of_string (of_number (Some y)) = TimeValue (DayFromYear y * msPerDay)) ->
  (forall task, task ∈ tasks -> dated task) ->
  (tasks = [] -> setup_gantt_dates date_of_string o tasks = None)
  /\ (tasks <> [] ->
      exists gantt_start gantt_end,
        setup_gantt_dates date_of_string o tasks
        = Some (TimeValue gantt_start, TimeValue gantt_end)
        /\ gantt_start mod msPerDay = 0 /\ gantt_end mod msPerDay = 0
        /\ forall task s e, task ∈ tasks ->
             _start task = Some (TimeValue s) -> _end task = Some (TimeValue e) ->
             gantt_start + 56 * msPerDay <= s /\ e + 55 * msPerDay <= gantt_end).
Proof.
  intros Hstr Hd.
  split.
  - intros ->. reflexivity.
  - intros Hne.
    destruct (gantt_bounds_dated tasks Hd Hne) as (smin & emax & B & Rmin & Rmax & Hall).
    unfold setup_gantt_dates. rewrite B. cbn [mbind option_bind].
    destruct (in_axis_range_day smin Rmin) as (Rs0 & Cs & Bs & Ms).
    destruct (in_axis_range_day emax Rmax) as (Re0 & Ce & Be & Me).
    rewrite (start_of_fixed_value smin DAY eq_refl Cs), (start_of_fixed_value emax DAY eq_refl Ce).
    cbn [scale_ms].
    set (s0 := smin - smin mod msPerDay) in *. set (e0 := emax - emax mod msPerDay) in *.
    destruct (view_is o "Year").
    + destruct (add_YEAR_padding s0 (-6) Rs0 Ms ltac:(lia)) as (gs1 & E1 & Y1 & M1 & R1 & _ & U1).
      destruct (add_YEAR_padding e0 6 Re0 Me ltac:(lia)) as (ge & E2 & _ & M2 & _ & L2 & _).
      rewrite E1, E2.
      pose proof (year_of_range gs1 1000 10000 R1) as Hy1.
      rewrite format_year by lia. rewrite Hstr by lia.
      exists (DayFromYear (YearFromTime gs1) * msPerDay), ge.
      split; [reflexivity |]. split; [apply Z_mod_mult |]. split; [exact M2 |].
      intros u s e Hu Hs He. destruct (Hall u s e Hu Hs He) as [A1 A2].
      pose proof (YearFromDay_spec (Day gs1)) as [Sp _]. fold (YearFromTime gs1) in Sp.
      assert (Dg : Day gs1 * msPerDay <= gs1).
      { pose proof (Day_TimeWithinDay gs1). pose proof (TimeWithinDay_bounds gs1). lia. }
      specialize (U1 ltac:(lia)). specialize (L2 ltac:(lia)).
      unfold msPerDay in *. lia.
    + destruct (view_is o "Month").
      * destruct (add_MONTH_padding s0 (-8) Rs0 Ms ltac:(lia)) as (gs & E1 & M1 & _ & U1).
        destruct (add_MONTH_padding e0 8 Re0 Me ltac:(lia)) as (ge & E2 & M2 & L2 & _).
        rewrite E1, E2. exists gs, ge.
        split; [reflexivity |]. split; [exact M1 |]. split; [exact M2 |].
        intros u s e Hu Hs He. destruct (Hall u s e Hu Hs He) as [A1 A2].
        specialize (U1 ltac:(lia)). specialize (L2 ltac:(lia)).
        unfold msPerDay in *. lia.
      * destruct (add_MONTH_padding s0 (-2) Rs0 Ms ltac:(lia)) as (gs & E1 & M1 & _ & U1).
        destruct (add_MONTH_padding e0 2 Re0 Me ltac:(lia)) as (ge & E2 & M2 & L2 & _).
        rewrite E1, E2. exists gs, ge.
        split; [reflexivity |]. split; [exact M1 |]. split; [exact M2 |].
        intros u s e Hu Hs He. destruct (Hall u s e Hu Hs He) as [A1 A2].
        specialize (U1 ltac:(lia)). specialize (L2 ltac:(lia)).
        unfold msPerDay in *. lia.
Qed.

(** The theorem on one task, on the Day scale. *)
Lemma setup_gantt_dates_covers_witness :
  exists gantt_start gantt_end,
    setup_gantt_dates year_only day_options [scheduled_task]
    = Some (TimeValue gantt_start, TimeValue gantt_end)
    /\ gantt_start mod msPerDay = 0 /\ gantt_end mod msPerDay = 0.
Proof.
  destruct (setup_gantt_dates_covers year_only day_options [scheduled_task]) as [_ H].
  - exact year_only_of_number.
  - intros task Ht. apply list_elem_of_singleton in Ht as ->.
    exists 1704844800000, 1705104000000.
    split; [reflexivity |]. split; [reflexivity |].
    split; vm_compute; split; (reflexivity || (intros C; discriminate C)).
  - destruct (H ltac:(discriminate)) as (gs & ge & E & M1 & M2 & _).
    exists gs, ge. auto.
Defined.

Section Ticks.

Lemma ticking_lookup ge lo hi ts a :
  ticking ge lo hi a ts ->
  (forall i x y, (a :: ts) !! i = Some x -> (a :: ts) !! S i = Some y ->
                 x < ge /\ lo <= y - x <= hi)
  /\ exists l, last (a :: ts) = Some l /\ ge <= l.
Proof.
  revert a. induction ts as [| b ts IH]; intros a H.
  - split; [intros i x y _ Hy; destruct i; discriminate Hy |].
    exists a. split; [reflexivity | exact H].
  - destruct H as (H1 & H2 & H3). destruct (IH b H3) as [I1 I2]. split.
    + intros [| i] x y Hx Hy.
      * injection Hx as <-. injection Hy as <-. auto.
      * exact (I1 i x y Hx Hy).
    + exact I2.
Qed.

Lemma date_values_loop_first fuel o gantt_start gantt_end :
  date_values_loop (S fuel) o gantt_start gantt_end None []
  = date_values_loop fuel o gantt_start gantt_end (Some (clone gantt_start))
                     [clone gantt_start].
Proof. reflexivity. Qed.

Variable o : Options.
Variables gantt_start gantt_end : Z.
Hypothesis positive_step : 0 < step o.
Hypothesis room : gantt_end + (stride o).2 <= 8640000000000000.

Lemma stride_positive : 0 < (stride o).1 <= (stride o).2.
Proof.
  unfold stride. destruct (view_is o "Year"); [cbn; unfold msPerDay; lia |].
  destruct (view_is o "Month"); cbn; unfold msPerDay, msPerHour; lia.
Qed.

(** One turn of the loop after the first. *)
Lemma next_tick cur :
  constructible cur -> cur < gantt_end ->
  exists next,
    (if view_is o "Year" then add (TimeValue cur) 1 YEAR
     else if view_is o "Month" then add (TimeValue cur) 1 MONTH
     else add (TimeValue cur) (step o) HOUR) = TimeValue next
    /\ (stride o).1 <= next - cur <= (stride o).2
    /\ constructible next.
Proof.
  intros Hc Hlt. pose proof (constructible_year cur Hc) as Hy.
  assert (Clip : forall next, cur <= next <= cur + (stride o).2 ->
                              TimeClip next = TimeValue next /\ constructible next).
  { intros next Hn. unfold constructible in *.
    assert (Hb : msPerDay * DayFromYear 100 <= next <= 8640000000000000) by lia.
    split; [| exact Hb].
    change (DayFromYear 100) with (-683003) in Hb. unfold msPerDay in Hb.
    unfold TimeClip. destruct (Z.leb_spec (Z.abs next) 8640000000000000); [reflexivity | lia]. }
  revert Clip. unfold stride.
  destruct (view_is o "Year"); [| destruct (view_is o "Month")]; cbn [fst snd]; intros Clip.
  - rewrite add_YEAR by lia.
    pose proof (MakeDay_next_year (YearFromTime cur) (MonthFromTime cur) (DateFromTime cur)
                  (MonthFromTime_range cur)) as N.
    pose proof (MakeDay_fields cur 0) as F. rewrite Z.add_0_r in F.
    pose proof (Day_TimeWithinDay cur) as D.
    set (next := MakeDay (YearFromTime cur + 1) (MonthFromTime cur) (DateFromTime cur) * msPerDay
                 + TimeWithinDay cur) in *.
    assert (B : 365 * msPerDay <= next - cur <= 366 * msPerDay)
      by (subst next; unfold msPerDay in *; lia).
    destruct (Clip next ltac:(unfold msPerDay in *; lia)) as [E C].
    exists next. auto.
  - destruct (add_MONTH_days cur 1 Hc) as (days & E & P & _). specialize (P ltac:(lia)).
    assert (B : 28 * msPerDay <= cur + days * msPerDay - cur <= 31 * msPerDay)
      by (unfold msPerDay; lia).
    destruct (Clip (cur + days * msPerDay) ltac:(unfold msPerDay in *; lia)) as [E' C].
    exists (cur + days * msPerDay). rewrite E. auto.
  - rewrite add_fixed by (reflexivity || lia). cbn [scale_ms].
    assert (B : step o * msPerHour <= cur + step o * msPerHour - cur <= step o * msPerHour) by lia.
    destruct (Clip (cur + step o * msPerHour) ltac:(unfold msPerHour in *; lia)) as [E' C].
    exists (cur + step o * msPerHour). auto.
Qed.

(** The loop from a tick on: it leaves, with the ticks that follow. *)
Lemma date_values_loop_from n :
  forall cur dates,
    constructible cur -> gantt_end - cur <= Z.of_nat n * (stride o).1 ->
    exists ts,
      date_values_loop (S n) o (TimeValue gantt_start) (TimeValue gantt_end)
                       (Some (TimeValue cur)) dates
      = Some (dates ++ (TimeValue <$> ts))
      /\ ticking gantt_end (stride o).1 (stride o).2 cur ts.
Proof.
  pose proof stride_positive as SP.
  induction n as [| n IH]; intros cur dates Hc Hm.
  - exists []. cbn [date_values_loop fmap list_fmap ticking date_lt].
    rewrite bool_decide_eq_true_2 by eauto. cbn [negb orb].
    destruct (Z.ltb_spec cur gantt_end); [lia |].
    split; [rewrite app_nil_r; reflexivity | lia].
  - destruct (Z.lt_ge_cases cur gantt_end) as [Hlt | Hge].
    + destruct (next_tick cur Hc Hlt) as (next & E & B & C).
      destruct (IH next (dates ++ [TimeValue next]) C ltac:(nia)) as (ts & R & T).
      exists (next :: ts). split.
      * change (date_values_loop (S (S n)) o (TimeValue gantt_start) (TimeValue gantt_end)
                  (Some (TimeValue cur)) dates)
          with (if negb (bool_decide (is_Some (Some (TimeValue cur))))
                   || date_lt (Some (TimeValue cur)) (Some (TimeValue gantt_end))
                then
                  let cur_date :=
                    if view_is o "Year" then add (TimeValue cur) 1 YEAR
                    else if view_is o "Month" then add (TimeValue cur) 1 MONTH
                    else add (TimeValue cur) (step o) HOUR in
                  date_values_loop (S n) o (TimeValue gantt_start) (TimeValue gantt_end)
                                   (Some cur_date) (dates ++ [cur_date])
                else Some dates).
        rewrite bool_decide_eq_true_2 by eauto. cbn [negb orb date_lt].
        destruct (Z.ltb_spec cur gantt_end); [| lia].
        cbn zeta. rewrite E, R. rewrite <- app_assoc. reflexivity.
      * cbn [ticking]. auto.
    + exists []. cbn [fmap list_fmap ticking].
      change (date_values_loop (S (S n)) o (TimeValue gantt_start) (TimeValue gantt_end)
                (Some (TimeValue cur)) dates)
        with (if negb (bool_decide (is_Some (Some (TimeValue cur))))
                 || date_lt (Some (TimeValue cur)) (Some (TimeValue gantt_end))
              then
                let cur_date :=
                  if view_is o "Year" then add (TimeValue cur) 1 YEAR
                  else if view_is o "Month" then add (TimeValue cur) 1 MONTH
                  else add (TimeValue cur) (step o) HOUR in
                date_values_loop (S n) o (TimeValue gantt_start) (TimeValue gantt_end)
                                 (Some cur_date) (dates ++ [cur_date])
              else Some dates).
      rewrite bool_decide_eq_true_2 by eauto. cbn [negb orb date_lt].
      destruct (Z.ltb_spec cur gantt_end); [lia |].
      split; [rewrite app_nil_r; reflexivity | lia].
Qed.

End Ticks.

(** X25.  The loop of [setup_date_values] leaves, for a positive [step], a
    [gantt_start] from the year 100 on and a [gantt_end] that is a stride
    away from the last time value.  The dates it returns begin with
    [gantt_start]; each one before the last is before [gantt_end] and
    followed by a date that is later by one stride (365 or 366 days in the
    Year view, 28 to 31 days in the Month view, [step] hours otherwise);
    the last one is not before [gantt_end]. *)
Theorem setup_date_values_ticks o gantt_start gantt_end :
  constructible gantt_start -> 0 < step o ->
  gantt_end + (stride o).2 <= 8640000000000000 ->
  exists fuel ts,
    setup_date_values fuel o (TimeValue gantt_start) (TimeValue gantt_end)
    = Some (TimeValue <$> ts)
    /\ ts !! 0%nat = Some gantt_start
    /\ (forall i a b, ts !! i = Some a -> ts !! S i = Some b ->
                      a < gantt_end /\ (stride o).1 <= b - a <= (stride o).2)
    /\ exists l, last ts = Some l /\ gantt_end <= l.
Proof.
  intros Hc Hs Hroom.
  pose proof (stride_positive o Hs) as SP.
  destruct (date_values_loop_from o gantt_start gantt_end Hs Hroom
              (Z.to_nat (Z.max 0 (gantt_end - gantt_start))) gantt_start
              [TimeValue gantt_start] Hc ltac:(nia)) as (ts & R & T).
  revert R. generalize (Z.to_nat (Z.max 0 (gantt_end - gantt_start))). intros n R.
  exists (S (S n)), (gantt_start :: ts).
  destruct (ticking_lookup _ _ _ _ _ T) as [L1 L2].
  split; [| split; [reflexivity | split; [exact L1 | exact L2]]].
  unfold setup_date_values. rewrite date_values_loop_first.
  rewrite (clone_value gantt_start Hc). exact R.
Qed.

(** The theorem on three days, on the Day scale. *)
Lemma setup_date_values_ticks_witness :
  exists fuel ts,
    setup_date_values fuel day_options (TimeValue 1704844800000) (TimeValue 1705104000000)
    = Some (TimeValue <$> ts)
    /\ ts !! 0%nat = Some 1704844800000
    /\ (forall i a b, ts !! i = Some a -> ts !! S i = Some b ->
                      a < 1705104000000
                      /\ (stride day_options).1 <= b - a <= (stride day_options).2)
    /\ exists l, last ts = Some l /\ 1705104000000 <= l.
Proof.
  apply (setup_date_values_ticks day_options 1704844800000 1705104000000).
  - vm_compute. split; intros C; discriminate C.
  - reflexivity.
  - vm_compute. intros C. discriminate C.
Defined.

(** X26.  [clone] returns the same time value for a date from the year
    100 on; a date of the years 0 to 99 it moves 1900 years on, to the
    same time of day, as the constructor reads such a year. *)
Theorem clone_same_instant t :
  (constructible t -> clone (TimeValue t) = TimeValue t)
  /\ (0 <= YearFromTime t <= 99 ->
      exists t', clone (TimeValue t) = TimeValue t'
                 /\ YearFromTime t' = 1900 + YearFromTime t
                 /\ TimeWithinDay t' = TimeWithinDay t).
Proof.
  split; [apply clone_value |].
  intros Hy. unfold clone, get_date_values, new_Date.
  cbn [getFullYear getMonth getDate getHours getMinutes getSeconds getMilliseconds field nth].
  replace ((0 <=? YearFromTime t) && (YearFromTime t <=? 99)) with true
    by (symmetry; apply andb_true_iff; lia).
  pose proof (MakeTime_all t 0 0 0 0) as H. rewrite !Z.add_0_r in H. rewrite H.
  replace (TimeWithinDay t + 0 * msPerHour + 0 * msPerMinute + 0 * msPerSecond)
    with (TimeWithinDay t) by lia.
  pose proof (MakeDay_year_of (1900 + YearFromTime t) (MonthFromTime t) (DateFromTime t)
                (MonthFromTime_range t) (DateFromTime_range t)) as Hin.
  pose proof (TimeWithinDay_bounds t) as Hw.
  set (d := MakeDay (1900 + YearFromTime t) (MonthFromTime t) (DateFromTime t)) in *.
  pose proof (DayFromYear_mono 1900 (1900 + YearFromTime t) ltac:(lia)) as L1.
  pose proof (DayFromYear_mono (1900 + YearFromTime t + 1) 2000 ltac:(lia)) as L2.
  change (DayFromYear 1900) with (-25567) in L1. change (DayFromYear 2000) with 10957 in L2.
  exists (MakeDate d (TimeWithinDay t)). unfold MakeDate.
  assert (Dd : Day (d * msPerDay + TimeWithinDay t) = d).
  { unfold Day, msPerDay in *. Z.to_euclidean_division_equations; lia. }
  split; [| split].
  - unfold TimeClip.
    destruct (Z.leb_spec (Z.abs (d * msPerDay + TimeWithinDay t)) 8640000000000000);
      [reflexivity | unfold msPerDay in *; lia].
  - unfold YearFromTime at 1. rewrite Dd. apply YearFromDay_unique, Hin.
  - unfold TimeWithinDay, msPerDay in *. Z.to_euclidean_division_equations; lia.
Qed.

Section Oldest.

Lemma oldest_fold rest :
  forall m,
    (forall d, d ∈ rest -> exists s, d = Some (TimeValue s)) ->
    exists m',
      foldl (fun prev_date cur_date : option Date =>
               if date_le cur_date prev_date then cur_date else prev_date)
            (Some (TimeValue m)) rest = Some (TimeValue m')
      /\ (m' = m \/ Some (TimeValue m') ∈ rest)
      /\ m' <= m
      /\ forall s, Some (TimeValue s) ∈ rest -> m' <= s.
Proof.
  induction rest as [| d rest IH]; intros m Hall.
  - exists m. cbn [foldl]. repeat split; auto; try lia.
    intros s Hs. apply elem_of_nil in Hs as [].
  - destruct (Hall d ltac:(left)) as [s ->]. cbn [foldl date_le].
    destruct (IH (if s <=? m then s else m)
                ltac:(intros d Hd; apply Hall; right; exact Hd)) as (m' & E & In & Le & Min).
    exists m'. split.
    { destruct (s <=? m); exact E. }
    split.
    { destruct In as [-> | In]; [| right; right; exact In].
      destruct (Z.leb_spec s m); [right; left | left; reflexivity]. }
    split; [destruct (Z.leb_spec s m); lia |].
    intros s' Hs'. apply elem_of_cons in Hs' as [Hs' | Hs'].
    + injection Hs' as ->. destruct (Z.leb_spec s m); lia.
    + apply Min, Hs'.
Qed.

End Oldest.

(** X27.  [get_oldest_starting_date] raises a [TypeError] on an empty task
    list.  On tasks whose [_start] are valid dates it returns the least of
    them; and when the [_start] of the first task is not a valid date, it
    returns that value, whatever the other tasks start at. *)
Theorem get_oldest_starting_date_least tasks :
  (tasks = [] -> get_oldest_starting_date tasks = None)
  /\ (tasks <> [] ->
      (forall task, task ∈ tasks -> exists s, _start task = Some (TimeValue s)) ->
      exists m,
        get_oldest_starting_date tasks = Some (Some (TimeValue m))
        /\ (exists task, task ∈ tasks /\ _start task = Some (TimeValue m))
        /\ forall task s, task ∈ tasks -> _start task = Some (TimeValue s) -> m <= s)
  /\ (forall first rest, tasks = first :: rest ->
        (forall s, _start first <> Some (TimeValue s)) ->
        get_oldest_starting_date tasks = Some (_start first)).
Proof.
  split; [intros ->; reflexivity |]. split.
  - intros Hne Hall. destruct tasks as [| first rest]; [contradiction |].
    destruct (Hall first ltac:(left)) as [s0 E0].
    unfold get_oldest_starting_date. cbn [fmap list_fmap]. rewrite E0.
    destruct (oldest_fold (_start <$> rest) s0) as (m & E & In & Le & Min).
    { intros d Hd. apply list_elem_of_fmap in Hd as (u & -> & Hu).
      apply Hall. right. exact Hu. }
    exists m. split; [f_equal; exact E |]. split.
    + destruct In as [-> | In]; [exists first; split; [left | exact E0] |].
      apply list_elem_of_fmap in In as (u & Eu & Hu).
      exists u. split; [right; exact Hu | symmetry; exact Eu].
    + intros u s Hu Es. apply elem_of_cons in Hu as [-> | Hu].
      * rewrite E0 in Es. injection Es as <-. exact Le.
      * apply Min. rewrite <- Es. apply list_elem_of_fmap. exists u. auto.
  - intros first rest -> Hbad. unfold get_oldest_starting_date. cbn [fmap list_fmap].
    f_equal. generalize (_start <$> rest). intros l.
    induction l as [| d l IH]; [reflexivity |].
    cbn [foldl]. replace (date_le d (_start first)) with false; [exact IH |].
    destruct d as [[x |] |]; try reflexivity.
    destruct (_start first) as [[y |] |]; try reflexivity.
    exfalso. apply (Hbad y). reflexivity.
Qed.
